(** * ibkr-mcp: the market-data fetch engine

    A shallow embedding of [ibkr/cache.py], [ibkr/market_data.py],
    [ibkr/profiles.py], [ibkr/_types.py] and [ibkr/connection.py], and the
    properties of the disk cache, the fallback-chain fetch orchestrator,
    the snapshot fetch and the reconnect loop. A further part embeds the
    FX side and the dispatch of [ibkr/contracts.py], the account
    resolution of [ibkr/client.py] and the account summary of
    [ibkr/account.py].

    Conventions of the embedding.
    - Python [str] is [string]; the model covers ASCII text (each character
      one byte below 128), which is what symbols, instrument tags and
      [whatToShow] names are. An argument that may be [None] where the
      source writes [str(x or "")] is the empty string.
    - A [pd.Timestamp] is a record of its calendar fields, its nanoseconds
      since the wall-clock midnight and its optional UTC offset. What
      [pd.Timestamp(value)] returns is a [stamp]: such a record or [NaT]
      (an index cell is an [option Timestamp], [None] being [NaT]).
    - float64 is Rocq's primitive [float]; a null/NaN cell of a series is a
      NaN float. Ages of files are compared exactly, in nanoseconds.
    - Effects (cache directory, gateway, clock, log of side effects) are
      threaded through an explicit [world]; a Python exception is the
      [Raise] outcome of a computation. The clock moves with
      [time.sleep] only. Writing to the logger is not an effect of the
      model.
    - The gateway is an oracle: a record of functions that give the answer
      of each call. The contract resolver and the MD5 digest are
      parameters, and so is the order in which [frame.sort_index()] leaves
      rows of one instant (its default sort is not stable).
    - Locks are not modelled: each operation runs alone, and the reconnect
      thread runs to its end when it is started.

    The file has the definitions first (string and calendar helpers, the
    effect monad, [cache.py], [market_data.py], [connection.py], then the
    notions in which properties are stated) and the properties after
    them. *)

From Stdlib Require Import ZArith Floats Ascii String.
From stdpp Require Import base option list gmap strings pretty.

Local Open Scope string_scope.
Local Open Scope Z_scope.

(** ** Python string helpers *)

Module PyStr.

(** [str.isspace] on one ASCII character: TAB, LF, VT, FF, CR, the four
    separators FS, GS, RS, US and the space. *)
Definition is_space (c : ascii) : bool :=
  let n := N_of_ascii c in
  ((9 <=? n) && (n <=? 13) || (28 <=? n) && (n <=? 32))%N.

Definition is_lower (c : ascii) : bool :=
  let n := N_of_ascii c in ((97 <=? n) && (n <=? 122))%N.

Definition is_upper (c : ascii) : bool :=
  let n := N_of_ascii c in ((65 <=? n) && (n <=? 90))%N.

Definition upper_char (c : ascii) : ascii :=
  if is_lower c then ascii_of_N (N_of_ascii c - 32) else c.

Definition lower_char (c : ascii) : ascii :=
  if is_upper c then ascii_of_N (N_of_ascii c + 32) else c.

Fixpoint map_str (f : ascii -> ascii) (s : string) : string :=
  match s with
  | EmptyString => EmptyString
  | String c r => String (f c) (map_str f r)
  end.

(** [str.upper] and [str.lower]. *)
Definition upper : string -> string := map_str upper_char.
Definition lower : string -> string := map_str lower_char.

Fixpoint all_space (s : string) : bool :=
  match s with
  | EmptyString => true
  | String c r => is_space c && all_space r
  end.

Fixpoint lstrip (s : string) : string :=
  match s with
  | EmptyString => EmptyString
  | String c r => if is_space c then lstrip r else s
  end.

Fixpoint rstrip (s : string) : string :=
  match s with
  | EmptyString => EmptyString
  | String c r =>
      match rstrip r with
      | EmptyString => if is_space c then EmptyString else String c EmptyString
      | r' => String c r'
      end
  end.

(** [str.strip] with no argument. *)
Definition strip (s : string) : string := rstrip (lstrip s).

(** [sep.join(parts)]. *)
Fixpoint join (sep : string) (parts : list string) : string :=
  match parts with
  | [] => EmptyString
  | [p] => p
  | p :: rest => p +:+ sep +:+ join sep rest
  end.

Fixpoint is_prefix (p s : string) : bool :=
  match p, s with
  | EmptyString, _ => true
  | String a p', String b s' => if Ascii.eqb a b then is_prefix p' s' else false
  | String _ _, EmptyString => false
  end.

(** [needle in haystack] for strings. *)
Fixpoint contains (needle haystack : string) : bool :=
  is_prefix needle haystack ||
  match haystack with
  | EmptyString => false
  | String _ r => contains needle r
  end.

(** Truthiness of a string: [bool(s)]. *)
Definition truthy (s : string) : bool :=
  match s with EmptyString => false | _ => true end.

(** Two characters that are the same letter up to case (or equal). *)
Definition same_char_nocase (a b : ascii) : bool :=
  Ascii.eqb a b
  || (is_lower a && Ascii.eqb (upper_char a) b)
  || (is_upper a && Ascii.eqb (lower_char a) b).

(** Two strings that differ only in the case of their letters. *)
Fixpoint case_variant (s t : string) : bool :=
  match s, t with
  | EmptyString, EmptyString => true
  | String a s', String b t' => same_char_nocase a b && case_variant s' t'
  | _, _ => false
  end.

(** [f"{n:0{w}d}"] for a non-negative [n]. *)
Definition zero_pad (w : nat) (n : Z) : string :=
  let digits := pretty n in
  String.concat "" (replicate (w - String.length digits) "0") +:+ digits.

(** A string that does not begin with whitespace. *)
Definition no_leading_space (s : string) : Prop :=
  match s with
  | EmptyString => True
  | String c _ => is_space c = false
  end.

End PyStr.

(** ** Calendar dates and timestamps *)

Record date := mkDate { year : Z; month : Z; day : Z }.

Definition is_leap (y : Z) : bool :=
  (y mod 4 =? 0) && (negb (y mod 100 =? 0) || (y mod 400 =? 0)).

Definition days_in_month (y m : Z) : Z :=
  if (m =? 2) then (if is_leap y then 29 else 28)
  else if (m =? 4) || (m =? 6) || (m =? 9) || (m =? 11) then 30
  else 31.

Definition valid_date (d : date) : bool :=
  (1 <=? month d) && (month d <=? 12)
  && (1 <=? day d) && (day d <=? days_in_month (year d) (month d)).

(** Order of [datetime.date]: lexicographic on year, month, day. *)
Definition date_compare (a b : date) : comparison :=
  match year a ?= year b with
  | Eq => match month a ?= month b with
          | Eq => day a ?= day b
          | c => c
          end
  | c => c
  end.

Definition date_ltb (a b : date) : bool :=
  match date_compare a b with Lt => true | _ => false end.

Definition date_leb (a b : date) : bool :=
  match date_compare a b with Gt => false | _ => true end.

Definition next_day (d : date) : date :=
  if day d <? days_in_month (year d) (month d)
  then mkDate (year d) (month d) (day d + 1)
  else if month d <? 12 then mkDate (year d) (month d + 1) 1
  else mkDate (year d + 1) 1 1.

Definition prev_day (d : date) : date :=
  if 1 <? day d then mkDate (year d) (month d) (day d - 1)
  else if 1 <? month d
  then mkDate (year d) (month d - 1) (days_in_month (year d) (month d - 1))
  else mkDate (year d - 1) 12 31.

(** [d + timedelta(days=n)]. *)
Definition add_days (d : date) (n : Z) : date :=
  if 0 <=? n then Nat.iter (Z.to_nat n) next_day d
  else Nat.iter (Z.to_nat (- n)) prev_day d.

(** [date.isoformat()]: YYYY-MM-DD. *)
Definition isoformat (d : date) : string :=
  PyStr.zero_pad 4 (year d) +:+ "-" +:+ PyStr.zero_pad 2 (month d)
  +:+ "-" +:+ PyStr.zero_pad 2 (day d).

(** [ts + pd.DateOffset(years=n)] on the date fields: the year moves and
    the day is clipped to the length of the target month (29 February
    becomes 28 February in a common year). *)
Definition add_years (d : date) (n : Z) : date :=
  let y := year d + n in
  mkDate y (month d) (Z.min (day d) (days_in_month y (month d))).

Definition NANOS_PER_SECOND : Z := 1000000000.
Definition NANOS_PER_DAY : Z := 86400 * NANOS_PER_SECOND.

(** A [pd.Timestamp]: wall-clock date, nanoseconds since wall-clock
    midnight, and [tz] as the UTC offset in seconds ([None]: naive). *)
Record Timestamp := mkTs {
  ts_date : date;
  ts_nanos : Z;
  ts_tz : option Z
}.

Definition valid_ts (t : Timestamp) : bool :=
  valid_date (ts_date t) && (0 <=? ts_nanos t) && (ts_nanos t <? NANOS_PER_DAY).

(** [ts.tz_convert("UTC").tz_localize(None)] for an aware timestamp with the
    given offset: the wall clock moves back by the offset. *)
Definition utc_wall_clock (t : Timestamp) (offset_s : Z) : Timestamp :=
  let n := ts_nanos t - offset_s * NANOS_PER_SECOND in
  mkTs (add_days (ts_date t) (n / NANOS_PER_DAY)) (n mod NANOS_PER_DAY) None.

(** Order of two naive timestamps. *)
Definition naive_compare (a b : Timestamp) : comparison :=
  match date_compare (ts_date a) (ts_date b) with
  | Eq => ts_nanos a ?= ts_nanos b
  | c => c
  end.

Definition ts_leb (a b : Timestamp) : bool :=
  match naive_compare a b with Gt => false | _ => true end.

Definition ts_ltb (a b : Timestamp) : bool :=
  match naive_compare a b with Lt => true | _ => false end.

(** Days since 1970-01-01 to a civil date (proleptic Gregorian). *)
Definition civil_from_days (z : Z) : date :=
  let z := z + 719468 in
  let era := z / 146097 in
  let doe := z - era * 146097 in
  let yoe := (doe - doe / 1460 + doe / 36524 - doe / 146096) / 365 in
  let doy := doe - (365 * yoe + yoe / 4 - yoe / 100) in
  let mp := (5 * doy + 2) / 153 in
  let d := doy - (153 * mp + 2) / 5 + 1 in
  let m := if mp <? 10 then mp + 3 else mp - 9 in
  mkDate (yoe + era * 400 + (if m <=? 2 then 1 else 0)) m d.

(** The naive UTC timestamp of an instant given in nanoseconds since the
    epoch: [datetime.now(UTC).replace(tzinfo=None)] when the clock reads
    that instant. *)
Definition utc_of_epoch (ns : Z) : Timestamp :=
  mkTs (civil_from_days (ns / NANOS_PER_DAY)) (ns mod NANOS_PER_DAY) None.

(** What [pd.Timestamp(value)] returns: a timestamp, or [NaT] (for
    [None], the empty text, ["NaT"], ["nan"], a NaN). A [Timestamp] is
    read as such a value wherever one is expected. *)
Inductive stamp :=
  | NaT
  | TS (t : Timestamp).

Coercion TS : Timestamp >-> stamp.

(** [a < b] and [a <= b] on naive values: every comparison with [NaT] is
    false. *)
Definition stamp_ltb (a b : stamp) : bool :=
  match a, b with
  | TS a, TS b => ts_ltb a b
  | _, _ => false
  end.

Definition stamp_leb (a b : stamp) : bool :=
  match a, b with
  | TS a, TS b => ts_leb a b
  | _, _ => false
  end.

(** ** ibkr/cache.py: key derivation *)

(** [hashlib.md5(key.encode()).hexdigest()] is a library function; the
    development is parametric in it. *)
Class Md5 := md5_hexdigest : string -> string.

(** The naive UTC wall clock of a timestamp:
    [ts.tz_convert("UTC").tz_localize(None)] when it is aware, the
    timestamp itself when it is naive. *)
Definition naive_utc (t : Timestamp) : Timestamp :=
  match ts_tz t with
  | Some off => utc_wall_clock t off
  | None => t
  end.

(** [_to_timestamp]: normalize to a naive UTC timestamp. [NaT.tz] is
    [None], so [NaT] is returned as it is. *)
Definition _to_timestamp (value : stamp) : stamp :=
  match value with
  | NaT => NaT
  | TS ts => TS (naive_utc ts)
  end.

(** [ts.date().isoformat()]: [NaT.date()] is [NaT], whose [isoformat()]
    is the text ["NaT"]. *)
Definition date_isoformat (ts : stamp) : string :=
  match ts with
  | NaT => "NaT"
  | TS t => isoformat (ts_date t)
  end.

(** The text that [cache_key] fingerprints. *)
Definition cache_key_text (symbol instrument_type what_to_show bar_size : string)
    (use_rth : bool) (start_date end_date : stamp) : string :=
  let start_iso := date_isoformat (_to_timestamp start_date) in
  let end_iso := date_isoformat (_to_timestamp end_date) in
  PyStr.join "|"
    [ PyStr.upper (PyStr.strip symbol);
      PyStr.lower (PyStr.strip instrument_type);
      PyStr.upper (PyStr.strip what_to_show);
      PyStr.strip bar_size;
      if use_rth then "rth" else "all";
      start_iso;
      end_iso ].

Definition cache_key `{Md5} (symbol instrument_type what_to_show bar_size : string)
    (use_rth : bool) (start_date end_date : stamp) : string :=
  md5_hexdigest
    (cache_key_text symbol instrument_type what_to_show bar_size use_rth
       start_date end_date).


(** ** Exceptions and effectful computations *)

(** The exception classes the engine raises or catches. [IBKRDataError]
    is the base class of the package's own errors (ibkr/exceptions.py);
    the others are builtins or library errors; [OtherException] stands for
    any other subclass of [Exception]. *)
Inductive exn_class :=
  | IBKRDataError
  | IBKRConnectionError
  | IBKRContractError
  | IBKRNoDataError
  | IBKREntitlementError
  | IBKRAccountError
  | IBKRTimeoutError
  | ConnectionRefusedError
  | OSError
  | ValueError
  | TypeError
  | KeyError
  | EmptyDataError
  | ParserError
  | OtherException.

Global Instance exn_class_eq_dec : EqDecision exn_class.
Proof. solve_decision. Defined.

(** A raised exception: its class and [str(exc)]. *)
Record exn := mkExn { exn_cls : exn_class; exn_msg : string }.

(** [isinstance(e, cls)] along the class hierarchy. *)
Definition isinstance (e : exn) (cls : exn_class) : bool :=
  bool_decide (exn_cls e = cls)
  || match cls, exn_cls e with
     | IBKRDataError,
       (IBKRConnectionError | IBKRContractError | IBKRNoDataError
       | IBKREntitlementError | IBKRAccountError | IBKRTimeoutError) => true
     | OSError, ConnectionRefusedError => true
     | _, _ => false
     end.

Inductive outcome (A : Type) :=
  | Ok (a : A)
  | Raise (e : exn).
Arguments Ok {A} a.
Arguments Raise {A} e.

(** A computation over a state [S] that returns or raises. *)
Definition M (S A : Type) : Type := S -> outcome A * S.

Definition ret {S A} (a : A) : M S A := fun s => (Ok a, s).
Definition raise {S A} (e : exn) : M S A := fun s => (Raise e, s).

Definition bind {S A B} (m : M S A) (k : A -> M S B) : M S B :=
  fun s =>
    match m s with
    | (Ok a, s') => k a s'
    | (Raise e, s') => (Raise e, s')
    end.

(** [try: m  except <handled by h>: ...]: [h] sees every exception. *)
Definition try_except {S A} (m : M S A) (h : exn -> M S A) : M S A :=
  fun s =>
    match m s with
    | (Ok a, s') => (Ok a, s')
    | (Raise e, s') => h e s'
    end.

(** [try: m  finally: f], where [f] itself does not raise. *)
Definition try_finally {S A} (m : M S A) (f : S -> S) : M S A :=
  fun s => let '(r, s') := m s in (r, f s').

Definition modify {S} (f : S -> S) : M S unit := fun s => (Ok tt, f s).

(** The result of a computation that has no effect. *)
Definition of_outcome {S A} (r : outcome A) : M S A :=
  match r with
  | Ok a => ret a
  | Raise e => raise e
  end.

Definition gets {S A} (f : S -> A) : M S A := fun s => (Ok (f s), s).

Declare Scope py_scope.
Delimit Scope py_scope with py.
Notation "x <- m ;; k" := (bind m (fun x => k))
  (at level 100, m at next level, right associativity) : py_scope.
Notation "m ;;; k" := (bind m (fun _ => k))
  (at level 100, right associativity) : py_scope.
Local Open Scope py_scope.

(** ** Gateway, cache directory and clock *)

(** A contract as the engine sees it: opaque but for [secType] and
    [right], which the snapshot path reads. *)
Record Contract := mkContract {
  c_id : string;
  secType : string;
  right : string
}.

(** One historical bar: what [pd.to_datetime(bar.date, errors="coerce")]
    gives ([None] when the date is missing or does not parse) and what
    [float(bar.close)] gives ([None] when the close is missing or does not
    convert). *)
Record Bar := mkBar { bar_date : option Timestamp; bar_close : option float }.

(** A Python value read off a ticker attribute. [PyOther] is a value on
    which [float()] raises. *)
Inductive pyval :=
  | PyNone
  | PyFloat (f : float)
  | PyOther.

Record Greeks := mkGreeks {
  g_impliedVol : pyval; g_delta : pyval; g_gamma : pyval;
  g_theta : pyval; g_vega : pyval
}.

(** The attributes of an [ib_async] ticker that [fetch_snapshot] reads, as
    they are when the results are collected. *)
Record Ticker := mkTicker {
  t_bid : pyval; t_ask : pyval; t_last : pyval; t_volume : pyval;
  t_callVolume : pyval; t_putVolume : pyval;
  t_callOpenInterest : pyval; t_putOpenInterest : pyval;
  t_impliedVolatility : pyval;
  t_modelGreeks : option Greeks;
  t_time : option Timestamp
}.

(** The arguments of one [reqHistoricalData] call. *)
Record hist_request := mkHistReq {
  hr_contract : Contract;
  hr_durationStr : string;
  hr_barSizeSetting : string;
  hr_whatToShow : string;
  hr_useRTH : bool
}.

(** The gateway as an oracle: what each call answers, given the number of
    gateway calls made before it in the run and its arguments. Any
    deterministic-in-history gateway is such an oracle. *)
Record gateway := mkGateway {
  gw_connect : nat -> outcome (list string);
    (** [ib.connect]: raises, or connects and will report the given
        managed accounts *)
  gw_qualifyContracts : nat -> Contract -> outcome (list (option Contract));
  gw_reqHistoricalData : nat -> hist_request -> outcome (list Bar);
  gw_reqMktData : nat -> Contract -> string -> outcome (option Ticker);
  gw_sleep : nat -> outcome unit
}.

(** A cell of a stored value column: a number, or something on which
    [astype(float)] raises. *)
Inductive cellval :=
  | CNum (f : float)
  | CNonNumeric.

(** An index cell: a timestamp, or [None] for [NaT] and for a label that
    [pd.to_datetime(..., errors="coerce")] turns into [NaT]. *)
Definition index_cell := option Timestamp.

(** A data frame as read from a parquet file. *)
Record frame := mkFrame {
  fr_index : list index_cell;
  fr_columns : list (string * list cellval)
}.

(** What [pd.read_parquet] does on a file: it raises (garbage bytes raise
    pyarrow's [ArrowInvalid], a [ValueError]; a truncated file may raise
    [OSError]), or it returns a frame. *)
Inductive file_content :=
  | Unreadable (e : exn)
  | Parquet (fr : frame).

Record file := mkFile {
  f_mtime : Z;  (** [st_mtime], in nanoseconds since the epoch *)
  f_content : file_content
}.

(** Observable side effects, in the order they happen. *)
Inductive event :=
  | EvCacheStat (path : string)     (** [path.is_file()] *)
  | EvCacheRead (path : string)     (** [pd.read_parquet(path)] *)
  | EvCacheUnlink (path : string)   (** [path.unlink(missing_ok=True)] *)
  | EvCacheWrite (path : string)    (** [frame.to_parquet(path)] *)
  | EvConnect                       (** [ib.connect(...)] on a new session *)
  | EvQualify (c : Contract)
  | EvHistorical (r : hist_request)
  | EvMktData (c : Contract) (generic_ticks : string)
  | EvGatewaySleep
  | EvDisconnect                    (** [ib.disconnect()] *)
  | EvSleep (seconds : Z)           (** [time.sleep(seconds)] *)
  | EvSpawnReconnect.               (** the reconnect thread is started *)

Record world := mkWorld {
  w_fs : gmap string file;   (** the cache directory: file name to file *)
  w_clock : Z;               (** the instant, in nanoseconds since the epoch *)
  w_gateway : gateway;
  w_calls : nat;             (** gateway calls made so far *)
  w_log : list event         (** side effects so far, oldest first *)
}.

Definition log_event (ev : event) (w : world) : world :=
  mkWorld (w_fs w) (w_clock w) (w_gateway w) (w_calls w) (w_log w ++ [ev]).

Definition set_fs (fs : gmap string file) (w : world) : world :=
  mkWorld fs (w_clock w) (w_gateway w) (w_calls w) (w_log w).

Definition set_clock (t : Z) (w : world) : world :=
  mkWorld (w_fs w) t (w_gateway w) (w_calls w) (w_log w).

Definition count_call (w : world) : world :=
  mkWorld (w_fs w) (w_clock w) (w_gateway w) (S (w_calls w)) (w_log w).

(** One gateway call: log it, count it, and answer from the oracle. *)
Definition gateway_call {A} (ev : event) (answer : gateway -> nat -> outcome A)
  : M world A :=
  fun w => (answer (w_gateway w) (w_calls w), count_call (log_event ev w)).

(** [_utcnow()]: [datetime.now(UTC).replace(tzinfo=None)], at microsecond
    resolution. *)
Definition _utcnow : M world Timestamp :=
  gets (fun w =>
          let t := utc_of_epoch (w_clock w) in
          mkTs (ts_date t) (ts_nanos t / 1000 * 1000) None).

(** ** Series *)

(** A [pd.Series] of floats over a time index. A null value is a NaN. *)
Record Series := mkSeries {
  s_name : option string;
  s_rows : list (index_cell * float)
}.

(** [pd.Series(dtype=float)]. *)
Definition empty_series : Series := mkSeries None [].

(** [series.empty]. *)
Definition series_empty (s : Series) : bool :=
  match s_rows s with [] => true | _ => false end.

Definition set_name (name : string) (s : Series) : Series :=
  mkSeries (Some name) (s_rows s).

Definition value_notna (r : index_cell * float) : bool :=
  negb (PrimFloat.is_nan (snd r)).

Definition index_notna (r : index_cell * float) : bool :=
  match fst r with Some _ => true | None => false end.

(** [series.dropna()]. *)
Definition dropna (s : Series) : Series :=
  mkSeries (s_name s) (List.filter value_notna (s_rows s)).

(** [series[~series.index.isna()]], after the index has been coerced with
    [pd.to_datetime(..., errors="coerce")]. *)
Definition drop_nat_index (s : Series) : Series :=
  mkSeries (s_name s) (List.filter index_notna (s_rows s)).

(** ** ibkr/cache.py *)

Definition CURRENT_MONTH_TTL_HOURS : Z := 4.

Definition NANOS_PER_HOUR : Z := 3600 * NANOS_PER_SECOND.

(** [now_ts.replace(day=1, hour=0, minute=0, second=0, microsecond=0)]:
    [replace] leaves the nanosecond field (below one microsecond) as it
    is. *)
Definition replace_month_start (t : Timestamp) : Timestamp :=
  mkTs (mkDate (year (ts_date t)) (month (ts_date t)) 1)
       (ts_nanos t mod 1000) (ts_tz t).

(** [ts + pd.offsets.MonthEnd(1)]: the next month end strictly after the
    date of [ts]; the time of day is kept. *)
Definition add_MonthEnd (t : Timestamp) : Timestamp :=
  let d := ts_date t in
  if day d <? days_in_month (year d) (month d)
  then mkTs (mkDate (year d) (month d) (days_in_month (year d) (month d)))
            (ts_nanos t) (ts_tz t)
  else
    let y := if month d <? 12 then year d else year d + 1 in
    let m := if month d <? 12 then month d + 1 else 1 in
    mkTs (mkDate y m (days_in_month y m)) (ts_nanos t) (ts_tz t).

(** [_includes_current_month(start_date, end_date, now=now_ts)], with
    [now_ts] already chosen ([now or datetime.now(UTC)]). A bound that is
    [NaT] makes every comparison false. *)
Definition _includes_current_month (start_date end_date : stamp) (now : Timestamp)
  : bool :=
  let start_ts := _to_timestamp start_date in
  let end_ts := _to_timestamp end_date in
  let '(start_ts, end_ts) :=
    if stamp_ltb end_ts start_ts then (end_ts, start_ts) else (start_ts, end_ts) in
  let now_ts := naive_utc now in
  let month_start := replace_month_start now_ts in
  let month_end := add_MonthEnd month_start in
  stamp_leb start_ts month_end && stamp_leb month_start end_ts.

(** [_is_expired(path, ttl_hours)] on the file's [st_mtime] and the value
    of [time.time()]: the age in hours exceeds the TTL. The division by
    3600.0 is exact here. *)
Definition _is_expired (mtime now : Z) (ttl_hours : option Z) : bool :=
  match ttl_hours with
  | None => false
  | Some ttl => ttl * NANOS_PER_HOUR <? now - mtime
  end.

Definition cache_file_name `{Md5} (symbol instrument_type what_to_show bar_size : string)
    (use_rth : bool) (start_date end_date : stamp) : string :=
  "ibkr_" +:+ cache_key symbol instrument_type what_to_show bar_size use_rth
                start_date end_date +:+ ".parquet".

(** [path.unlink(missing_ok=True)]. *)
Definition unlink (path : string) : M world unit :=
  modify (fun w => set_fs (delete path (w_fs w)) (log_event (EvCacheUnlink path) w)).

(** [path.is_file()]. *)
Definition is_file (path : string) : M world bool :=
  fun w => (Ok (bool_decide (is_Some (w_fs w !! path))),
            log_event (EvCacheStat path) w).

(** [pd.read_parquet(path)]. *)
Definition read_parquet (path : string) : M world frame :=
  fun w =>
    let w' := log_event (EvCacheRead path) w in
    match w_fs w !! path with
    | Some f =>
        match f_content f with
        | Parquet fr => (Ok fr, w')
        | Unreadable e => (Raise e, w')
        end
    | None => (Raise (mkExn OSError "No such file or directory"), w')
    end.

(** [frame.empty]: no rows or no columns. *)
Definition frame_empty (fr : frame) : bool :=
  match fr_index fr, fr_columns fr with
  | [], _ => true
  | _, [] => true
  | _, _ => false
  end.

Fixpoint frame_column (name : string) (cols : list (string * list cellval))
  : option (list cellval) :=
  match cols with
  | [] => None
  | (n, cells) :: rest =>
      if String.eqb n name then Some cells else frame_column name rest
  end.

(** [series.astype(float)] on a column whose index has been filtered: it
    raises [ValueError] on the first cell that is not a number. *)
Fixpoint astype_float (rows : list (index_cell * cellval))
  : outcome (list (index_cell * float)) :=
  match rows with
  | [] => Ok []
  | (i, CNum f) :: rest =>
      match astype_float rest with
      | Ok out => Ok ((i, f) :: out)
      | Raise e => Raise e
      end
  | (_, CNonNumeric) :: _ =>
      Raise (mkExn ValueError "could not convert string to float")
  end.

(** The exceptions of [pd.read_parquet] that [_safe_read] catches. *)
Definition read_error_caught (e : exn) : bool :=
  isinstance e EmptyDataError || isinstance e ParserError
  || isinstance e OSError || isinstance e ValueError.

(** [_safe_read(path)]. Only [pd.read_parquet] is inside the [try]. The
    index of the column is coerced with [pd.to_datetime(...,
    errors="coerce")] when it is not a [DatetimeIndex]: index cells are
    modelled by the result of that coercion. *)
Definition _safe_read (path : string) : M world (option Series) :=
  read <- try_except
            (frame <- read_parquet path ;; ret (Some frame))
            (fun e =>
               if read_error_caught e then unlink path ;;; ret None
               else raise e) ;;
  match read with
  | None => ret None
  | Some frame =>
      if frame_empty frame then ret (Some empty_series)
      else
        match frame_column "value" (fr_columns frame) with
        | None => unlink path ;;; ret None
        | Some cells =>
            let series := zip (fr_index frame) cells in
            let series :=
              List.filter
                (fun r => match fst r with Some _ => true | None => false end)
                series in
            match astype_float series with
            | Ok rows => ret (Some (mkSeries (Some "value") rows))
            | Raise e => raise e
            end
        end
  end.

(** [datetime.now(UTC)]: aware, at microsecond resolution. *)
Definition datetime_now_utc : M world Timestamp :=
  gets (fun w =>
          let t := utc_of_epoch (w_clock w) in
          mkTs (ts_date t) (ts_nanos t / 1000 * 1000) (Some 0)).

(** [get_cached(...)]. [now] is the optional keyword argument. *)
Definition get_cached `{Md5} (symbol instrument_type what_to_show bar_size : string)
    (use_rth : bool) (start_date end_date : stamp) (now : option Timestamp)
  : M world (option Series) :=
  let path := cache_file_name symbol instrument_type what_to_show bar_size
                use_rth start_date end_date in
  present <- is_file path ;;
  if negb present then ret None
  else
    now_ts <- match now with Some t => ret t | None => datetime_now_utc end ;;
    let ttl := if _includes_current_month start_date end_date now_ts
               then Some CURRENT_MONTH_TTL_HOURS else None in
    mtime <- gets (fun w => match w_fs w !! path with
                            | Some f => f_mtime f
                            | None => 0
                            end) ;;
    clock <- gets w_clock ;;
    if _is_expired mtime clock ttl then unlink path ;;; ret None
    else
      series <- _safe_read path ;;
      match series with
      | None => ret None
      | Some s => ret (Some (set_name (PyStr.upper (PyStr.strip symbol)) s))
      end.

(** [series.to_frame(name="value")]. *)
Definition to_frame (s : Series) : frame :=
  mkFrame (map fst (s_rows s)) [("value", map (fun r => CNum (snd r)) (s_rows s))].

(** [frame.to_parquet(path, ...)]: the file is replaced in full and its
    modification time is the current instant. *)
Definition to_parquet (fr : frame) (path : string) : M world unit :=
  modify (fun w =>
            set_fs (<[path := mkFile (w_clock w) (Parquet fr)]> (w_fs w))
                   (log_event (EvCacheWrite path) w)).

(** [put_cache(series, ...)]: returns the path written, or [None]. The
    values of a [Series] are floats already, so [astype(float)] changes
    nothing. *)
Definition put_cache `{Md5} (series : Series)
    (symbol instrument_type what_to_show bar_size : string)
    (use_rth : bool) (start_date end_date : stamp)
  : M world (option string) :=
  if series_empty series || series_empty (dropna series) then ret None
  else
    let cleaned := dropna series in
    let cleaned := drop_nat_index cleaned in
    if series_empty cleaned then ret None
    else
      let path := cache_file_name symbol instrument_type what_to_show bar_size
                    use_rth start_date end_date in
      let frame := to_frame cleaned in
      to_parquet frame path ;;;
      ret (Some path).

(** ** ibkr/_types.py and ibkr/profiles.py *)

Definition _VALID_INSTRUMENT_TYPES : list string :=
  ["equity"; "option"; "futures"; "fx"; "fx_artifact"; "bond"; "unknown"].

Definition str_in (s : string) (l : list string) : bool :=
  existsb (String.eqb s) l.

(** [coerce_instrument_type(value, default)]. *)
Definition coerce_instrument_type (value default : string) : string :=
  let normalized := PyStr.lower (PyStr.strip value) in
  if str_in normalized _VALID_INSTRUMENT_TYPES then normalized else default.

Record InstrumentProfile := mkProfile {
  instrument_type : string;
  what_to_show_chain : list string;
  bar_size : string;
  use_rth : bool;
  duration : string
}.

Definition _PROFILES : list (string * InstrumentProfile) :=
  [ ("futures", mkProfile "futures" ["TRADES"] "1 month" true "2 Y");
    ("futures_daily", mkProfile "futures" ["TRADES"] "1 day" true "2 Y");
    ("fx", mkProfile "fx" ["MIDPOINT"; "BID"; "ASK"] "1 day" false "2 Y");
    ("bond", mkProfile "bond" ["MIDPOINT"; "BID"; "ASK"] "1 day" true "2 Y");
    ("option", mkProfile "option" ["MIDPOINT"; "BID"; "ASK"] "1 day" true "2 Y") ].

Fixpoint dict_get {A} (k : string) (d : list (string * A)) : option A :=
  match d with
  | [] => None
  | (k', v) :: rest => if String.eqb k' k then Some v else dict_get k rest
  end.

(** [get_profile(instrument_type)]. *)
Definition get_profile (instrument_type : string) : outcome InstrumentProfile :=
  let raw_instrument_type := PyStr.lower (PyStr.strip instrument_type) in
  match dict_get raw_instrument_type _PROFILES with
  | Some p => Ok p
  | None =>
      if str_in raw_instrument_type ["fx"; "forex"]
      then match dict_get "fx" _PROFILES with
           | Some p => Ok p
           | None => Raise (mkExn KeyError "fx")
           end
      else
        let normalized := coerce_instrument_type instrument_type "unknown" in
        let normalized :=
          if String.eqb normalized "fx_artifact" then "fx" else normalized in
        match dict_get normalized _PROFILES with
        | Some p => Ok p
        | None =>
            Raise (mkExn KeyError
                     ("No IBKR profile configured for instrument type '"
                      +:+ instrument_type +:+ "'"))
        end
  end.

(** ** ibkr/market_data.py: duration *)

(** [_compute_duration_str(start_dt, end_dt)]. The arguments are what
    [to_pydatetime()] gives, which is [NaT] for [NaT], and the date of
    [NaT] is [NaT]. Comparing [NaT] with a [datetime.date] raises
    [TypeError]; two [NaT] compare false, their years are NaN, and
    [pd.DateOffset(years=nan)] raises [ValueError]. *)
Definition _compute_duration_str (start_dt end_dt : stamp) : outcome string :=
  match start_dt, end_dt with
  | TS start_dt, TS end_dt =>
      let start_date := ts_date start_dt in
      let end_date := ts_date end_dt in
      if date_leb end_date start_date then Ok "1 Y"
      else
        let years := year end_date - year start_date in
        let anniversary := add_years start_date years in
        let years := if date_ltb anniversary end_date then years + 1 else years in
        let years := Z.max 1 years in
        Ok (pretty years +:+ " Y")
  | NaT, NaT => Raise (mkExn ValueError "cannot convert float NaN to integer")
  | _, _ => Raise (mkExn TypeError "Cannot compare NaT with datetime.date object")
  end.

(** [_duration_for_request(profile, start_ts, end_ts)]. *)
Definition _duration_for_request (profile : InstrumentProfile)
    (start_ts end_ts : stamp) : M world string :=
  if String.eqb (instrument_type profile) "futures"
  then now <- _utcnow ;; of_outcome (_compute_duration_str start_ts now)
  else of_outcome (_compute_duration_str start_ts end_ts).

(** ** ibkr/market_data.py: the per-request session *)

Definition disconnect_ib : M world unit := modify (log_event EvDisconnect).

(** [_connect_ib()]: every failure of [ib.connect] becomes an
    [IBKRConnectionError]. *)
Definition _connect_ib : M world unit :=
  try_except
    (gateway_call EvConnect gw_connect ;;; ret tt)
    (fun exc =>
       if isinstance exc ConnectionRefusedError
       then raise (mkExn IBKRConnectionError "IB Gateway not running")
       else raise (mkExn IBKRConnectionError
                     ("IBKR connect failed: " +:+ exn_msg exc))).

(** [next((row for row in qualified if row is not None), None)]. *)
Fixpoint first_not_none {A} (l : list (option A)) : option A :=
  match l with
  | [] => None
  | Some a :: _ => Some a
  | None :: rest => first_not_none rest
  end.

(** The [except Exception] clause of [_request_bars]: classification of a
    foreign exception by its text. *)
Definition classify_request_error (exc : exn) : exn :=
  let text := PyStr.lower (exn_msg exc) in
  if PyStr.contains "entitlement" text
     || PyStr.contains "market data permissions" text
     || PyStr.contains "permission" text
  then mkExn IBKREntitlementError (exn_msg exc)
  else if PyStr.contains "no security definition" text
          || PyStr.contains "unknown contract" text
          || PyStr.contains "includeexpired" text
  then mkExn IBKRContractError (exn_msg exc)
  else mkExn IBKRDataError (exn_msg exc).

(** [_request_bars(contract, profile=..., what_to_show=..., start_ts=...,
    end_ts=...)]. The request lock is held throughout; the model is
    sequential. *)
Definition _request_bars (contract : Contract) (profile : InstrumentProfile)
    (what_to_show : string) (start_ts end_ts : stamp) : M world (list Bar) :=
  _connect_ib ;;;
  try_finally
    (try_except
       (qualified <- gateway_call (EvQualify contract)
                       (fun g n => gw_qualifyContracts g n contract) ;;
        match qualified with
        | [] => raise (mkExn IBKRContractError "Unable to qualify IBKR contract")
        | _ =>
            match first_not_none qualified with
            | None => raise (mkExn IBKRContractError "Unable to qualify IBKR contract")
            | Some qualified_contract =>
                duration_str <- _duration_for_request profile start_ts end_ts ;;
                let req := mkHistReq qualified_contract duration_str
                             (bar_size profile) what_to_show (use_rth profile) in
                bars <- gateway_call (EvHistorical req)
                          (fun g n => gw_reqHistoricalData g n req) ;;
                match bars with
                | [] => raise (mkExn IBKRNoDataError "No historical bars returned")
                | _ => ret bars
                end
            end
        end)
       (fun exc =>
          if isinstance exc IBKRDataError then raise exc
          else raise (classify_request_error exc)))
    (log_event EvDisconnect).

(** ** ibkr/market_data.py: normalization *)

(** Comparison of two timestamps; [None] is the [TypeError] of comparing a
    naive with an aware one. *)
Definition ts_compare (a b : Timestamp) : option comparison :=
  match ts_tz a, ts_tz b with
  | None, None => Some (naive_compare a b)
  | Some oa, Some ob =>
      Some (naive_compare (utc_wall_clock a oa) (utc_wall_clock b ob))
  | _, _ => None
  end.

(** Timestamps non-decreasing along the rows (the index of one series
    has one time zone: wall-clock order is its order). *)
Fixpoint weakly_increasing (l : list (Timestamp * float)) : bool :=
  match l with
  | r :: ((r' :: _) as rest) => ts_leb (fst r) (fst r') && weakly_increasing rest
  | _ => true
  end.

(** [frame.sort_index()] sorts with NumPy's default [kind="quicksort"],
    which is not stable: the source does not determine the order in which
    rows of one instant come out. The development is parametric in the
    sort: any function that returns the rows rearranged, in non-decreasing
    order of time. *)
Class SortIndex := {
  sort_index : list (Timestamp * float) -> list (Timestamp * float);
  sort_index_perm : forall l, sort_index l ≡ₚ l;
  sort_index_ordered : forall l, weakly_increasing (sort_index l) = true
}.

(** Insertion of a row before the first row that is not earlier. *)
Fixpoint insert_row (r : Timestamp * float) (l : list (Timestamp * float))
  : list (Timestamp * float) :=
  match l with
  | [] => [r]
  | r' :: rest =>
      if ts_leb (fst r) (fst r') then r :: l else r' :: insert_row r rest
  end.

(** A stable sort by time: rows of one instant keep their order. It is
    the sort inside [resample], which uses [kind="mergesort"]. *)
Definition stable_sort (l : list (Timestamp * float)) : list (Timestamp * float) :=
  fold_right insert_row [] l.

Definition same_stamp (a b : Timestamp) : bool :=
  match naive_compare a b with Eq => true | _ => false end.

(** [series[~series.index.duplicated(keep="last")]]. *)
Fixpoint drop_duplicated_keep_last (l : list (Timestamp * float))
  : list (Timestamp * float) :=
  match l with
  | [] => []
  | r :: rest =>
      if existsb (fun r' => same_stamp (fst r) (fst r')) rest
      then drop_duplicated_keep_last rest
      else r :: drop_duplicated_keep_last rest
  end.

Definition same_month (a b : Timestamp) : bool :=
  (year (ts_date a) =? year (ts_date b)) && (month (ts_date a) =? month (ts_date b)).

Definition month_end_stamp (t : Timestamp) : Timestamp :=
  let d := ts_date t in
  mkTs (mkDate (year d) (month d) (days_in_month (year d) (month d))) 0 (ts_tz t).

(** [series.resample("ME").last()] on a time-sorted series, without the
    all-NaN rows of the months that have no observation (the [dropna]
    that follows removes them): one row per month, at the month end, with
    the last non-null value of the month. *)
Fixpoint resample_ME_last (l : list (Timestamp * float)) : list (Timestamp * float) :=
  match l with
  | [] => []
  | (t, v) :: rest =>
      match resample_ME_last rest with
      | (t', v') :: out =>
          if same_month t t'
          then (t', if PrimFloat.is_nan v' then v else v') :: out
          else (month_end_stamp t, v) :: (t', v') :: out
      | [] => [(month_end_stamp t, v)]
      end
  end.

(** [label >= bound] and [label <= bound] for one label of the index. A
    comparison with [NaT] is false; [None] is the [TypeError] of
    comparing a naive with an aware timestamp. *)
Definition label_ge (t : Timestamp) (bound : stamp) : option bool :=
  match bound with
  | NaT => Some false
  | TS b =>
      match ts_compare t b with
      | Some c => Some match c with Lt => false | _ => true end
      | None => None
      end
  end.

Definition label_le (t : Timestamp) (bound : stamp) : option bool :=
  match bound with
  | NaT => Some false
  | TS b =>
      match ts_compare t b with
      | Some c => Some match c with Gt => false | _ => true end
      | None => None
      end
  end.

(** [series[(series.index >= start_ts) & (series.index <= end_ts)]]. *)
Fixpoint clip (start_ts end_ts : stamp) (l : list (Timestamp * float))
  : outcome (list (Timestamp * float)) :=
  match l with
  | [] => Ok []
  | (t, v) :: rest =>
      match label_ge t start_ts, label_le t end_ts, clip start_ts end_ts rest with
      | Some ge, Some le, Ok out => Ok (if ge && le then (t, v) :: out else out)
      | _, _, Raise e => Raise e
      | _, _, _ =>
          Raise (mkExn TypeError "Cannot compare tz-naive and tz-aware timestamps")
      end
  end.

Definition bar_row (b : Bar) : option (Timestamp * float) :=
  match bar_date b, bar_close b with
  | Some ts, Some close => Some (ts, close)
  | _, _ => None
  end.

(** [_normalize_bars(symbol, bars, bar_size=..., start_ts=..., end_ts=...)]. *)
Definition _normalize_bars `{SortIndex} (symbol : string) (bars : list Bar)
    (bar_size : string) (start_ts end_ts : stamp) : outcome Series :=
  let rows := omap bar_row bars in
  match rows with
  | [] => Ok empty_series
  | _ =>
      let series := sort_index rows in
      let series := drop_duplicated_keep_last series in
      let series :=
        if PyStr.contains "month" (PyStr.lower bar_size)
        then resample_ME_last series else series in
      match clip start_ts end_ts series with
      | Raise e => Raise e
      | Ok series =>
          let series := List.filter (fun r => negb (PrimFloat.is_nan (snd r))) series in
          Ok (mkSeries (Some symbol) (map (fun r => (Some (fst r), snd r)) series))
      end
  end.

(** ** ibkr/market_data.py: fetch_series *)

(** A date argument of [fetch_series]: something that [pd.Timestamp]
    turns into a timestamp, something that it turns into [NaT] ([None],
    the empty text, ["NaT"], ["nan"], a NaN), or something on which it
    raises. *)
Inductive date_arg :=
  | DateValue (t : Timestamp)
  | DateNaT
  | DateUnparsable.

(** [pd.Timestamp(value)]. *)
Definition pd_Timestamp (value : date_arg) : outcome stamp :=
  match value with
  | DateValue t => Ok (TS t)
  | DateNaT => Ok NaT
  | DateUnparsable => Raise (mkExn ValueError "could not convert string to Timestamp")
  end.

(** [a > b] on two values of [pd.Timestamp(...)]: false when one of them
    is [NaT]; comparing a naive with an aware timestamp raises
    [TypeError]. *)
Definition stamp_gt (a b : stamp) : outcome bool :=
  match a, b with
  | TS a, TS b =>
      match ts_compare a b with
      | Some Gt => Ok true
      | Some _ => Ok false
      | None =>
          Raise (mkExn TypeError "Cannot compare tz-naive and tz-aware timestamps")
      end
  | _, _ => Ok false
  end.

Definition contract_identity := option (list (string * string)).

(** The Contract Resolver ([ibkr.contracts.resolve_contract]) is a
    collaborator of the fetch engine, which only looks at whether it
    returns a contract or raises; the development is parametric in it. *)
Class Resolver :=
  resolve_contract : string -> string -> contract_identity -> outcome Contract.

Section FetchSeries.
Context `{Md5} `{Resolver} `{SortIndex}.

(** The first loop of [fetch_series]: the cache-read pass. *)
Fixpoint cache_read_pass (sym : string) (resolved_profile : InstrumentProfile)
    (start_ts end_ts : stamp) (chain : list string)
  : M world (option Series) :=
  match chain with
  | [] => ret None
  | candidate :: rest =>
      cached <- get_cached sym (instrument_type resolved_profile) candidate
                  (bar_size resolved_profile) (use_rth resolved_profile)
                  start_ts end_ts None ;;
      match cached with
      | Some c =>
          if negb (series_empty c) then ret (Some (set_name sym c))
          else cache_read_pass sym resolved_profile start_ts end_ts rest
      | None => cache_read_pass sym resolved_profile start_ts end_ts rest
      end
  end.

(** The body of the [try] of the second loop, for one candidate: [None]
    is the [continue] on an empty normalized series. *)
Definition live_attempt (contract : Contract) (sym : string)
    (resolved_profile : InstrumentProfile) (start_ts end_ts : stamp)
    (candidate : string) : M world (option Series) :=
  bars <- _request_bars contract resolved_profile candidate start_ts end_ts ;;
  match _normalize_bars sym bars (bar_size resolved_profile) start_ts end_ts with
  | Raise e => raise e
  | Ok series =>
      if series_empty series then ret None
      else
        put_cache series sym (instrument_type resolved_profile) candidate
          (bar_size resolved_profile) (use_rth resolved_profile)
          start_ts end_ts ;;;
        ret (Some series)
  end.

(** What the [except] clauses of the second loop do with an exception,
    tried in the order of the source. *)
Inductive handler_action := Continue | ReturnEmpty.

Definition live_handler (e : exn) : handler_action :=
  if isinstance e IBKRNoDataError then Continue
  else if isinstance e IBKREntitlementError then Continue
  else if isinstance e IBKRContractError then ReturnEmpty
  else if isinstance e IBKRConnectionError then ReturnEmpty
  else Continue.

(** The second loop of [fetch_series]: the live-fetch pass. *)
Fixpoint live_fetch_pass (contract : Contract) (sym : string)
    (resolved_profile : InstrumentProfile) (start_ts end_ts : stamp)
    (chain : list string) : M world Series :=
  match chain with
  | [] => ret empty_series
  | candidate :: rest =>
      fun w =>
        match live_attempt contract sym resolved_profile start_ts end_ts
                candidate w with
        | (Ok (Some series), w') => (Ok series, w')
        | (Ok None, w') =>
            live_fetch_pass contract sym resolved_profile start_ts end_ts rest w'
        | (Raise e, w') =>
            match live_handler e with
            | Continue =>
                live_fetch_pass contract sym resolved_profile start_ts end_ts
                  rest w'
            | ReturnEmpty => (Ok empty_series, w')
            end
        end
  end.

(** [fetch_series(symbol, instrument_type, start_date, end_date,
    profile=None, what_to_show=None, contract_identity=None)]. *)
Definition fetch_series (symbol instrument_type_ : string)
    (start_date end_date : date_arg) (profile : option InstrumentProfile)
    (what_to_show : option string) (identity : contract_identity)
  : M world Series :=
  let sym := PyStr.upper (PyStr.strip symbol) in
  if negb (PyStr.truthy sym) then ret empty_series
  else
    match pd_Timestamp start_date, pd_Timestamp end_date with
    | Ok start_ts, Ok end_ts =>
        match stamp_gt start_ts end_ts with
        | Raise e => raise e
        | Ok true => ret empty_series
        | Ok false =>
            match (match profile with
                   | Some p => Ok p
                   | None => get_profile instrument_type_
                   end) with
            | Raise _ => ret empty_series
            | Ok resolved_profile =>
                let chain :=
                  match what_to_show with
                  | Some w =>
                      if PyStr.truthy w then [PyStr.upper (PyStr.strip w)]
                      else what_to_show_chain resolved_profile
                  | None => what_to_show_chain resolved_profile
                  end in
                match chain with
                | [] => ret empty_series
                | _ =>
                    match resolve_contract sym (instrument_type resolved_profile)
                            identity with
                    | Raise e =>
                        if isinstance e IBKRContractError then ret empty_series
                        else raise e
                    | Ok contract =>
                        cached <- cache_read_pass sym resolved_profile
                                    start_ts end_ts chain ;;
                        match cached with
                        | Some c => ret c
                        | None =>
                            live_fetch_pass contract sym resolved_profile
                              start_ts end_ts chain
                        end
                    end
                end
            end
        end
    | _, _ => ret empty_series
    end.

End FetchSeries.

(** ** ibkr/market_data.py: fetch_snapshot *)

(** [_as_float(value)]. *)
Definition _as_float (value : pyval) : option float :=
  match value with
  | PyNone => None
  | PyOther => None
  | PyFloat out =>
      if PrimFloat.is_nan out || PrimFloat.is_infinity out then None else Some out
  end.

(** [int(out)] for a finite float: truncation toward zero. *)
Definition int_of_float (f : float) : Z :=
  match Prim2SF f with
  | S754_finite s m e =>
      let v := if 0 <=? e then Zpos m * 2 ^ e else Zpos m / 2 ^ (- e) in
      if s then - v else v
  | _ => 0
  end.

(** [_as_int(value)]. *)
Definition _as_int (value : pyval) : option Z :=
  match _as_float value with
  | None => None
  | Some out => Some (int_of_float out)
  end.

(** [_value_for_option_side(ticker, right=..., call_attr=..., put_attr=...)],
    with the two attributes already read. *)
Definition _value_for_option_side (right : string) (call_value put_value : pyval)
  : option Z :=
  let prefer_put := String.eqb right "P" in
  let primary := if prefer_put then put_value else call_value in
  let secondary := if prefer_put then call_value else put_value in
  match _as_int primary with
  | Some v => Some v
  | None => _as_int secondary
  end.

(** The data dict of one contract. *)
Record snapshot_data := mkSnapshot {
  sd_bid : option float; sd_ask : option float; sd_last : option float;
  sd_mid : option float;
  sd_volume : option Z; sd_open_interest : option Z;
  sd_implied_vol : option float; sd_delta : option float;
  sd_gamma : option float; sd_theta : option float; sd_vega : option float
}.

(** One entry of the result: [{"error": msg}] or the data dict. *)
Inductive snapshot_entry :=
  | SnapError (msg : string)
  | SnapData (d : snapshot_data).

Definition is_Some_b {A} (o : option A) : bool :=
  match o with Some _ => true | None => false end.

(** [str(exc) or fallback]. *)
Definition str_or (e : exn) (fallback : string) : string :=
  if PyStr.truthy (exn_msg e) then exn_msg e else fallback.

(** The three dicts that the request phase fills, keyed by position. *)
Record snapshot_state := mkSnapState {
  pre_errors : gmap nat string;
  qualified_by_index : gmap nat Contract;
  tickers_by_index : gmap nat (option Ticker)
}.

Definition snapshot_state_empty : snapshot_state := mkSnapState ∅ ∅ ∅.

(** First loop of the request phase: qualification of each contract. *)
Fixpoint qualify_loop (idx : nat) (contracts : list Contract) (st : snapshot_state)
  : M world snapshot_state :=
  match contracts with
  | [] => ret st
  | contract :: rest =>
      st' <- try_except
               (qualified <- gateway_call (EvQualify contract)
                               (fun g n => gw_qualifyContracts g n contract) ;;
                match first_not_none qualified with
                | None =>
                    ret (mkSnapState
                           (<[idx := "unable to qualify contract"]> (pre_errors st))
                           (qualified_by_index st) (tickers_by_index st))
                | Some qualified_contract =>
                    ret (mkSnapState (pre_errors st)
                           (<[idx := qualified_contract]> (qualified_by_index st))
                           (tickers_by_index st))
                end)
               (fun exc =>
                  ret (mkSnapState
                         (<[idx := str_or exc "qualification failed"]> (pre_errors st))
                         (qualified_by_index st) (tickers_by_index st))) ;;
      qualify_loop (S idx) rest st'
  end.

(** Second loop: one snapshot request per qualified contract, in the
    order of insertion into [qualified_by_index], which is the order of
    the positions. *)
Fixpoint request_loop (indices : list nat) (st : snapshot_state)
  : M world snapshot_state :=
  match indices with
  | [] => ret st
  | idx :: rest =>
      match qualified_by_index st !! idx with
      | None => request_loop rest st
      | Some qualified_contract =>
          let sec_type := PyStr.upper (secType qualified_contract) in
          let generic_ticks := if String.eqb sec_type "OPT" then "100,101,106" else "" in
          st' <- try_except
                   (ticker <- gateway_call (EvMktData qualified_contract generic_ticks)
                                (fun g n => gw_reqMktData g n qualified_contract
                                              generic_ticks) ;;
                    ret (mkSnapState (pre_errors st) (qualified_by_index st)
                           (<[idx := ticker]> (tickers_by_index st))))
                   (fun exc =>
                      ret (mkSnapState
                             (<[idx := str_or exc "snapshot request failed"]>
                                (pre_errors st))
                             (qualified_by_index st) (tickers_by_index st))) ;;
          request_loop rest st'
      end
  end.

(** The result entry of one position, from the three dicts. *)
Definition snapshot_entry_of (st : snapshot_state) (idx : nat) (contract : Contract)
  : snapshot_entry :=
  match pre_errors st !! idx with
  | Some msg => SnapError msg
  | None =>
      match tickers_by_index st !! idx with
      | None | Some None => SnapError "timeout"
      | Some (Some ticker) =>
          let bid := _as_float (t_bid ticker) in
          let ask := _as_float (t_ask ticker) in
          let last := _as_float (t_last ticker) in
          let mid := match bid, ask with
                     | Some b, Some a => Some ((b + a) / 2)%float
                     | _, _ => None
                     end in
          let contract_for_fields :=
            default contract (qualified_by_index st !! idx) in
          let sec_type := PyStr.upper (secType contract_for_fields) in
          let right := PyStr.upper (right contract_for_fields) in
          let volume :=
            if String.eqb sec_type "OPT"
            then _value_for_option_side right (t_callVolume ticker) (t_putVolume ticker)
            else _as_int (t_volume ticker) in
          let open_interest :=
            if String.eqb sec_type "OPT"
            then _value_for_option_side right (t_callOpenInterest ticker)
                   (t_putOpenInterest ticker)
            else None in
          let greek (f : Greeks -> pyval) :=
            match t_modelGreeks ticker with
            | Some g => _as_float (f g)
            | None => None
            end in
          let implied_vol :=
            match greek g_impliedVol with
            | Some v => Some v
            | None => _as_float (t_impliedVolatility ticker)
            end in
          let delta := greek g_delta in
          let gamma := greek g_gamma in
          let theta := greek g_theta in
          let vega := greek g_vega in
          let has_data :=
            is_Some_b bid || is_Some_b ask || is_Some_b last
            || is_Some_b volume || is_Some_b open_interest
            || is_Some_b implied_vol || is_Some_b delta || is_Some_b gamma
            || is_Some_b theta || is_Some_b vega in
          if negb has_data && negb (is_Some_b (t_time ticker))
          then SnapError "timeout"
          else SnapData (mkSnapshot bid ask last mid volume open_interest
                           implied_vol delta gamma theta vega)
      end
  end.

(** The body of the [try] of [fetch_snapshot] after the connection: the
    two loops and the bounded wait. *)
Definition snapshot_requests (contracts : list Contract) (timeout_seconds : float)
  : M world snapshot_state :=
  st <- qualify_loop 0 contracts snapshot_state_empty ;;
  st <- request_loop (seq 0 (length contracts)) st ;;
  (if (0 <? timeout_seconds)%float
   then gateway_call EvGatewaySleep gw_sleep
   else ret tt) ;;;
  ret st.

(** The message of the two outer [except] clauses of [fetch_snapshot]:
    [str(exc)] for a connection error, [str(exc) or "snapshot request
    failed"] otherwise. *)
Definition batch_error_message (exc : exn) : string :=
  if isinstance exc IBKRConnectionError then exn_msg exc
  else str_or exc "snapshot request failed".

(** [fetch_snapshot(contracts, timeout)]. The shared lock is held during
    the request phase; the model is sequential. *)
Definition fetch_snapshot (contracts : list Contract) (timeout : float)
  : M world (list snapshot_entry) :=
  match contracts with
  | [] => ret []
  | _ =>
      let timeout_seconds := if (0 <? timeout)%float then timeout else 0%float in
      fun w =>
        match _connect_ib w with
        | (Raise exc, w') =>
            (* [ib] is still [None]: nothing to disconnect *)
            (Ok (map (fun _ => SnapError (batch_error_message exc)) contracts), w')
        | (Ok _, w1) =>
            match try_finally (snapshot_requests contracts timeout_seconds)
                    (log_event EvDisconnect) w1 with
            | (Raise exc, w') =>
                (Ok (map (fun _ => SnapError (batch_error_message exc)) contracts), w')
            | (Ok st, w') =>
                (Ok (imap (snapshot_entry_of st) contracts), w')
            end
        end
  end.

(** ** ibkr/connection.py *)

(** The fields of the singleton that its methods use. A session object
    ([ib_async.IB]) is named by a number; [None] is Python's [None]. *)
Record IBKRConnectionManager := mkManager {
  _ib : option nat;
  _managed_accounts : list string;
  _reconnect_delay : Z;
  _max_reconnect_attempts : nat;
  _reconnecting : bool;
  _manual_disconnect : bool
}.

(** [__init__]. *)
Definition manager_init : IBKRConnectionManager :=
  mkManager None [] 5 3 false false.

(** What the manager observes of a session object. *)
Record ib_object := mkIB {
  isConnected : bool;
  disconnect_hook : bool  (** [_on_disconnect] is in [ib.disconnectedEvent] *)
}.

Record conn_state := mkConn {
  self : IBKRConnectionManager;
  ib_objects : gmap nat ib_object;
  conn_world : world
}.

Definition set_self (f : IBKRConnectionManager -> IBKRConnectionManager)
  : M conn_state unit :=
  modify (fun s => mkConn (f (self s)) (ib_objects s) (conn_world s)).

Definition set_ib_object (ib : nat) (o : ib_object) : M conn_state unit :=
  modify (fun s => mkConn (self s) (<[ib := o]> (ib_objects s)) (conn_world s)).

Definition lift_world {A} (m : M world A) : M conn_state A :=
  fun s => let '(r, w) := m (conn_world s) in (r, mkConn (self s) (ib_objects s) w).

Definition with_ib (v : option nat) (m : IBKRConnectionManager) :=
  mkManager v (_managed_accounts m) (_reconnect_delay m)
    (_max_reconnect_attempts m) (_reconnecting m) (_manual_disconnect m).

Definition with_accounts (v : list string) (m : IBKRConnectionManager) :=
  mkManager (_ib m) v (_reconnect_delay m)
    (_max_reconnect_attempts m) (_reconnecting m) (_manual_disconnect m).

Definition with_reconnecting (v : bool) (m : IBKRConnectionManager) :=
  mkManager (_ib m) (_managed_accounts m) (_reconnect_delay m)
    (_max_reconnect_attempts m) v (_manual_disconnect m).

Definition with_manual_disconnect (v : bool) (m : IBKRConnectionManager) :=
  mkManager (_ib m) (_managed_accounts m) (_reconnect_delay m)
    (_max_reconnect_attempts m) (_reconnecting m) v.

(** [self._ib is not None and self._ib.isConnected()]. *)
Definition is_connected (s : conn_state) : bool :=
  match _ib (self s) with
  | Some ib =>
      match ib_objects s !! ib with
      | Some o => isConnected o
      | None => false
      end
  | None => false
  end.

(** [connect()]. The new session object is named by the number of the
    gateway call that tries to open it. *)
Definition connect : M conn_state nat :=
  fun s =>
    if is_connected s then (Ok (default 0%nat (_ib (self s))), s)
    else
      (ib <- gets (fun s => w_calls (conn_world s)) ;;
       set_ib_object ib (mkIB false true) ;;;
       accounts <- try_except
                     (lift_world (gateway_call EvConnect gw_connect))
                     (fun exc =>
                        set_ib_object ib (mkIB false false) ;;;
                        lift_world disconnect_ib ;;;
                        raise exc) ;;
       set_ib_object ib (mkIB true true) ;;;
       set_self (with_ib (Some ib)) ;;;
       set_self (with_accounts accounts) ;;;
       ret ib) s.

(** [disconnect()]. *)
Definition disconnect : M conn_state unit :=
  fun s =>
    match _ib (self s) with
    | None => (Ok tt, s)
    | Some ib =>
        (set_self (with_manual_disconnect true) ;;;
         set_ib_object ib (mkIB false false) ;;;
         lift_world disconnect_ib ;;;
         set_self (with_ib None) ;;;
         set_self (with_accounts []) ;;;
         set_self (with_manual_disconnect false)) s
    end.

(** [ensure_connected()]. *)
Definition ensure_connected : M conn_state nat :=
  fun s =>
    if is_connected s then (Ok (default 0%nat (_ib (self s))), s)
    else connect s.

(** [time.sleep(delay)]. *)
Definition time_sleep (seconds : Z) : M world unit :=
  modify (fun w =>
            set_clock (w_clock w + seconds * NANOS_PER_SECOND)
                      (log_event (EvSleep seconds) w)).

(** The [for] loop of [_reconnect], over the remaining attempt numbers. *)
Fixpoint reconnect_attempts (attempts : list nat) : M conn_state unit :=
  match attempts with
  | [] => ret tt  (* the terminal failure is logged *)
  | attempt :: rest =>
      delay <- gets (fun s => _reconnect_delay (self s) * Z.of_nat attempt) ;;
      lift_world (time_sleep delay) ;;;
      connected <- try_except (connect ;;; ret true) (fun _ => ret false) ;;
      if (connected : bool) then ret tt else reconnect_attempts rest
  end.

(** [_reconnect()]: [range(1, self._max_reconnect_attempts + 1)]. *)
Definition _reconnect : M conn_state unit :=
  fun s =>
    let '(r, s') :=
      reconnect_attempts (seq 1 (_max_reconnect_attempts (self s))) s in
    let '(_, s'') := set_self (with_reconnecting false) s' in
    (r, s'').

(** [_on_disconnect()]; the result tells whether the reconnect thread was
    started. *)
Definition _on_disconnect : M conn_state bool :=
  fun s =>
    if _manual_disconnect (self s) then (Ok false, s)
    else
      (set_self (with_ib None) ;;;
       set_self (with_accounts []) ;;;
       reconnecting <- gets (fun s => _reconnecting (self s)) ;;
       if (reconnecting : bool) then ret false
       else
         set_self (with_reconnecting true) ;;;
         lift_world (modify (log_event EvSpawnReconnect)) ;;;
         ret true) s.

(** The gateway drops the manager's session: the session object fires its
    [disconnectedEvent], and the reconnect thread, when one is started,
    runs to its end (no other thread touches the manager meanwhile). *)
Definition unsolicited_disconnect : M conn_state unit :=
  fun s =>
    match _ib (self s) with
    | None => (Ok tt, s)
    | Some ib =>
        let hooked := match ib_objects s !! ib with
                      | Some o => disconnect_hook o
                      | None => false
                      end in
        (set_ib_object ib (mkIB false hooked) ;;;
         if hooked
         then (started <- _on_disconnect ;;
               if (started : bool) then _reconnect else ret tt)
         else ret tt) s
    end.

(** The connect attempts in a log. *)
Definition connect_attempts (log : list event) : nat :=
  length (List.filter (fun ev => match ev with EvConnect => true | _ => false end) log).

(** ** A sort for concrete runs

    The stable insertion sort is a [SortIndex]: it returns the rows
    rearranged, in non-decreasing order of time. *)

Lemma naive_leb_spec (a b : Timestamp) :
  ts_leb a b = true <->
  year (ts_date a) < year (ts_date b)
  \/ (year (ts_date a) = year (ts_date b)
      /\ (month (ts_date a) < month (ts_date b)
          \/ (month (ts_date a) = month (ts_date b)
              /\ (day (ts_date a) < day (ts_date b)
                  \/ (day (ts_date a) = day (ts_date b)
                      /\ ts_nanos a <= ts_nanos b))))).
Proof.
  unfold ts_leb, naive_compare, date_compare.
  destruct (Z.compare_spec (year (ts_date a)) (year (ts_date b)));
    destruct (Z.compare_spec (month (ts_date a)) (month (ts_date b)));
    destruct (Z.compare_spec (day (ts_date a)) (day (ts_date b)));
    destruct (Z.compare_spec (ts_nanos a) (ts_nanos b)); split; (done || lia).
Qed.

Lemma naive_ltb_spec (a b : Timestamp) : ts_ltb a b = negb (ts_leb b a).
Proof.
  unfold ts_ltb, ts_leb, naive_compare, date_compare.
  destruct (Z.compare_spec (year (ts_date a)) (year (ts_date b)));
    destruct (Z.compare_spec (year (ts_date b)) (year (ts_date a))); try lia; try done;
    destruct (Z.compare_spec (month (ts_date a)) (month (ts_date b)));
    destruct (Z.compare_spec (month (ts_date b)) (month (ts_date a))); try lia; try done;
    destruct (Z.compare_spec (day (ts_date a)) (day (ts_date b)));
    destruct (Z.compare_spec (day (ts_date b)) (day (ts_date a))); try lia; try done;
    destruct (Z.compare_spec (ts_nanos a) (ts_nanos b));
    destruct (Z.compare_spec (ts_nanos b) (ts_nanos a)); try lia; done.
Qed.

Lemma ts_ltb_leb (a b : Timestamp) : ts_ltb a b = true -> ts_leb a b = true.
Proof.
  rewrite naive_ltb_spec, negb_true_iff. intros Hba.
  apply naive_leb_spec. apply not_true_iff_false in Hba.
  rewrite naive_leb_spec in Hba. lia.
Qed.

Lemma ts_leb_total (a b : Timestamp) : ts_leb a b = false -> ts_leb b a = true.
Proof. intros Hab. apply ts_ltb_leb. by rewrite naive_ltb_spec, Hab. Qed.

Lemma ts_leb_trans (a b c : Timestamp) :
  ts_leb a b = true -> ts_leb b c = true -> ts_leb a c = true.
Proof. rewrite !naive_leb_spec. lia. Qed.

Lemma weakly_increasing_tail (r : Timestamp * float) (l : list (Timestamp * float)) :
  weakly_increasing (r :: l) = true ->
  weakly_increasing l = true /\ Forall (fun r' => ts_leb (fst r) (fst r') = true) l.
Proof.
  revert r. induction l as [|r' l IH]; intros r; simpl; [done|].
  intros [Hle Hrest]%andb_prop. split; [exact Hrest|].
  constructor; [exact Hle|].
  destruct (IH r' Hrest) as [_ Hall].
  eapply Forall_impl; [exact Hall|]. simpl. intros x Hx.
  by eapply ts_leb_trans.
Qed.

Lemma weakly_increasing_intro (r : Timestamp * float) (l : list (Timestamp * float)) :
  Forall (fun x => ts_leb (fst r) (fst x) = true) l ->
  weakly_increasing l = true ->
  weakly_increasing (r :: l) = true.
Proof.
  destruct l as [|x l]; [done|]. intros Hall Hl.
  inversion Hall as [|? ? Hx _]; subst.
  change (ts_leb (fst r) (fst x) && weakly_increasing (x :: l) = true).
  by rewrite Hx, Hl.
Qed.

Lemma insert_row_elem (r x : Timestamp * float) (l : list (Timestamp * float)) :
  In x (insert_row r l) -> x = r \/ In x l.
Proof.
  induction l as [|a l IH]; simpl.
  - intros [<-|[]]. by left.
  - destruct (ts_leb (fst r) (fst a)); simpl.
    + intros [<-|[<-|Hin]]; [by left | right; by left | right; by right].
    + intros [<-|Hin]; [right; by left|].
      destruct (IH Hin) as [->|Hl]; [by left | right; by right].
Qed.

Lemma insert_row_weakly (r : Timestamp * float) (l : list (Timestamp * float)) :
  weakly_increasing l = true -> weakly_increasing (insert_row r l) = true.
Proof.
  induction l as [|a l IH]; [done|]. intros Hinc.
  destruct (weakly_increasing_tail a l Hinc) as [Hl Hall].
  cbn [insert_row]. destruct (ts_leb (fst r) (fst a)) eqn:Hra.
  - change (ts_leb (fst r) (fst a) && weakly_increasing (a :: l) = true).
    by rewrite Hra, Hinc.
  - apply weakly_increasing_intro; [|by apply IH].
    apply Forall_forall. intros x Hx%list_elem_of_In.
    destruct (insert_row_elem _ _ _ Hx) as [->|Hin].
    + by apply ts_leb_total.
    + rewrite Forall_forall in Hall. apply Hall. by apply list_elem_of_In.
Qed.

Lemma stable_sort_weakly (l : list (Timestamp * float)) :
  weakly_increasing (stable_sort l) = true.
Proof.
  unfold stable_sort. induction l as [|r l IH]; [done|].
  simpl. by apply insert_row_weakly.
Qed.

Lemma insert_row_perm (r : Timestamp * float) (l : list (Timestamp * float)) :
  insert_row r l ≡ₚ r :: l.
Proof.
  induction l as [|a l IH]; [done|]. simpl.
  destruct (ts_leb (fst r) (fst a)); [done|].
  rewrite IH. apply Permutation_swap.
Qed.

Lemma stable_sort_perm (l : list (Timestamp * float)) : stable_sort l ≡ₚ l.
Proof.
  unfold stable_sort. induction l as [|r l IH]; [done|].
  simpl. by rewrite insert_row_perm, IH.
Qed.

(** [frame.sort_index()] for concrete runs: the stable sort. *)
Definition sort_index_stable : SortIndex :=
  {| sort_index := stable_sort;
     sort_index_perm := stable_sort_perm;
     sort_index_ordered := stable_sort_weakly |}.

(** * Specification-side notions

    Predicates and reference functions in which the properties below are
    stated. *)

(** Two date arguments fall on the same calendar day once normalized to
    naive UTC. *)
Definition same_utc_day (a b : Timestamp) : Prop :=
  ts_date (naive_utc a) = ts_date (naive_utc b).


(** The number of years of the specification: the difference of the
    calendar years of the anchor and of the start, plus one when the
    anchor is strictly after that anniversary of the start. *)
Definition spec_years (start_date anchor_date : date) : Z :=
  let y := year anchor_date - year start_date in
  if date_ltb (add_years start_date y) anchor_date then y + 1 else y.


(** The anchor of the duration: now for futures, the requested end
    otherwise. *)
Definition duration_anchor (profile : InstrumentProfile) (end_ts : Timestamp)
    (w : world) : Timestamp :=
  if String.eqb (instrument_type profile) "futures"
  then mkTs (ts_date (utc_of_epoch (w_clock w)))
            (ts_nanos (utc_of_epoch (w_clock w)) / 1000 * 1000) None
  else end_ts.


(** Removal of a file from the cache directory, with its log entry. *)
Definition unlinked (path : string) (w : world) : world :=
  set_fs (delete path (w_fs w)) (log_event (EvCacheUnlink path) w).


(** What [_safe_read] does on a file, by the content of the file. *)
Definition safe_read_of (path : string) (c : file_content) (w : world)
  : outcome (option Series) * world :=
  let w1 := log_event (EvCacheRead path) w in
  match c with
  | Unreadable e =>
      if read_error_caught e then (Ok None, unlinked path w1) else (Raise e, w1)
  | Parquet fr =>
      if frame_empty fr then (Ok (Some empty_series), w1)
      else
        match frame_column "value" (fr_columns fr) with
        | None => (Ok None, unlinked path w1)
        | Some cells =>
            match astype_float (List.filter
                                  (fun r => match fst r with
                                            | Some _ => true
                                            | None => false
                                            end)
                                  (zip (fr_index fr) cells)) with
            | Ok rows => (Ok (Some (mkSeries (Some "value") rows)), w1)
            | Raise e => (Raise e, w1)
            end
      end
  end.


(** The [now] that [get_cached] works with: the keyword argument when it
    is given, else [datetime.now(UTC)] at the instant of the clock. *)
Definition effective_now (now : option Timestamp) (clock : Z) : Timestamp :=
  match now with
  | Some t => t
  | None => mkTs (ts_date (utc_of_epoch clock))
                 (ts_nanos (utc_of_epoch clock) / 1000 * 1000) (Some 0)
  end.

(** The TTL that [get_cached] applies. *)
Definition applicable_ttl (start_date end_date : stamp) (now : option Timestamp)
    (clock : Z) : option Z :=
  if _includes_current_month start_date end_date (effective_now now clock)
  then Some CURRENT_MONTH_TTL_HOURS else None.


(** ** Fixtures for concrete runs *)

(** A fingerprint function for concrete runs: the identity. *)
Definition md5_plain : Md5 := fun s => s.

(** A gateway that refuses every connection and answers nothing. *)
Definition gateway_down : gateway :=
  mkGateway
    (fun _ => Raise (mkExn ConnectionRefusedError "Connection refused"))
    (fun _ _ => Ok [])
    (fun _ _ => Ok [])
    (fun _ _ _ => Ok None)
    (fun _ => Ok tt).

(** 2024-01-15 00:00:00 UTC and one hour, in nanoseconds. *)
Definition t_2024_01_15 : Z := 19737 * NANOS_PER_DAY.

Definition world_at (clock : Z) (fs : gmap string file) (g : gateway) : world :=
  mkWorld fs clock g 0 [].

(** The key fields of a request for ES futures, monthly bars, over the
    first half of 2023, and the name of its cache file under
    [md5_plain]. *)
Definition es_path : string :=
  @cache_file_name md5_plain "ES" "futures" "TRADES" "1 month" true
    (mkTs (mkDate 2023 1 1) 0 None) (mkTs (mkDate 2023 6 30) 0 None).

Definition es_get (now : option Timestamp) : M world (option Series) :=
  @get_cached md5_plain "ES" "futures" "TRADES" "1 month" true
    (mkTs (mkDate 2023 1 1) 0 None) (mkTs (mkDate 2023 6 30) 0 None) now.

(** A file content that fails structural deserialization in the way
    [_safe_read] detects: the read raises one of the errors it catches
    (garbage bytes do), or the frame has rows and columns but no value
    column. *)
Definition structurally_invalid (c : file_content) : bool :=
  match c with
  | Unreadable e => read_error_caught e
  | Parquet fr =>
      negb (frame_empty fr)
      && negb (is_Some_b (frame_column "value" (fr_columns fr)))
  end.

(** A readable frame that has no value column. *)
Definition missing_value_column (c : file_content) : bool :=
  match c with
  | Unreadable _ => false
  | Parquet fr => negb (is_Some_b (frame_column "value" (fr_columns fr)))
  end.

(** What pyarrow raises on bytes that are not a parquet file. *)
Definition garbage_bytes : file_content :=
  Unreadable (mkExn ValueError "Parquet magic bytes not found in footer").

(** The window of a request overlaps the calendar month that contains
    [now]: some instant of that month lies between the two bounds (taken
    in either order), everything in naive UTC. *)
Definition window_overlaps_current_month (start_date end_date now : Timestamp) : Prop :=
  exists t : Timestamp,
    ts_tz t = None /\ valid_ts t = true
    /\ same_month t (naive_utc now) = true
    /\ (ts_leb (naive_utc start_date) t && ts_leb t (naive_utc end_date)
        || ts_leb (naive_utc end_date) t && ts_leb t (naive_utc start_date))
       = true.

(** A request for EURUSD whose window starts at noon of 31 January 2024
    and ends on 10 February 2024. *)
Definition late_start : Timestamp :=
  mkTs (mkDate 2024 1 31) (12 * NANOS_PER_HOUR) None.
Definition late_end : Timestamp := mkTs (mkDate 2024 2 10) 0 None.

Definition late_path : string :=
  @cache_file_name md5_plain "EURUSD" "fx" "MIDPOINT" "1 day" false
    late_start late_end.

Definition late_get : M world (option Series) :=
  @get_cached md5_plain "EURUSD" "fx" "MIDPOINT" "1 day" false
    late_start late_end None.

(** A stored frame with one row, of 1 February 2024. *)
Definition one_row_file (mtime : Z) : file :=
  mkFile mtime
    (Parquet (mkFrame [Some (mkTs (mkDate 2024 2 1) 0 None)]
                      [("value", [CNum 1.25%float])])).

(** The rows of a series that have a valid timestamp. *)
Definition valid_rows (rows : list (index_cell * float)) : list (Timestamp * float) :=
  omap (fun r => match fst r with
                 | Some t => Some (t, snd r)
                 | None => None
                 end) rows.

(** The non-null, de-duplicated (last wins), time-sorted projection of a
    series. *)
Definition spec_projection (s : Series) : list (index_cell * float) :=
  map (fun r => (Some (fst r), snd r))
      (drop_duplicated_keep_last
         (stable_sort (valid_rows (List.filter value_notna (s_rows s))))).

(** What [put_cache] keeps of a series: the rows with a non-null value
    and a valid timestamp, in their order. *)
Definition stored_rows (s : Series) : list (index_cell * float) :=
  List.filter index_notna (List.filter value_notna (s_rows s)).

(** Timestamps strictly increasing along the rows. *)
Fixpoint strictly_increasing (l : list (Timestamp * float)) : bool :=
  match l with
  | r :: ((r' :: _) as rest) => ts_ltb (fst r) (fst r') && strictly_increasing rest
  | _ => true
  end.

(** A series whose two rows are out of time order. *)
Definition unsorted_series : Series :=
  mkSeries (Some "ES")
    [ (Some (mkTs (mkDate 2023 2 28) 0 None), 2%float);
      (Some (mkTs (mkDate 2023 1 31) 0 None), 1%float) ].

Definition es_put (s : Series) : M world (option string) :=
  @put_cache md5_plain s "ES" "futures" "TRADES" "1 month" true
    (mkTs (mkDate 2023 1 1) 0 None) (mkTs (mkDate 2023 6 30) 0 None).

(** ** Requests *)

(** A request that passes input validation, profile lookup and contract
    resolution, with what these steps produce. *)
Record plan := mkPlan {
  pl_sym : string;
  pl_start : stamp;
  pl_end : stamp;
  pl_profile : InstrumentProfile;
  pl_chain : list string;
  pl_contract : Contract
}.

(** The date range of a request is inverted: the two bounds compare (both
    naive or both aware) and the start is strictly after the end. *)
Definition inverted_range (start_ts end_ts : Timestamp) : Prop :=
  ts_compare start_ts end_ts = Some Gt.

(** The request is accepted with the given plan: the symbol is not blank,
    [pd.Timestamp] returns on both dates, the test for a start after the
    end returns false, a profile is given or found, the candidate chain
    is not empty and the contract resolves. *)
Definition accepted `{Resolver} (symbol instrument_type_ : string)
    (start_date end_date : date_arg) (profile : option InstrumentProfile)
    (what_to_show : option string) (identity : contract_identity) (p : plan) : Prop :=
  pl_sym p = PyStr.upper (PyStr.strip symbol)
  /\ PyStr.truthy (pl_sym p) = true
  /\ pd_Timestamp start_date = Ok (pl_start p)
  /\ pd_Timestamp end_date = Ok (pl_end p)
  /\ stamp_gt (pl_start p) (pl_end p) = Ok false
  /\ match profile with
     | Some given => given = pl_profile p
     | None => get_profile instrument_type_ = Ok (pl_profile p)
     end
  /\ pl_chain p
     = match what_to_show with
       | Some w_ =>
           if PyStr.truthy w_ then [PyStr.upper (PyStr.strip w_)]
           else what_to_show_chain (pl_profile p)
       | None => what_to_show_chain (pl_profile p)
       end
  /\ pl_chain p <> []
  /\ resolve_contract (pl_sym p) (instrument_type (pl_profile p)) identity
     = Ok (pl_contract p).

(** Events of the gateway and events of the cache directory. *)
Definition is_gateway_event (ev : event) : bool :=
  match ev with
  | EvConnect | EvQualify _ | EvHistorical _ | EvMktData _ _
  | EvGatewaySleep | EvDisconnect => true
  | _ => false
  end.

Definition is_cache_event (ev : event) : bool :=
  match ev with
  | EvCacheStat _ | EvCacheRead _ | EvCacheUnlink _ | EvCacheWrite _ => true
  | _ => false
  end.

(** A resolver for concrete runs: every symbol resolves. *)
Definition resolver_any : Resolver :=
  fun sym _ _ => Ok (mkContract sym "CASH" "").

(** The cache lookup of one candidate of an accepted request, as the
    cache-read pass makes it. *)
Definition cache_lookup `{Md5} (p : plan) (candidate : string)
  : M world (option Series) :=
  get_cached (pl_sym p) (instrument_type (pl_profile p)) candidate
    (bar_size (pl_profile p)) (use_rth (pl_profile p)) (pl_start p) (pl_end p) None.

Definition candidate_path `{Md5} (p : plan) (candidate : string) : string :=
  cache_file_name (pl_sym p) (instrument_type (pl_profile p)) candidate
    (bar_size (pl_profile p)) (use_rth (pl_profile p)) (pl_start p) (pl_end p).

(** The candidate has a fresh non-empty cache hit in [w]: its lookup
    returns the series [srs], which is not empty. *)
Definition fresh_hit `{Md5} (p : plan) (candidate : string) (w : world)
    (srs : Series) : Prop :=
  fst (cache_lookup p candidate w) = Ok (Some srs) /\ series_empty srs = false.

(** The candidate has no hit in [w]: its lookup returns absent (no file,
    a stale file, a corrupt file that is deleted) or an empty series. *)
Definition cache_miss `{Md5} (p : plan) (candidate : string) (w : world) : Prop :=
  fst (cache_lookup p candidate w) = Ok None
  \/ exists srs, fst (cache_lookup p candidate w) = Ok (Some srs)
                 /\ series_empty srs = true.

(** [w'] is [w] after cache activity only: same clock, gateway and number
    of gateway calls, and a log extended by cache events. *)
Definition cache_activity_only (w w' : world) : Prop :=
  w_clock w' = w_clock w /\ w_gateway w' = w_gateway w /\ w_calls w' = w_calls w
  /\ exists evs, w_log w' = (w_log w ++ evs)%list /\ forallb is_cache_event evs = true.

(** A request for EURUSD over the first half of 2023 ([fx] profile, chain
    MIDPOINT, BID, ASK), its plan, and the cache file of a candidate. *)
Definition fx_start : Timestamp := mkTs (mkDate 2023 1 1) 0 None.
Definition fx_end : Timestamp := mkTs (mkDate 2023 6 30) 0 None.

Definition fx_plan : plan :=
  mkPlan "EURUSD" fx_start fx_end
    (mkProfile "fx" ["MIDPOINT"; "BID"; "ASK"] "1 day" false "2 Y")
    ["MIDPOINT"; "BID"; "ASK"] (mkContract "EURUSD" "CASH" "").

Definition fx_fetch : M world Series :=
  @fetch_series md5_plain resolver_any sort_index_stable " eurusd" "FX"
    (DateValue fx_start) (DateValue fx_end) None None None.

Definition fx_path (candidate : string) : string :=
  @candidate_path md5_plain fx_plan candidate.

(** A stored frame with one row of 2 January 2023, and a frame whose
    value column holds text. *)
Definition fx_row : index_cell * float :=
  (Some (mkTs (mkDate 2023 1 2) 0 None), 1.25%float).

Definition good_entry (mtime : Z) : file :=
  mkFile mtime (Parquet (mkFrame [fst fx_row] [("value", [CNum (snd fx_row)])])).

Definition text_entry (mtime : Z) : file :=
  mkFile mtime (Parquet (mkFrame [fst fx_row] [("value", [CNonNumeric])])).

(** [w] is [w0] after some lookups of the request that missed: cache
    activity only, and every file that is gone belonged to a candidate
    whose lookup in [w0] returns absent. *)
Definition after_misses `{Md5} (p : plan) (w0 w : world) : Prop :=
  cache_activity_only w0 w
  /\ forall q,
       w_fs w !! q = w_fs w0 !! q
       \/ (w_fs w !! q = None
           /\ forall c, candidate_path p c = q -> fst (cache_lookup p c w0) = Ok None).

(** The live attempt for one candidate of an accepted request, and the
    live-fetch pass over a list of candidates. *)
Definition plan_attempt `{Md5} `{SortIndex} (p : plan) (candidate : string)
  : M world (option Series) :=
  live_attempt (pl_contract p) (pl_sym p) (pl_profile p) (pl_start p) (pl_end p)
    candidate.

Definition plan_live `{Md5} `{SortIndex} (p : plan) (chain : list string) : M world Series :=
  live_fetch_pass (pl_contract p) (pl_sym p) (pl_profile p) (pl_start p) (pl_end p)
    chain.




(** A gateway that accepts the first session, qualifies the contract,
    has no bars for it, and refuses every later connection. *)
Definition gateway_no_data_then_down : gateway :=
  mkGateway
    (fun n => if (n =? 0)%nat then Ok ["DU123"]
              else Raise (mkExn ConnectionRefusedError "Connection refused"))
    (fun _ c => Ok [Some c])
    (fun _ _ => Ok [])
    (fun _ _ _ => Ok None)
    (fun _ => Ok tt).


(** ** Reconnect loop *)

(** The events of one reconnect attempt: the backoff sleep, the connect,
    and, when the connect fails, the teardown of the partial session. *)
Definition attempt_events (delay : Z) (attempt : nat) (succeeds : bool) : list event :=
  [EvSleep (delay * Z.of_nat attempt); EvConnect]
  ++ (if succeeds then [] else [EvDisconnect]).

(** The state after a failed reconnect attempt. *)
Definition failed_attempt (s : conn_state) (attempt : nat) : conn_state :=
  let w := conn_world s in
  let delay := _reconnect_delay (self s) * Z.of_nat attempt in
  mkConn (self s)
    (<[w_calls w := mkIB false false]> (<[w_calls w := mkIB false true]> (ib_objects s)))
    (mkWorld (w_fs w) (w_clock w + delay * NANOS_PER_SECOND) (w_gateway w)
       (S (w_calls w))
       (w_log w ++ attempt_events (_reconnect_delay (self s)) attempt false)).

(** The state after a reconnect attempt that succeeds. *)
Definition succeeded_attempt (s : conn_state) (attempt : nat) (accounts : list string)
  : conn_state :=
  let w := conn_world s in
  let delay := _reconnect_delay (self s) * Z.of_nat attempt in
  mkConn (with_accounts accounts (with_ib (Some (w_calls w)) (self s)))
    (<[w_calls w := mkIB true true]> (<[w_calls w := mkIB false true]> (ib_objects s)))
    (mkWorld (w_fs w) (w_clock w + delay * NANOS_PER_SECOND) (w_gateway w)
       (S (w_calls w))
       (w_log w ++ attempt_events (_reconnect_delay (self s)) attempt true)).

Definition is_raise {A} (r : outcome A) : bool :=
  match r with Raise _ => true | Ok _ => false end.

(** A connected manager as [__init__] and a first [connect] leave it, on
    a gateway that refuses every further connection. *)
Definition connected_then_down : conn_state :=
  mkConn (mkManager (Some 0%nat) ["DU123"] 5 3 false false)
         {[ 0%nat := mkIB true true ]}
         (mkWorld ∅ t_2024_01_15 gateway_down 1 [EvConnect]).

(** ** Snapshot *)

(** A gateway that accepts the session; the contract "BAD" does not
    qualify, every other one does and gets a ticker with a bid of 1.5 and
    an ask of 2.5. *)
Definition quote_ticker : Ticker :=
  mkTicker (PyFloat 1.5) (PyFloat 2.5) PyNone (PyFloat 100) PyNone PyNone PyNone
    PyNone PyNone None None.

Definition gateway_quotes : gateway :=
  mkGateway
    (fun _ => Ok ["DU123"])
    (fun _ c => if String.eqb (c_id c) "BAD" then Ok [] else Ok [Some c])
    (fun _ _ => Ok [])
    (fun _ _ _ => Ok (Some quote_ticker))
    (fun _ => Ok tt).

(** What the qualification of [contract] gives when it is gateway call
    number [n]: the message recorded in [pre_errors], or the qualified
    contract. *)
Definition qualification (g : gateway) (n : nat) (contract : Contract)
  : string + Contract :=
  match gw_qualifyContracts g n contract with
  | Raise exc => inl (str_or exc "qualification failed")
  | Ok qualified =>
      match first_not_none qualified with
      | Some qualified_contract => inr qualified_contract
      | None => inl "unable to qualify contract"
      end
  end.

(** The number of contracts of a list that qualify, their qualifications
    being the gateway calls [n], [n + 1], and so on. *)
Fixpoint count_qualified (g : gateway) (n : nat) (contracts : list Contract) : nat :=
  match contracts with
  | [] => 0
  | c :: rest =>
      (match qualification g n c with inr _ => 1 | inl _ => 0 end
       + count_qualified g (S n) rest)%nat
  end.

(** The generic ticks asked for a qualified contract. *)
Definition ticks_for (q : Contract) : string :=
  if String.eqb (PyStr.upper (secType q)) "OPT" then "100,101,106" else "".

(** What the request phase of [fetch_snapshot] records for the contract
    at position [idx], when the call starts after [calls] gateway calls:
    the connection is call [calls], the qualification of the contract is
    call [calls + 1 + idx], and its market-data request, made when it
    qualifies, comes after the qualifications of all the contracts and
    after the requests of the contracts before it that qualify. *)
Definition position_state (g : gateway) (calls : nat) (contracts : list Contract)
    (idx : nat) (contract : Contract) : snapshot_state :=
  match qualification g (calls + 1 + idx) contract with
  | inl msg => mkSnapState {[ idx := msg ]} ∅ ∅
  | inr qualified_contract =>
      let n := (calls + 1 + length contracts
                + count_qualified g (calls + 1) (take idx contracts))%nat in
      match gw_reqMktData g n qualified_contract (ticks_for qualified_contract) with
      | Raise exc =>
          mkSnapState {[ idx := str_or exc "snapshot request failed" ]}
            {[ idx := qualified_contract ]} ∅
      | Ok ticker =>
          mkSnapState ∅ {[ idx := qualified_contract ]} {[ idx := ticker ]}
      end
  end.

(** The number of positions among [a], ..., [a + m - 1] that hold a
    qualified contract. *)
Fixpoint count_some (st : snapshot_state) (a m : nat) : nat :=
  match m with
  | O => 0
  | S m' =>
      ((if is_Some_b (qualified_by_index st !! a) then 1 else 0)
       + count_some st (S a) m')%nat
  end.

(** One turn of the second loop at a qualified position. *)
Definition requested_step (idx : nat) (q : Contract) (st : snapshot_state) (w : world)
  : snapshot_state :=
  match gw_reqMktData (w_gateway w) (w_calls w) q (ticks_for q) with
  | Ok ticker =>
      mkSnapState (pre_errors st) (qualified_by_index st)
        (<[idx := ticker]> (tickers_by_index st))
  | Raise exc =>
      mkSnapState (<[idx := str_or exc "snapshot request failed"]> (pre_errors st))
        (qualified_by_index st) (tickers_by_index st)
  end.

(** One turn of the first loop. *)
Definition qualified_step (idx : nat) (c : Contract) (st : snapshot_state) (w : world)
  : snapshot_state :=
  match qualification (w_gateway w) (w_calls w) c with
  | inl msg =>
      mkSnapState (<[idx := msg]> (pre_errors st)) (qualified_by_index st)
        (tickers_by_index st)
  | inr q =>
      mkSnapState (pre_errors st) (<[idx := q]> (qualified_by_index st))
        (tickers_by_index st)
  end.

(** * More of the package

    The month-end wrappers of [ibkr/market_data.py], the cache
    maintenance of [ibkr/cache.py], the FX side of [ibkr/contracts.py]
    with the resolver dispatch, and the account resolution of
    [ibkr/client.py]. *)

(** ** ibkr/market_data.py: month-end wrappers *)

(** [_to_monthly_close(series=..., symbol=..., start_date=...,
    end_date=...)]. [resample] sorts the rows by time, stably, before it
    bins them. A row whose label is [NaT] falls in a bin labelled [NaT],
    which the window filter removes: such rows are left out at once. The
    wrappers call the function on a non-empty series only (on
    [pd.Series(dtype=float)], which has no time index, [resample]
    raises). *)
Definition _to_monthly_close (series : Series) (symbol : string)
    (start_date end_date : date_arg) : outcome Series :=
  match pd_Timestamp start_date with
  | Raise e => Raise e
  | Ok start_ts =>
      match pd_Timestamp end_date with
      | Raise e => Raise e
      | Ok end_ts =>
          let monthly := resample_ME_last (stable_sort (valid_rows (s_rows series))) in
          match clip start_ts end_ts monthly with
          | Raise e => Raise e
          | Ok monthly =>
              let monthly :=
                List.filter (fun r => negb (PrimFloat.is_nan (snd r))) monthly in
              Ok (mkSeries (Some (PyStr.upper (PyStr.strip symbol)))
                    (map (fun r => (Some (fst r), snd r)) monthly))
          end
      end
  end.

Section Wrappers.
Context `{Md5} `{Resolver} `{SortIndex}.

(** [fetch_monthly_close_futures(symbol, start_date, end_date)]. *)
Definition fetch_monthly_close_futures (symbol : string)
    (start_date end_date : date_arg) : M world Series :=
  profile <- of_outcome (get_profile "futures") ;;
  series <- fetch_series symbol "futures" start_date end_date (Some profile)
              None None ;;
  if series_empty series then ret series
  else of_outcome (_to_monthly_close series symbol start_date end_date).

(** [fetch_daily_close_futures(symbol, start_date, end_date)]. *)
Definition fetch_daily_close_futures (symbol : string)
    (start_date end_date : date_arg) : M world Series :=
  profile <- of_outcome (get_profile "futures_daily") ;;
  fetch_series symbol "futures" start_date end_date (Some profile) None None.

(** [fetch_monthly_close_fx(symbol, start_date, end_date)]. *)
Definition fetch_monthly_close_fx (symbol : string)
    (start_date end_date : date_arg) : M world Series :=
  profile <- of_outcome (get_profile "fx") ;;
  series <- fetch_series symbol "fx" start_date end_date (Some profile)
              None None ;;
  if series_empty series then ret series
  else of_outcome (_to_monthly_close series symbol start_date end_date).

(** [fetch_monthly_close_bond(symbol, start_date, end_date,
    contract_identity)]. *)
Definition fetch_monthly_close_bond (symbol : string)
    (start_date end_date : date_arg) (identity : contract_identity)
  : M world Series :=
  profile <- of_outcome (get_profile "bond") ;;
  series <- fetch_series symbol "bond" start_date end_date (Some profile)
              None identity ;;
  if series_empty series then ret series
  else of_outcome (_to_monthly_close series symbol start_date end_date).

(** [fetch_monthly_close_option(symbol, start_date, end_date,
    contract_identity)]. *)
Definition fetch_monthly_close_option (symbol : string)
    (start_date end_date : date_arg) (identity : contract_identity)
  : M world Series :=
  profile <- of_outcome (get_profile "option") ;;
  series <- fetch_series symbol "option" start_date end_date (Some profile)
              None identity ;;
  if series_empty series then ret series
  else of_outcome (_to_monthly_close series symbol start_date end_date).

End Wrappers.

(** ** ibkr/cache.py: maintenance *)

(** [s.endswith(suffix)]. *)
Fixpoint ends_with (suffix s : string) : bool :=
  String.eqb s suffix
  || match s with
     | EmptyString => false
     | String _ r => ends_with suffix r
     end.

(** A file name matched by the pattern [ibkr_*.parquet]: it begins with
    [ibkr_] and what follows ends with [.parquet]. *)
Definition glob_ibkr_parquet (name : string) : bool :=
  PyStr.is_prefix "ibkr_" name
  && ends_with ".parquet" (String.substring 5 (String.length name - 5) name).

(** [st_size] of a file is a function of what the file holds; the
    development is parametric in it. *)
Class StSize := st_size : file_content -> Z.

(** The summary that [clear_disk_cache] returns. [mb_freed] is
    [bytes_freed] in MiB rounded to two decimals and is not kept apart. In
    the model no operation on a file of the listing fails, so the list of
    errors stays empty. *)
Record clear_summary := mkClearSummary {
  files_removed : Z;
  bytes_freed : Z;
  errors : list string
}.

(** The age test of the loop: the file is kept when its age in hours is
    at most [older_than_hours]. *)
Definition kept_by_age (older_than_hours : option Z) (now : Z) (f : file) : bool :=
  match older_than_hours with
  | None => false
  | Some h => now - f_mtime f <=? h * NANOS_PER_HOUR
  end.

(** The loop of [clear_disk_cache] over the listing. [f.stat()] is
    logged as a look at the file; the clock is read for every file. *)
Fixpoint clear_loop `{StSize} (older_than_hours : option Z)
    (files : list (string * file)) (removed freed : Z) : M world (Z * Z) :=
  match files with
  | [] => ret (removed, freed)
  | (name, f) :: rest =>
      modify (log_event (EvCacheStat name)) ;;;
      now <- gets w_clock ;;
      if kept_by_age older_than_hours now f
      then clear_loop older_than_hours rest removed freed
      else
        unlink name ;;;
        clear_loop older_than_hours rest (removed + 1) (freed + st_size (f_content f))
  end.

(** [cache_path.glob("ibkr_*.parquet")]: the matching files of the cache
    directory, in the order of the listing. *)
Definition glob_cache (w : world) : list (string * file) :=
  List.filter (fun e => glob_ibkr_parquet (fst e)) (map_to_list (w_fs w)).

(** [clear_disk_cache(base_dir, older_than_hours)]. *)
Definition clear_disk_cache `{StSize} (older_than_hours : option Z)
  : M world clear_summary :=
  if match older_than_hours with Some h => h <? 0 | None => false end
  then raise (mkExn ValueError
                ("older_than_hours must be >= 0, got "
                 +:+ pretty (default 0 older_than_hours)))
  else
    files <- gets glob_cache ;;
    r <- clear_loop older_than_hours files 0 0 ;;
    ret (mkClearSummary (fst r) (snd r) []).

(** ** ibkr/contracts.py *)

Fixpoint filter_str (p : ascii -> bool) (s : string) : string :=
  match s with
  | EmptyString => EmptyString
  | String c r => if p c then String c (filter_str p r) else filter_str p r
  end.

(** [re.sub(r"[^A-Z]", "", raw)]. *)
Definition letters_only (raw : string) : string := filter_str PyStr.is_upper raw.

(** The end of a match of [$]: the end of the text, or a newline that
    ends the text. *)
Definition at_dollar (rest : string) : bool :=
  String.eqb rest "" || String.eqb rest (String (ascii_of_N 10) "").

(** [_FX_PAIR_RE.match(raw)] for [^[A-Z]{3}[./]?[A-Z]{3}$]. *)
Definition _FX_PAIR_RE_match (raw : string) : bool :=
  match raw with
  | String a (String b (String c rest)) =>
      PyStr.is_upper a && PyStr.is_upper b && PyStr.is_upper c
      && (let rest :=
            match rest with
            | String d r =>
                if Ascii.eqb d "." || Ascii.eqb d "/" then r else rest
            | EmptyString => rest
            end in
          match rest with
          | String x (String y (String z tail)) =>
              PyStr.is_upper x && PyStr.is_upper y && PyStr.is_upper z
              && at_dollar tail
          | _ => false
          end)
  | _ => false
  end.

(** [_normalize_fx_pair(symbol)]. *)
Definition _normalize_fx_pair (symbol : string) : outcome string :=
  let raw := PyStr.upper (PyStr.strip symbol) in
  if negb (PyStr.truthy raw)
  then Raise (mkExn IBKRContractError "Missing FX symbol")
  else if negb (_FX_PAIR_RE_match raw)
          && negb (String.length (letters_only raw) =? 6)%nat
  then Raise (mkExn IBKRContractError ("Invalid FX symbol '" +:+ symbol +:+ "'"))
  else
    let fx_pair := letters_only raw in
    if negb (String.length fx_pair =? 6)%nat
    then Raise (mkExn IBKRContractError ("Invalid FX symbol '" +:+ symbol +:+ "'"))
    else Ok fx_pair.

Section ResolveContract.

(** The contract classes of [ib_async] and the resolvers of the other
    instrument types are parameters. *)
Variable Forex : string -> Contract.
Variable resolve_futures_contract : string -> outcome Contract.
Variable resolve_bond_contract : string -> contract_identity -> outcome Contract.
Variable resolve_option_contract : string -> contract_identity -> outcome Contract.

(** [resolve_fx_contract(symbol)]. *)
Definition resolve_fx_contract (symbol : string) : outcome Contract :=
  match _normalize_fx_pair symbol with
  | Ok fx_pair => Ok (Forex fx_pair)
  | Raise e => Raise e
  end.

(** [resolve_contract(symbol, instrument_type, contract_identity)] of
    [ibkr/contracts.py]. *)
Definition contracts_resolve_contract (symbol instrument_type : string)
    (identity : contract_identity) : outcome Contract :=
  let raw_instrument_type := PyStr.lower (PyStr.strip instrument_type) in
  if str_in raw_instrument_type ["fx"; "forex"] then resolve_fx_contract symbol
  else
    let normalized := coerce_instrument_type instrument_type "unknown" in
    if String.eqb normalized "futures" then resolve_futures_contract symbol
    else if String.eqb normalized "fx_artifact" then resolve_fx_contract symbol
    else if String.eqb normalized "bond" then resolve_bond_contract symbol identity
    else if String.eqb normalized "option" then resolve_option_contract symbol identity
    else if str_in normalized ["equity"; "unknown"]
    then Raise (mkExn IBKRContractError
                  ("IBKR resolver not yet implemented for instrument type '"
                   +:+ normalized +:+ "'"))
    else Raise (mkExn IBKRContractError
                  ("Unsupported instrument type '" +:+ instrument_type +:+ "'")).

End ResolveContract.

(** ** ibkr/client.py: account resolution *)

(** The authorized accounts that [_resolve_account_id] works with: the
    list of the [settings] module when that module has one ([configured]),
    without its blank entries, else the list of the package
    configuration. *)
Definition effective_authorized (IBKR_AUTHORIZED_ACCOUNTS : list string)
    (configured : option (list string)) : list string :=
  match configured with
  | Some l => List.filter (fun a => PyStr.truthy (PyStr.strip a)) l
  | None => IBKR_AUTHORIZED_ACCOUNTS
  end.

(** [_resolve_account_id(ib, account_id)], with [managed] what
    [ib.managedAccounts()] reports. *)
Definition _resolve_account_id (managed : list string)
    (IBKR_AUTHORIZED_ACCOUNTS : list string) (configured : option (list string))
    (account_id : option string) : outcome string :=
  let accounts := managed in
  let authorized_accounts :=
    effective_authorized IBKR_AUTHORIZED_ACCOUNTS configured in
  let accounts :=
    match authorized_accounts with
    | [] => accounts
    | _ => List.filter (fun a => str_in a authorized_accounts) accounts
    end in
  match account_id with
  | Some id =>
      if PyStr.truthy id
      then
        if str_in id accounts then Ok id
        else Raise (mkExn IBKRAccountError
                      ("Account " +:+ id +:+ " not authorized or not found"))
      else
        match accounts with
        | [a] => Ok a
        | [] => Raise (mkExn IBKRAccountError "No IBKR accounts available")
        | _ => Raise (mkExn IBKRAccountError
                        ("Multiple accounts available ("
                         +:+ PyStr.join ", " accounts +:+ "); specify --account"))
        end
  | None =>
      match accounts with
      | [a] => Ok a
      | [] => Raise (mkExn IBKRAccountError "No IBKR accounts available")
      | _ => Raise (mkExn IBKRAccountError
                      ("Multiple accounts available ("
                       +:+ PyStr.join ", " accounts +:+ "); specify --account"))
      end
  end.

(** * Notions for the properties of this part *)

(** The last day of a month, at midnight. *)
Definition is_month_end (t : Timestamp) : bool :=
  (day (ts_date t) =? days_in_month (year (ts_date t)) (month (ts_date t)))
  && (ts_nanos t =? 0).

(** [start_ts <= t <= end_ts] as the window filter evaluates it. *)
Definition in_window (start_ts end_ts : stamp) (t : Timestamp) : bool :=
  match label_ge t start_ts, label_le t end_ts with
  | Some ge, Some le => ge && le
  | _, _ => false
  end.

(** The rows of a clean series: each has a timestamp, and the timestamps
    increase strictly, lie in the window and carry no null value. *)
Definition clean_rows (start_ts end_ts : stamp) (rows : list (index_cell * float))
  : Prop :=
  forallb index_notna rows = true
  /\ strictly_increasing (valid_rows rows) = true
  /\ forallb (fun r => in_window start_ts end_ts (fst r)
                       && negb (PrimFloat.is_nan (snd r))) (valid_rows rows) = true.

(** No two rows carry the same instant. *)
Fixpoint distinct_instants (l : list (Timestamp * float)) : bool :=
  match l with
  | [] => true
  | r :: rest =>
      negb (existsb (fun r' => same_stamp (fst r) (fst r')) rest)
      && distinct_instants rest
  end.

(** The files of a cache directory that [clear_disk_cache] selects. *)
Definition selected (older_than_hours : option Z) (now : Z) (name : string) (f : file)
  : bool :=
  glob_ibkr_parquet name && negb (kept_by_age older_than_hours now f).

(** Files counted as bytes. *)
Definition total_size `{StSize} (files : list (string * file)) : Z :=
  foldr (fun e acc => st_size (f_content (snd e)) + acc) 0 files.

(** The normalized tags for which [get_profile] has a profile. *)
Definition profiled_tags : list string :=
  ["futures"; "futures_daily"; "fx"; "bond"; "option"; "forex"; "fx_artifact"].

(** The accounts among which [_resolve_account_id] chooses: the managed
    accounts, restricted to the authorized ones when some are
    configured. *)
Definition eligible_accounts (managed authorized : list string) : list string :=
  match authorized with
  | [] => managed
  | _ => List.filter (fun a => str_in a authorized) managed
  end.

(** A number of a snapshot entry that is present is finite. *)
Definition finite_opt (o : option float) : bool :=
  match o with
  | Some f => negb (PrimFloat.is_nan f) && negb (PrimFloat.is_infinity f)
  | None => true
  end.

(** The mid of a snapshot entry: the mean of bid and ask, present when
    both are. *)
Definition mid_of (bid ask : option float) : option float :=
  match bid, ask with
  | Some b, Some a => Some ((b + a) / 2)%float
  | _, _ => None
  end.

(** A data entry whose prices, implied volatility and greeks are finite
    where present, and whose mid is the one of its bid and ask. *)
Definition sound_quote (d : snapshot_data) : Prop :=
  finite_opt (sd_bid d) && finite_opt (sd_ask d) && finite_opt (sd_last d)
  && finite_opt (sd_implied_vol d) && finite_opt (sd_delta d)
  && finite_opt (sd_gamma d) && finite_opt (sd_theta d) && finite_opt (sd_vega d)
  = true
  /\ sd_mid d = mid_of (sd_bid d) (sd_ask d).

Definition is_market_data_event (ev : event) : bool :=
  match ev with EvMktData _ _ => true | _ => false end.

(** ** ibkr/account.py: the account summary *)

(** One account value as [fetch_account_summary] reads it. An attribute
    that is missing or [None] is the empty string (no test of the
    function tells the two apart); [av_value] is what [_safe_float] gives
    for the value, [None] when it is missing or does not convert. *)
Record AccountValue := mkAccountValue {
  av_account : string;
  av_tag : string;
  av_value : option float;
  av_currency : string
}.

Definition _SUMMARY_TAGS : list (string * string) :=
  [ ("NetLiquidation", "net_liquidation");
    ("TotalCashValue", "total_cash_value");
    ("BuyingPower", "buying_power");
    ("GrossPositionValue", "gross_position_value");
    ("MaintMarginReq", "maint_margin_req");
    ("AvailableFunds", "available_funds");
    ("ExcessLiquidity", "excess_liquidity");
    ("SMA", "sma") ].

(** The test that keeps an account value: it belongs to the requested
    account (or names none), it is in USD, its tag is a summary tag and
    its value converts. The result is the key and the value to store. *)
Definition summary_entry (account_id : string) (av : AccountValue)
  : option (string * float) :=
  if PyStr.truthy account_id && negb (str_in (av_account av) [""; account_id])
  then None
  else if negb (String.eqb (av_currency av) "USD") then None
  else
    match dict_get (av_tag av) _SUMMARY_TAGS with
    | None => None
    | Some key =>
        match av_value av with
        | None => None
        | Some val => Some (key, val)
        end
    end.

(** The loop of [fetch_account_summary] over the account values. *)
Fixpoint summarize (account_id : string) (account_values : list AccountValue)
    (summary : gmap string float) : gmap string float :=
  match account_values with
  | [] => summary
  | av :: rest =>
      match summary_entry account_id av with
      | None => summarize account_id rest summary
      | Some (key, val) => summarize account_id rest (<[key := val]> summary)
      end
  end.

(** [fetch_account_summary(ib, account_id)], with [first] what
    [ib.accountValues] answers at once and [second] what it answers after
    [ib.reqAccountUpdates], which is asked for only when [first] is
    empty. *)
Definition fetch_account_summary (account_id : string)
    (first second : list AccountValue) : gmap string float :=
  let account_values := match first with [] => second | _ => first end in
  summarize account_id account_values ∅.

(** A gateway that accepts every session, qualifies every contract and
    answers every request for bars with one bar of 2 January 2023. *)
Definition gateway_one_bar : gateway :=
  mkGateway
    (fun _ => Ok ["DU123"])
    (fun _ c => Ok [Some c])
    (fun _ _ => Ok [mkBar (Some (mkTs (mkDate 2023 1 2) 0 None)) (Some 1.25%float)])
    (fun _ _ _ => Ok None)
    (fun _ => Ok tt).

(** * Properties *)

(** ** Sanity checks of the helpers on concrete inputs *)

Example strip_ex : PyStr.strip "  es " = "es".
Proof. reflexivity. Qed.

Example upper_ex : PyStr.upper "eS1!" = "ES1!".
Proof. reflexivity. Qed.

Example zero_pad_ex : PyStr.zero_pad 2 7 = "07" /\ PyStr.zero_pad 4 2024 = "2024".
Proof. split; reflexivity. Qed.

Example contains_ex :
  PyStr.contains "permission" "no market data permissions for x" = true
  /\ PyStr.contains "abc" "ab" = false.
Proof. split; reflexivity. Qed.

Example civil_ex :
  civil_from_days 0 = mkDate 1970 1 1
  /\ civil_from_days 19782 = mkDate 2024 2 29
  /\ civil_from_days (-1) = mkDate 1969 12 31.
Proof. repeat split; reflexivity. Qed.

Example add_years_leap : add_years (mkDate 2024 2 29) 1 = mkDate 2025 2 28.
Proof. reflexivity. Qed.

Example utc_wall_clock_ex :
  utc_wall_clock (mkTs (mkDate 2024 1 1) (3600 * NANOS_PER_SECOND) (Some 7200)) 7200
  = mkTs (mkDate 2023 12 31) (82800 * NANOS_PER_SECOND) None.
Proof. reflexivity. Qed.

Example isoformat_ex : isoformat (mkDate 2024 3 9) = "2024-03-09".
Proof. reflexivity. Qed.

Example cache_key_text_ex :
  cache_key_text " eurusd" "FX" "midpoint " "1 day" false
    (mkTs (mkDate 2024 1 2) 5 None) (mkTs (mkDate 2024 3 1) 0 None)
  = "EURUSD|fx|MIDPOINT|1 day|all|2024-01-02|2024-03-01".
Proof. reflexivity. Qed.

(** ** Cache key: normalization of the symbol and of the dates *)

Section StripLemmas.
Import PyStr.

Lemma lstrip_app_space (l s : string) :
  all_space l = true -> lstrip (l +:+ s) = lstrip s.
Proof.
  induction l as [|c l IH]; simpl; [done|].
  intros [Hc Hl]%andb_prop. rewrite Hc. by apply IH.
Qed.

Lemma rstrip_all_space (r : string) : all_space r = true -> rstrip r = "".
Proof.
  induction r as [|c r IH]; simpl; [done|].
  intros [Hc Hr]%andb_prop. by rewrite (IH Hr), Hc.
Qed.

Lemma rstrip_app_space (s r : string) :
  all_space r = true -> rstrip (s +:+ r) = rstrip s.
Proof.
  intros Hr. induction s as [|c s IH]; simpl.
  - by apply rstrip_all_space.
  - by rewrite IH.
Qed.

Lemma strip_app_r (s r : string) :
  all_space r = true -> strip (s +:+ r) = strip s.
Proof.
  intros Hr. unfold strip. induction s as [|c s IH]; simpl.
  - rewrite rstrip_all_space; [done|].
    clear -Hr. induction r as [|c r IH]; simpl in *; [done|].
    apply andb_prop in Hr as [Hc Hr]. rewrite Hc. by apply IH.
  - destruct (is_space c); [done|].
    change (String c (s +:+ r)) with (String c s +:+ r).
    by apply rstrip_app_space.
Qed.

(** Surrounding whitespace does not survive [strip]. *)
Lemma strip_surrounded (l s r : string) :
  all_space l = true -> all_space r = true ->
  strip (l +:+ s +:+ r) = strip s.
Proof.
  intros Hl Hr. unfold strip at 1. rewrite lstrip_app_space by done.
  by apply strip_app_r.
Qed.

Lemma same_char_nocase_spec (a b : ascii) :
  same_char_nocase a b = true ->
  is_space a = is_space b /\ upper_char a = upper_char b.
Proof.
  unfold same_char_nocase.
  intros [[Heq | [Hl Heq]%andb_prop]%orb_prop | [Hu Heq]%andb_prop]%orb_prop;
    apply Ascii.eqb_eq in Heq; subst b; [done| |];
    revert Hl || revert Hu;
    destruct a as [[] [] [] [] [] [] [] []]; vm_compute; done.
Qed.

Lemma case_variant_lstrip (s t : string) :
  case_variant s t = true -> case_variant (lstrip s) (lstrip t) = true.
Proof.
  revert t. induction s as [|a s IH]; intros [|b t]; simpl; try done.
  intros [Hab Hst]%andb_prop.
  destruct (same_char_nocase_spec _ _ Hab) as [<- _].
  destruct (is_space a); [by apply IH|].
  simpl. by rewrite Hab, Hst.
Qed.

Lemma case_variant_rstrip (s t : string) :
  case_variant s t = true -> case_variant (rstrip s) (rstrip t) = true.
Proof.
  revert t. induction s as [|a s IH]; intros [|b t]; simpl; try done.
  intros [Hab Hst]%andb_prop. specialize (IH _ Hst).
  destruct (same_char_nocase_spec _ _ Hab) as [<- _].
  destruct (rstrip s), (rstrip t); simpl in *; try done.
  - destruct (is_space a); simpl; [done|]. by rewrite Hab.
  - by rewrite Hab, IH.
Qed.

Lemma case_variant_upper (s t : string) :
  case_variant s t = true -> upper s = upper t.
Proof.
  revert t. induction s as [|a s IH]; intros [|b t]; simpl; try done.
  intros [Hab Hst]%andb_prop.
  destruct (same_char_nocase_spec _ _ Hab) as [_ Hup].
  unfold upper in *. simpl. by rewrite Hup, (IH _ Hst).
Qed.

(** Two spellings of a symbol that differ in letter case and in
    surrounding whitespace normalize to the same text. *)
Lemma symbol_normal_form (l1 r1 l2 r2 core1 core2 : string) :
  all_space l1 = true -> all_space r1 = true ->
  all_space l2 = true -> all_space r2 = true ->
  case_variant core1 core2 = true ->
  upper (strip (l1 +:+ core1 +:+ r1)) = upper (strip (l2 +:+ core2 +:+ r2)).
Proof.
  intros Hl1 Hr1 Hl2 Hr2 Hc. rewrite !strip_surrounded by done.
  apply case_variant_upper. unfold strip.
  by apply case_variant_rstrip, case_variant_lstrip.
Qed.

Lemma is_space_upper_char (c : ascii) : is_space (upper_char c) = is_space c.
Proof. destruct c as [[] [] [] [] [] [] [] []]; reflexivity. Qed.

Lemma upper_char_idem (c : ascii) : upper_char (upper_char c) = upper_char c.
Proof. destruct c as [[] [] [] [] [] [] [] []]; reflexivity. Qed.

Lemma upper_idem (s : string) : upper (upper s) = upper s.
Proof.
  unfold upper. induction s as [|c s IH]; simpl; [done|].
  by rewrite upper_char_idem, IH.
Qed.

Lemma lstrip_upper (s : string) : lstrip (upper s) = upper (lstrip s).
Proof.
  unfold upper. induction s as [|c s IH]; simpl; [done|].
  rewrite is_space_upper_char. by destruct (is_space c).
Qed.

Lemma rstrip_upper (s : string) : rstrip (upper s) = upper (rstrip s).
Proof.
  unfold upper. induction s as [|c s IH]; simpl; [done|].
  rewrite IH, is_space_upper_char.
  destruct (rstrip s); simpl; [by destruct (is_space c)|done].
Qed.

Lemma strip_upper (s : string) : strip (upper s) = upper (strip s).
Proof. unfold strip. by rewrite lstrip_upper, rstrip_upper. Qed.

Lemma lstrip_no_leading_space (s : string) : no_leading_space (lstrip s).
Proof.
  induction s as [|c s IH]; simpl; [done|].
  destruct (is_space c) eqn:Hc; [exact IH|exact Hc].
Qed.

Lemma lstrip_id (s : string) : no_leading_space s -> lstrip s = s.
Proof. destruct s as [|c s]; simpl; [done|]. by intros ->. Qed.

Lemma rstrip_no_leading_space (s : string) :
  no_leading_space s -> no_leading_space (rstrip s).
Proof.
  destruct s as [|c s]; simpl; [done|]. intros Hc.
  destruct (rstrip s); simpl; [by rewrite Hc|done].
Qed.

Lemma rstrip_idem (s : string) : rstrip (rstrip s) = rstrip s.
Proof.
  induction s as [|c s IH]; simpl; [done|].
  destruct (rstrip s) as [|c' r] eqn:Hr.
  - destruct (is_space c) eqn:Hc; simpl; [done|by rewrite Hc].
  - change (rstrip (String c (String c' r))) with
      (match rstrip (String c' r) with
       | EmptyString => if is_space c then EmptyString else String c EmptyString
       | r' => String c r'
       end).
    by rewrite IH.
Qed.

Lemma strip_idem (s : string) : strip (strip s) = strip s.
Proof.
  unfold strip.
  rewrite (lstrip_id (rstrip (lstrip s)))
    by apply rstrip_no_leading_space, lstrip_no_leading_space.
  apply rstrip_idem.
Qed.

(** The normal form of a symbol is its own normal form. *)
Lemma symbol_normal_form_idem (s : string) :
  upper (strip (upper (strip s))) = upper (strip s).
Proof. by rewrite strip_upper, strip_idem, upper_idem. Qed.

End StripLemmas.

(** Two naive timestamps of one date, whatever their times of day. *)
Lemma same_utc_day_naive (d : date) (n1 n2 : Z) :
  same_utc_day (mkTs d n1 None) (mkTs d n2 None).
Proof. reflexivity. Qed.

(** An aware timestamp and the naive UTC timestamp of the same instant. *)
Lemma same_utc_day_aware (t : Timestamp) (off : Z) :
  ts_tz t = Some off -> same_utc_day t (utc_wall_clock t off).
Proof. intros Htz. unfold same_utc_day, naive_utc. by rewrite Htz. Qed.

(** C7. The cache key is a function of its fields, and it is the same for
    two requests whose symbols differ only in letter case and surrounding
    whitespace and whose start and end dates fall, after normalization to
    naive UTC, on the same calendar days (so that they may differ in time
    of day and in time zone). *)
Theorem cache_key_normalizing `{Md5}
    (l1 r1 l2 r2 core1 core2 instrument_type what_to_show bar_size : string)
    (use_rth : bool) (start1 end1 start2 end2 : Timestamp) :
  PyStr.all_space l1 = true -> PyStr.all_space r1 = true ->
  PyStr.all_space l2 = true -> PyStr.all_space r2 = true ->
  PyStr.case_variant core1 core2 = true ->
  same_utc_day start1 start2 ->
  same_utc_day end1 end2 ->
  cache_key (l1 +:+ core1 +:+ r1) instrument_type what_to_show bar_size use_rth
    start1 end1
  = cache_key (l2 +:+ core2 +:+ r2) instrument_type what_to_show bar_size use_rth
      start2 end2.
Proof.
  intros Hl1 Hr1 Hl2 Hr2 Hc Hs He. unfold cache_key, cache_key_text.
  rewrite (symbol_normal_form l1 r1 l2 r2 core1 core2) by done.
  unfold same_utc_day in *. cbn [_to_timestamp date_isoformat].
  by rewrite Hs, He.
Qed.

(** " eurusd" at 2024-01-02 09:30 in UTC+2 and "EurUSD  " at 2024-01-02
    23:59:59 naive, with end dates 2024-03-01 at two times of day. *)
Lemma cache_key_normalizing_witness :
  @cache_key (fun s => s) " eurusd" "fx" "MIDPOINT" "1 day" false
      (mkTs (mkDate 2024 1 2) (34200 * NANOS_PER_SECOND) (Some 7200))
      (mkTs (mkDate 2024 3 1) 0 None)
  = @cache_key (fun s => s) "EurUSD  " "fx" "MIDPOINT" "1 day" false
      (mkTs (mkDate 2024 1 2) (86399 * NANOS_PER_SECOND) None)
      (mkTs (mkDate 2024 3 1) (3600 * NANOS_PER_SECOND) None).
Proof.
  apply (@cache_key_normalizing (fun s => s) " " "" "" "  " "eurusd" "EurUSD");
    reflexivity.
Defined.

(** ** Duration string *)

Example duration_ex :
  _compute_duration_str (mkTs (mkDate 2022 6 15) 0 None) (mkTs (mkDate 2024 3 1) 0 None)
    = Ok "2 Y"
  /\ _compute_duration_str (mkTs (mkDate 2022 6 15) 0 None) (mkTs (mkDate 2024 6 16) 0 None)
    = Ok "3 Y"
  /\ _compute_duration_str (mkTs (mkDate 2024 1 1) 0 None) (mkTs (mkDate 2024 1 20) 0 None)
    = Ok "1 Y"
  /\ _compute_duration_str (mkTs (mkDate 2024 2 29) 0 None) (mkTs (mkDate 2025 2 28) 0 None)
    = Ok "1 Y".
Proof. repeat split; reflexivity. Qed.

Lemma date_leb_year (a b : date) : date_leb a b = true -> year a <= year b.
Proof.
  unfold date_leb, date_compare.
  destruct (year a ?= year b) eqn:Hy; [| |done].
  - apply Z.compare_eq in Hy. intros _. lia.
  - rewrite Z.compare_lt_iff in Hy. intros _. lia.
Qed.

Lemma compute_duration_spec (start_dt end_dt : Timestamp) :
  _compute_duration_str start_dt end_dt
  = Ok (pretty (Z.max 1 (spec_years (ts_date start_dt) (ts_date end_dt))) +:+ " Y").
Proof.
  unfold _compute_duration_str, spec_years.
  destruct (date_leb (ts_date end_dt) (ts_date start_dt)) eqn:Hle; [|done].
  apply date_leb_year in Hle.
  replace (Z.max 1 _) with 1; [done|].
  destruct (date_ltb _ _); lia.
Qed.

(** With a bound that is [NaT] no duration is computed: the function
    raises. *)
Lemma compute_duration_nat (start_dt end_dt : stamp) :
  start_dt = NaT \/ end_dt = NaT ->
  exists e, _compute_duration_str start_dt end_dt = Raise e
            /\ (exn_cls e = TypeError \/ exn_cls e = ValueError).
Proof.
  intros [-> | ->]; [destruct end_dt | destruct start_dt];
    eexists; (split; [reflexivity|]); simpl; tauto.
Qed.

(** C6. The duration string of a request is [max(1, y) Y], where [y] is
    the difference of the calendar years of the start date and of the
    anchor date, plus one when the anchor date is strictly after the
    [y]-year anniversary of the start date; the anchor is now for a
    futures profile and the requested end otherwise; the computation has
    no effect; and an anchor date on or before the start date gives
    ["1 Y"]. *)
Theorem duration_for_request_spec (profile : InstrumentProfile)
    (start_ts end_ts : Timestamp) (w : world) :
  let anchor := duration_anchor profile end_ts w in
  _duration_for_request profile start_ts end_ts w
  = (Ok (pretty (Z.max 1 (spec_years (ts_date start_ts) (ts_date anchor))) +:+ " Y"),
     w)
  /\ (if date_leb (ts_date anchor) (ts_date start_ts)
      then _duration_for_request profile start_ts end_ts w = (Ok "1 Y", w)
      else True).
Proof.
  intros anchor.
  assert (Hrun : _duration_for_request profile start_ts end_ts w
                 = (_compute_duration_str start_ts anchor, w)).
  { unfold _duration_for_request, anchor, duration_anchor.
    destruct (String.eqb (instrument_type profile) "futures");
      unfold bind, _utcnow, gets, of_outcome;
      match goal with
      | |- context [_compute_duration_str ?a ?b] =>
          rewrite (compute_duration_spec _ _)
      end; reflexivity. }
  split.
  - by rewrite Hrun, compute_duration_spec.
  - destruct (date_leb (ts_date anchor) (ts_date start_ts)) eqn:Hle.
    + rewrite Hrun. unfold _compute_duration_str. by rewrite Hle.
    + done.
Qed.

Lemma date_ltb_spec (a b : date) :
  date_ltb a b = true <->
  year a < year b
  \/ (year a = year b
      /\ (month a < month b \/ (month a = month b /\ day a < day b))).
Proof.
  unfold date_ltb, date_compare.
  destruct (Z.compare_spec (year a) (year b));
    destruct (Z.compare_spec (month a) (month b));
    destruct (Z.compare_spec (day a) (day b)); split; (done || lia).
Qed.

Lemma date_leb_ltb (a b : date) : date_leb a b = negb (date_ltb b a).
Proof.
  unfold date_leb, date_ltb, date_compare.
  destruct (Z.compare_spec (year a) (year b));
    destruct (Z.compare_spec (year b) (year a)); try lia; try done;
    destruct (Z.compare_spec (month a) (month b));
    destruct (Z.compare_spec (month b) (month a)); try lia; try done;
    destruct (Z.compare_spec (day a) (day b));
    destruct (Z.compare_spec (day b) (day a)); try lia; done.
Qed.

Lemma date_ltb_false (a b : date) :
  date_ltb a b = false <->
  year b < year a
  \/ (year b = year a
      /\ (month b < month a \/ (month b = month a /\ day b <= day a))).
Proof.
  rewrite <- not_true_iff_false, date_ltb_spec. lia.
Qed.

(** The rounding is upward: when the end date is after the start date,
    the number of years is the least [n >= 1] whose anniversary of the
    start date is not before the end date. *)
Lemma spec_years_least (start_date end_date : date) :
  date_ltb start_date end_date = true ->
  let n := Z.max 1 (spec_years start_date end_date) in
  date_ltb (add_years start_date n) end_date = false
  /\ forall k, 1 <= k < n -> date_ltb (add_years start_date k) end_date = true.
Proof.
  intros Hlt n. subst n. unfold spec_years.
  apply date_ltb_spec in Hlt.
  destruct (date_ltb (add_years start_date (year end_date - year start_date))
              end_date) eqn:Hann.
  - apply date_ltb_spec in Hann. simpl in Hann. split.
    + apply date_ltb_false. simpl. lia.
    + intros k Hk. apply date_ltb_spec. simpl.
      destruct (decide (k = year end_date - year start_date)) as [->|]; lia.
  - apply date_ltb_false in Hann. simpl in Hann. split.
    + apply date_ltb_false. simpl.
      destruct (decide (year end_date - year start_date <= 0)).
      * replace (year end_date - year start_date) with 0 in Hann by lia.
        rewrite Z.add_0_r in Hann. lia.
      * replace (Z.max 1 _) with (year end_date - year start_date) by lia. lia.
    + intros k Hk. apply date_ltb_spec. simpl. lia.
Qed.

(** ** Disk cache: reading *)

Lemma _safe_read_unfold (path : string) (f : file) (w : world) :
  w_fs w !! path = Some f ->
  _safe_read path w = safe_read_of path (f_content f) w.
Proof.
  intros Hf. unfold _safe_read, safe_read_of, bind, try_except, read_parquet.
  rewrite Hf. destruct (f_content f) as [e|fr]; simpl.
  - destruct (read_error_caught e); reflexivity.
  - destruct (frame_empty fr); [reflexivity|].
    destruct (frame_column "value" (fr_columns fr)); [|reflexivity].
    destruct (astype_float _); reflexivity.
Qed.

Section GetCached.
Context `{Md5}.
Variables (symbol instrument_type what_to_show bar_size : string) (use_rth : bool).
Variables (start_date end_date : stamp) (now : option Timestamp).

Let path := cache_file_name symbol instrument_type what_to_show bar_size use_rth
              start_date end_date.
Let get := get_cached symbol instrument_type what_to_show bar_size use_rth
             start_date end_date now.

Lemma get_cached_absent (w : world) :
  w_fs w !! path = None ->
  get w = (Ok None, log_event (EvCacheStat path) w).
Proof.
  intros Hf. unfold get, get_cached, bind, is_file. fold path. simpl.
  rewrite Hf. rewrite bool_decide_eq_false_2; [reflexivity|].
  by intros [? ?].
Qed.

Lemma get_cached_present (w : world) (f : file) :
  w_fs w !! path = Some f ->
  get w =
    let w1 := log_event (EvCacheStat path) w in
    if _is_expired (f_mtime f) (w_clock w)
         (applicable_ttl start_date end_date now (w_clock w))
    then (Ok None, unlinked path w1)
    else
      match safe_read_of path (f_content f) w1 with
      | (Ok (Some s), w2) =>
          (Ok (Some (set_name (PyStr.upper (PyStr.strip symbol)) s)), w2)
      | (Ok None, w2) => (Ok None, w2)
      | (Raise e, w2) => (Raise e, w2)
      end.
Proof.
  intros Hf. unfold get, get_cached, bind, is_file, gets. fold path.
  cbn [w_fs log_event]. rewrite Hf.
  rewrite bool_decide_eq_true_2 by eauto. cbn [negb].
  unfold applicable_ttl, effective_now.
  destruct now as [t|]; cbn [ret datetime_now_utc gets w_clock log_event w_fs];
    rewrite ?Hf;
    (destruct (_is_expired _ _ _); [reflexivity|]);
    rewrite (_safe_read_unfold path f) by exact Hf;
    destruct (safe_read_of path (f_content f) _) as [[[s|]|e] w2]; reflexivity.
Qed.

End GetCached.

(** ** Disk cache: fail-open on corrupt entries *)

Example es_path_ex :
  es_path = "ibkr_ES|futures|TRADES|1 month|rth|2023-01-01|2023-06-30.parquet".
Proof. reflexivity. Qed.

(** C4, as stated, fails: a frame with no rows and no value column is a
    readable frame missing the value column, yet the get returns an empty
    series, not absent, and the file is still there. *)
Lemma get_cached_empty_frame_kept :
  let f := mkFile t_2024_01_15 (Parquet (mkFrame [] [("price", [])])) in
  let w := world_at t_2024_01_15 {[ es_path := f ]} gateway_down in
  missing_value_column (f_content f) = true
  /\ fst (es_get None w) = Ok (Some (mkSeries (Some "ES") []))
  /\ fst (es_get None w) <> Ok None
  /\ w_fs (snd (es_get None w)) !! es_path = Some f.
Proof.
  assert (Hrun : fst (es_get None
                        (world_at t_2024_01_15
                           {[ es_path := mkFile t_2024_01_15
                                           (Parquet (mkFrame [] [("price", [])])) ]}
                           gateway_down))
                 = Ok (Some (mkSeries (Some "ES") []))) by (vm_compute; reflexivity).
  cbv zeta. split; [reflexivity|]. split; [exact Hrun|]. split.
  - rewrite Hrun. discriminate.
  - vm_compute. reflexivity.
Qed.

(** The same on a read error that [_safe_read] does not catch, as
    pyarrow's [ArrowNotImplementedError] for a column type it cannot
    read (a [NotImplementedError]): the error reaches the caller and the
    file stays. *)
Example get_cached_foreign_read_error_raises :
  let e := mkExn OtherException "Unsupported column type" in
  let f := mkFile t_2024_01_15 (Unreadable e) in
  let w := world_at t_2024_01_15 {[ es_path := f ]} gateway_down in
  fst (es_get None w) = Raise e
  /\ w_fs (snd (es_get None w)) !! es_path = Some f.
Proof. cbv zeta. split; vm_compute; reflexivity. Qed.

(** C4, amended. A cache entry whose read raises one of the errors that
    [_safe_read] catches (garbage bytes), or whose frame has rows and
    columns but no value column, makes the get return absent without
    raising, and afterwards the file is gone and every other file is as
    it was. An entry whose frame has no rows or no columns is returned
    as the empty series, under the normalized symbol, and its file is
    kept, unless the entry is expired: then it is deleted and reported
    absent like every expired entry. On an entry that is not expired, a
    read error that [_safe_read] does not catch is raised to the caller
    and the file is kept. *)
Theorem get_cached_fail_open `{Md5}
    (symbol instrument_type what_to_show bar_size : string) (use_rth : bool)
    (start_date end_date : stamp) (now : option Timestamp)
    (w : world) (f : file) :
  let path := cache_file_name symbol instrument_type what_to_show bar_size
                use_rth start_date end_date in
  let run := get_cached symbol instrument_type what_to_show bar_size use_rth
               start_date end_date now w in
  let expired := _is_expired (f_mtime f) (w_clock w)
                   (applicable_ttl start_date end_date now (w_clock w)) in
  w_fs w !! path = Some f ->
  (structurally_invalid (f_content f) = true ->
   exists w',
     run = (Ok None, w')
     /\ w_fs w' = delete path (w_fs w)
     /\ w_fs w' !! path = None)
  /\ (forall fr,
        f_content f = Parquet fr -> frame_empty fr = true ->
        if expired
        then fst run = Ok None /\ w_fs (snd run) = delete path (w_fs w)
        else fst run
             = Ok (Some (mkSeries (Some (PyStr.upper (PyStr.strip symbol))) []))
             /\ w_fs (snd run) = w_fs w)
  /\ (forall e,
        f_content f = Unreadable e -> read_error_caught e = false ->
        expired = false ->
        fst run = Raise e /\ w_fs (snd run) = w_fs w).
Proof.
  intros path run expired Hf. subst run expired.
  rewrite (get_cached_present _ _ _ _ _ _ _ _ _ _ Hf). cbv zeta. fold path.
  split_and!.
  - intros Hbad. destruct (_is_expired _ _ _).
    + eexists. split; [reflexivity|]. simpl. split; [done|]. apply lookup_delete_eq.
    + unfold safe_read_of. destruct (f_content f) as [e|fr]; simpl in Hbad.
      * rewrite Hbad. eexists. split; [reflexivity|]. simpl.
        split; [done|]. apply lookup_delete_eq.
      * apply andb_prop in Hbad as [Hne Hcol].
        apply negb_true_iff in Hne. rewrite Hne.
        destruct (frame_column "value" (fr_columns fr)); [done|].
        eexists. split; [reflexivity|]. simpl.
        split; [done|]. apply lookup_delete_eq.
  - intros fr Hfr Hempty. destruct (_is_expired _ _ _); [done|].
    unfold safe_read_of. by rewrite Hfr, Hempty.
  - intros e He Hcaught ->. unfold safe_read_of. by rewrite He, Hcaught.
Qed.

(** Garbage bytes, and a frame with no rows, under the key of the ES
    request. *)
Lemma get_cached_fail_open_witness :
  (exists w',
     es_get None (world_at t_2024_01_15
                    {[ es_path := mkFile t_2024_01_15 garbage_bytes ]} gateway_down)
     = (Ok None, w')
     /\ w_fs w' = delete es_path {[ es_path := mkFile t_2024_01_15 garbage_bytes ]}
     /\ w_fs w' !! es_path = None)
  /\ (let f := mkFile t_2024_01_15 (Parquet (mkFrame [] [("value", [])])) in
      let w := world_at t_2024_01_15 {[ es_path := f ]} gateway_down in
      fst (es_get None w) = Ok (Some (mkSeries (Some "ES") []))
      /\ w_fs (snd (es_get None w)) = w_fs w).
Proof.
  split.
  - assert (Hf : w_fs (world_at t_2024_01_15
                         {[ es_path := mkFile t_2024_01_15 garbage_bytes ]}
                         gateway_down) !! es_path
                 = Some (mkFile t_2024_01_15 garbage_bytes))
      by (vm_compute; reflexivity).
    exact (proj1 (@get_cached_fail_open md5_plain "ES" "futures" "TRADES" "1 month"
                    true (mkTs (mkDate 2023 1 1) 0 None)
                    (mkTs (mkDate 2023 6 30) 0 None) None _ _ Hf) eq_refl).
  - assert (Hf : w_fs (world_at t_2024_01_15
                         {[ es_path := mkFile t_2024_01_15
                                         (Parquet (mkFrame [] [("value", [])])) ]}
                         gateway_down) !! es_path
                 = Some (mkFile t_2024_01_15 (Parquet (mkFrame [] [("value", [])]))))
      by (vm_compute; reflexivity).
    exact (proj1 (proj2
                    (@get_cached_fail_open md5_plain "ES" "futures" "TRADES"
                       "1 month" true (mkTs (mkDate 2023 1 1) 0 None)
                       (mkTs (mkDate 2023 6 30) 0 None) None _ _ Hf))
             _ eq_refl eq_refl).
Defined.

(** ** Disk cache: TTL routing *)

Lemma days_in_month_bounds (y m : Z) : 28 <= days_in_month y m <= 31.
Proof.
  unfold days_in_month.
  destruct (m =? 2); [destruct (is_leap y); lia|].
  destruct (_ || _); lia.
Qed.

Lemma valid_ts_spec (t : Timestamp) :
  valid_ts t = true <->
  1 <= month (ts_date t) <= 12
  /\ 1 <= day (ts_date t) <= days_in_month (year (ts_date t)) (month (ts_date t))
  /\ 0 <= ts_nanos t < NANOS_PER_DAY.
Proof.
  unfold valid_ts, valid_date. rewrite !andb_true_iff, !Z.leb_le, Z.ltb_lt. lia.
Qed.

Lemma same_month_spec (a b : Timestamp) :
  same_month a b = true <->
  year (ts_date a) = year (ts_date b) /\ month (ts_date a) = month (ts_date b).
Proof. unfold same_month. rewrite andb_true_iff, !Z.eqb_eq. done. Qed.

(** The month window that the code compares with, for a naive [now]. *)
Lemma month_window_of (now : Timestamp) :
  let d := ts_date now in
  replace_month_start now = mkTs (mkDate (year d) (month d) 1) (ts_nanos now mod 1000)
                              (ts_tz now)
  /\ add_MonthEnd (replace_month_start now)
     = mkTs (mkDate (year d) (month d) (days_in_month (year d) (month d)))
            (ts_nanos now mod 1000) (ts_tz now).
Proof.
  split; [reflexivity|]. unfold add_MonthEnd, replace_month_start. simpl.
  pose proof (days_in_month_bounds (year (ts_date now)) (month (ts_date now))).
  destruct (Z.ltb_spec 1 (days_in_month (year (ts_date now)) (month (ts_date now))));
    [reflexivity | lia].
Qed.

(** Whenever the code applies the TTL, the window does overlap the
    current month. *)
Lemma includes_current_month_sound (start_date end_date now : Timestamp) :
  valid_ts (naive_utc start_date) = true ->
  valid_ts (naive_utc end_date) = true ->
  valid_ts (naive_utc now) = true ->
  _includes_current_month start_date end_date now = true ->
  window_overlaps_current_month start_date end_date now.
Proof.
  unfold _includes_current_month, window_overlaps_current_month.
  cbn [_to_timestamp stamp_ltb].
  set (s := naive_utc start_date). set (e := naive_utc end_date).
  set (n := naive_utc now).
  intros Hs He Hn.
  destruct (month_window_of n) as [-> ->]. cbv zeta.
  set (ms := mkTs (mkDate _ _ 1) _ _). set (me := mkTs (mkDate _ _ (days_in_month _ _)) _ _).
  assert (Hms : valid_ts (mkTs (ts_date ms) (ts_nanos ms) None) = true).
  { apply valid_ts_spec. apply valid_ts_spec in Hn. simpl.
    pose proof (days_in_month_bounds (year (ts_date n)) (month (ts_date n))).
    pose proof (Z.mod_pos_bound (ts_nanos n) 1000). unfold NANOS_PER_DAY, NANOS_PER_SECOND.
    lia. }
  assert (Hcases : forall lo hi, valid_ts lo = true ->
             ts_leb lo me = true -> ts_leb ms hi = true -> ts_leb lo hi = true ->
             exists t, ts_tz t = None /\ valid_ts t = true /\ same_month t n = true
                       /\ ts_leb lo t = true /\ ts_leb t hi = true).
  { intros lo hi Hlo H1 H2 H3.
    destruct (ts_leb lo ms) eqn:Hlm.
    - exists (mkTs (ts_date ms) (ts_nanos ms) None).
      split_and!; [reflexivity | exact Hms | | | ].
      + by apply same_month_spec.
      + apply naive_leb_spec. apply naive_leb_spec in Hlm. exact Hlm.
      + apply naive_leb_spec. apply naive_leb_spec in H2. exact H2.
    - exists (mkTs (ts_date lo) (ts_nanos lo) None).
      split_and!; [reflexivity | | | | ].
      + apply valid_ts_spec. apply valid_ts_spec in Hlo. exact Hlo.
      + apply same_month_spec. simpl.
        apply not_true_iff_false in Hlm. rewrite naive_leb_spec in Hlm.
        apply naive_leb_spec in H1. simpl in *. lia.
      + apply naive_leb_spec. simpl. lia.
      + apply naive_leb_spec. apply naive_leb_spec in H3. exact H3. }
  rewrite naive_ltb_spec.
  destruct (ts_leb s e) eqn:Hse; simpl; intros [H1 H2]%andb_prop.
  - destruct (Hcases s e Hs H1 H2 Hse) as (t & ? & ? & ? & Ha & Hb).
    exists t. split_and!; [done | done | done |]. by rewrite Ha, Hb.
  - assert (Hes : ts_leb e s = true).
    { apply naive_leb_spec. apply not_true_iff_false in Hse.
      rewrite naive_leb_spec in Hse. lia. }
    destruct (Hcases e s He H1 H2 Hes) as (t & ? & ? & ? & Ha & Hb).
    exists t. split_and!; [done | done | done |]. rewrite Ha, Hb. apply orb_true_r.
Qed.

(** For a window given by two dates (midnights) and a [now] in whole
    microseconds, the code applies the TTL to every window that overlaps
    the current month. *)
Lemma includes_current_month_complete_for_dates (start_date end_date now : Timestamp) :
  ts_nanos (naive_utc start_date) = 0 ->
  ts_nanos (naive_utc end_date) = 0 ->
  ts_nanos (naive_utc now) mod 1000 = 0 ->
  window_overlaps_current_month start_date end_date now ->
  _includes_current_month start_date end_date now = true.
Proof.
  unfold _includes_current_month, window_overlaps_current_month.
  cbn [_to_timestamp stamp_ltb].
  set (s := naive_utc start_date). set (e := naive_utc end_date).
  set (n := naive_utc now).
  intros Hs He Hn (t & _ & Ht & Hm & Hwin).
  destruct (month_window_of n) as [-> ->]. cbv zeta. rewrite Hn.
  apply valid_ts_spec in Ht. apply same_month_spec in Hm.
  assert (Hcases : forall lo hi, ts_nanos lo = 0 ->
             ts_leb lo t = true -> ts_leb t hi = true ->
             ts_leb lo (mkTs (mkDate (year (ts_date n)) (month (ts_date n))
                                (days_in_month (year (ts_date n)) (month (ts_date n))))
                          0 (ts_tz n)) = true
             /\ ts_leb (mkTs (mkDate (year (ts_date n)) (month (ts_date n)) 1) 0
                          (ts_tz n)) hi = true).
  { intros lo hi Hlo H1 H2. apply naive_leb_spec in H1. apply naive_leb_spec in H2.
    split; apply naive_leb_spec; simpl.
    - destruct Hm as [<- <-]. lia.
    - destruct Hm as [<- <-]. lia. }
  rewrite naive_ltb_spec.
  apply orb_prop in Hwin as [[H1 H2]%andb_prop | [H1 H2]%andb_prop].
  - rewrite (proj2 (naive_leb_spec s e)); simpl.
    + destruct (Hcases s e Hs H1 H2) as [-> ->]. done.
    + apply naive_leb_spec in H1. apply naive_leb_spec in H2. lia.
  - destruct (ts_leb s e) eqn:Hse; simpl.
    + assert (Hst : ts_leb s t = true).
      { apply naive_leb_spec. apply naive_leb_spec in H1.
        apply naive_leb_spec in Hse. lia. }
      assert (Hte : ts_leb t e = true).
      { apply naive_leb_spec. apply naive_leb_spec in H2.
        apply naive_leb_spec in Hse. lia. }
      destruct (Hcases s e Hs Hst Hte) as [-> ->]. done.
    + destruct (Hcases e s He H1 H2) as [-> ->]. done.
Qed.

(** A window that does not overlap the current month has no TTL, so its
    entry is never evicted by age: whatever the modification time of the
    file, it is not expired. *)
Lemma historical_window_never_expires
    (start_date end_date : Timestamp) (now : option Timestamp) (clock mtime : Z) :
  valid_ts (naive_utc start_date) = true ->
  valid_ts (naive_utc end_date) = true ->
  valid_ts (naive_utc (effective_now now clock)) = true ->
  ~ window_overlaps_current_month start_date end_date (effective_now now clock) ->
  applicable_ttl start_date end_date now clock = None
  /\ _is_expired mtime clock (applicable_ttl start_date end_date now clock) = false.
Proof.
  intros Hs He Hn Hno. unfold applicable_ttl.
  destruct (_includes_current_month start_date end_date (effective_now now clock))
    eqn:Hinc.
  - destruct Hno. by apply includes_current_month_sound.
  - done.
Qed.

(** For a window given by two dates that overlaps the current month, the
    TTL is four hours, and a file older than that is deleted and reported
    absent. *)
Lemma current_month_date_window_expires `{Md5}
    (symbol instrument_type what_to_show bar_size : string) (use_rth : bool)
    (start_date end_date : Timestamp) (now : option Timestamp)
    (w : world) (f : file) :
  let path := cache_file_name symbol instrument_type what_to_show bar_size
                use_rth start_date end_date in
  let now_ts := effective_now now (w_clock w) in
  ts_nanos (naive_utc start_date) = 0 ->
  ts_nanos (naive_utc end_date) = 0 ->
  ts_nanos (naive_utc now_ts) mod 1000 = 0 ->
  window_overlaps_current_month start_date end_date now_ts ->
  w_fs w !! path = Some f ->
  4 * NANOS_PER_HOUR < w_clock w - f_mtime f ->
  applicable_ttl start_date end_date now (w_clock w) = Some 4
  /\ exists w',
       get_cached symbol instrument_type what_to_show bar_size use_rth
         start_date end_date now w = (Ok None, w')
       /\ w_fs w' = delete path (w_fs w).
Proof.
  intros path now_ts Hs He Hn Hov Hf Hage.
  assert (Httl : applicable_ttl start_date end_date now (w_clock w) = Some 4).
  { unfold applicable_ttl. fold now_ts.
    by rewrite includes_current_month_complete_for_dates. }
  split; [exact Httl|].
  rewrite (get_cached_present _ _ _ _ _ _ _ _ _ _ Hf). cbv zeta.
  rewrite Httl. unfold _is_expired.
  destruct (Z.ltb_spec (4 * NANOS_PER_HOUR) (w_clock w - f_mtime f)); [|lia].
  eexists. split; reflexivity.
Qed.

(** The same at the instant of the clock: an entry of the window
    2024-01-01 to 2024-01-31 that is five hours old at 2024-01-15 05:00
    UTC is deleted and reported absent. *)
Example current_month_entry_expires :
  let start_ts := mkTs (mkDate 2024 1 1) 0 None in
  let end_ts := mkTs (mkDate 2024 1 31) 0 None in
  let path := @cache_file_name md5_plain "ES" "futures" "TRADES" "1 month" true
                start_ts end_ts in
  let w := world_at (t_2024_01_15 + 5 * NANOS_PER_HOUR)
             {[ path := one_row_file t_2024_01_15 ]} gateway_down in
  let run := @get_cached md5_plain "ES" "futures" "TRADES" "1 month" true
               start_ts end_ts None w in
  fst run = Ok None /\ w_fs (snd run) = ∅
  /\ w_log (snd run) = [EvCacheStat path; EvCacheUnlink path].
Proof. cbv zeta. split_and!; vm_compute; reflexivity. Qed.

(** C3 at a window that starts during the last day of the current month.
    The clock reads 2024-01-15 06:00 UTC, the request window runs from
    2024-01-31 12:00 to 2024-02-10, and the entry is six hours old. The
    window overlaps January 2024, the entry is older than four hours, and
    yet no TTL applies: the get returns the cached series and the file
    stays. *)
Theorem get_cached_late_window_not_evicted :
  let f := one_row_file t_2024_01_15 in
  let w := world_at (t_2024_01_15 + 6 * NANOS_PER_HOUR) {[ late_path := f ]}
             gateway_down in
  effective_now None (w_clock w)
  = mkTs (mkDate 2024 1 15) (6 * NANOS_PER_HOUR) (Some 0)
  /\ window_overlaps_current_month late_start late_end
       (effective_now None (w_clock w))
  /\ 4 * NANOS_PER_HOUR < w_clock w - f_mtime f
  /\ applicable_ttl late_start late_end None (w_clock w) = None
  /\ fst (late_get w)
     = Ok (Some (mkSeries (Some "EURUSD")
                   [(Some (mkTs (mkDate 2024 2 1) 0 None), 1.25%float)]))
  /\ w_fs (snd (late_get w)) !! late_path = Some f.
Proof.
  cbv zeta. split_and!.
  - vm_compute. reflexivity.
  - exists late_start. split_and!; vm_compute; reflexivity.
  - reflexivity.
  - vm_compute. reflexivity.
  - vm_compute. reflexivity.
  - vm_compute. reflexivity.
Qed.

(** ** Disk cache: round trip *)

(** C5, as stated, fails: a series whose rows are out of time order is
    accepted by [put_cache], and the get that follows returns its rows in
    the stored order, which is not the time-sorted projection. *)
Lemma put_get_keeps_stored_order :
  let w := world_at t_2024_01_15 ∅ gateway_down in
  let w1 := snd (es_put unsorted_series w) in
  fst (es_put unsorted_series w) = Ok (Some es_path)
  /\ fst (es_get None w1)
     = Ok (Some (mkSeries (Some "ES") (s_rows unsorted_series)))
  /\ spec_projection unsorted_series
     = [ (Some (mkTs (mkDate 2023 1 31) 0 None), 1%float);
         (Some (mkTs (mkDate 2023 2 28) 0 None), 2%float) ]
  /\ fst (es_get None w1)
     <> Ok (Some (mkSeries (Some "ES") (spec_projection unsorted_series))).
Proof.
  cbv zeta.
  assert (Hget : fst (es_get None
                        (snd (es_put unsorted_series
                                (world_at t_2024_01_15 ∅ gateway_down))))
                 = Ok (Some (mkSeries (Some "ES") (s_rows unsorted_series))))
    by (vm_compute; reflexivity).
  assert (Hspec : spec_projection unsorted_series
                  = [ (Some (mkTs (mkDate 2023 1 31) 0 None), 1%float);
                      (Some (mkTs (mkDate 2023 2 28) 0 None), 2%float) ])
    by (vm_compute; reflexivity).
  split_and!.
  - vm_compute. reflexivity.
  - exact Hget.
  - exact Hspec.
  - rewrite Hget, Hspec. simpl. intros [=].
Qed.

Lemma forallb_filter {A} (p : A -> bool) (l : list A) :
  forallb p (List.filter p l) = true.
Proof.
  induction l as [|a l IH]; simpl; [done|].
  destruct (p a) eqn:Hp; simpl; [by rewrite Hp|done].
Qed.

Lemma astype_float_stored (rows : list (index_cell * float)) :
  forallb index_notna rows = true ->
  astype_float
    (List.filter (fun r => match fst r with Some _ => true | None => false end)
       (zip (map fst rows) (map (fun r => CNum (snd r)) rows)))
  = Ok rows.
Proof.
  induction rows as [|[i v] rows IH]; simpl; [done|].
  intros [Hi Hrows]%andb_prop. unfold index_notna in Hi. simpl in Hi.
  destruct i as [t|]; [|done]. simpl. by rewrite IH.
Qed.

Lemma ts_ltb_trans (a b c : Timestamp) :
  ts_ltb a b = true -> ts_ltb b c = true -> ts_ltb a c = true.
Proof.
  rewrite !naive_ltb_spec, !negb_true_iff. intros H1 H2.
  apply not_true_iff_false in H1, H2. apply not_true_iff_false.
  rewrite naive_leb_spec in *. lia.
Qed.

Lemma ts_ltb_not_same (a b : Timestamp) : ts_ltb a b = true -> same_stamp a b = false.
Proof.
  unfold ts_ltb, same_stamp. by destruct (naive_compare a b).
Qed.

Lemma strictly_increasing_tail (r : Timestamp * float) (l : list (Timestamp * float)) :
  strictly_increasing (r :: l) = true ->
  strictly_increasing l = true /\ Forall (fun r' => ts_ltb (fst r) (fst r') = true) l.
Proof.
  revert r. induction l as [|r' l IH]; intros r; simpl; [done|].
  intros [Hlt Hrest]%andb_prop. split; [exact Hrest|].
  constructor; [exact Hlt|].
  destruct (IH r' Hrest) as [_ Hall].
  eapply Forall_impl; [exact Hall|]. simpl. intros x Hx.
  by eapply ts_ltb_trans.
Qed.

Lemma stable_sort_sorted (l : list (Timestamp * float)) :
  strictly_increasing l = true -> stable_sort l = l.
Proof.
  unfold stable_sort. induction l as [|r l IH]; [done|].
  intros Hinc. destruct (strictly_increasing_tail r l Hinc) as [Hl Hall].
  simpl. rewrite (IH Hl). destruct l as [|r' l']; [done|].
  simpl. inversion Hall as [|? ? Hlt _]; subst.
  by rewrite (ts_ltb_leb _ _ Hlt).
Qed.

Lemma drop_duplicated_sorted (l : list (Timestamp * float)) :
  strictly_increasing l = true -> drop_duplicated_keep_last l = l.
Proof.
  induction l as [|r l IH]; [done|].
  intros Hinc. destruct (strictly_increasing_tail r l Hinc) as [Hl Hall].
  simpl. rewrite (IH Hl).
  replace (existsb _ l) with false; [done|].
  symmetry. apply not_true_iff_false. intros (x & Hin & Hx)%existsb_exists.
  rewrite Forall_forall in Hall. apply list_elem_of_In in Hin.
  specialize (Hall x Hin). apply ts_ltb_not_same in Hall. congruence.
Qed.

Lemma valid_rows_stored (rows : list (index_cell * float)) :
  forallb index_notna rows = true ->
  map (fun r => (Some (fst r), snd r)) (valid_rows rows) = rows.
Proof.
  induction rows as [|[i v] rows IH]; simpl; [done|].
  intros [Hi Hrows]%andb_prop. destruct i as [t|]; [|done].
  unfold valid_rows in *. simpl. by rewrite IH.
Qed.

Lemma valid_rows_filter (rows : list (index_cell * float)) :
  valid_rows (List.filter index_notna rows) = valid_rows rows.
Proof.
  unfold valid_rows. induction rows as [|[i v] rows IH]; [done|].
  destruct i as [t|]; cbn; by rewrite <- IH.
Qed.

Lemma put_cache_stores `{Md5} (series : Series)
    (symbol instrument_type what_to_show bar_size : string) (use_rth : bool)
    (start_date end_date : stamp) (w : world) :
  let path := cache_file_name symbol instrument_type what_to_show bar_size
                use_rth start_date end_date in
  stored_rows series <> [] ->
  put_cache series symbol instrument_type what_to_show bar_size use_rth
    start_date end_date w
  = (Ok (Some path),
     set_fs (<[path := mkFile (w_clock w)
                         (Parquet (to_frame (mkSeries (s_name series)
                                               (stored_rows series))))]> (w_fs w))
            (log_event (EvCacheWrite path) w)).
Proof.
  intros path Hne. unfold put_cache.
  assert (H1 : series_empty series = false).
  { unfold series_empty. destruct (s_rows series) eqn:Hr; [|done].
    unfold stored_rows in Hne. by rewrite Hr in Hne. }
  assert (H2 : series_empty (dropna series) = false).
  { unfold series_empty, dropna. simpl.
    destruct (List.filter value_notna (s_rows series)) eqn:Hr; [|done].
    unfold stored_rows in Hne. by rewrite Hr in Hne. }
  assert (H3 : series_empty (drop_nat_index (dropna series)) = false).
  { unfold series_empty, drop_nat_index, dropna. simpl.
    fold (stored_rows series). by destruct (stored_rows series). }
  rewrite H1, H2, H3. reflexivity.
Qed.

(** C5, amended. For a series that [put_cache] accepts, a put followed by
    a get with the same key fields, the file still being fresh, returns
    the rows of the original that have a non-null value and a valid
    timestamp, in their original order and with their duplicates, under
    the normalized symbol as name; when these rows are strictly
    increasing in time, this is the non-null, de-duplicated, time-sorted
    projection of the original. *)
Theorem put_get_round_trip `{Md5} (series : Series)
    (symbol instrument_type what_to_show bar_size : string) (use_rth : bool)
    (start_date end_date : stamp) (now : option Timestamp)
    (w : world) (later : Z) :
  let path := cache_file_name symbol instrument_type what_to_show bar_size
                use_rth start_date end_date in
  let put := put_cache series symbol instrument_type what_to_show bar_size
               use_rth start_date end_date w in
  stored_rows series <> [] ->
  _is_expired (w_clock w) later (applicable_ttl start_date end_date now later)
  = false ->
  fst put = Ok (Some path)
  /\ fst (get_cached symbol instrument_type what_to_show bar_size use_rth
            start_date end_date now (set_clock later (snd put)))
     = Ok (Some (mkSeries (Some (PyStr.upper (PyStr.strip symbol)))
                   (stored_rows series)))
  /\ (strictly_increasing (valid_rows (stored_rows series)) = true ->
      stored_rows series = spec_projection series).
Proof.
  intros path put Hne Hfresh. subst put.
  rewrite (put_cache_stores series _ _ _ _ _ _ _ w Hne). fold path.
  split_and!; [reflexivity | |].
  - cbn [fst snd].
    erewrite get_cached_present; last first.
    { fold path. cbn [w_fs set_clock set_fs log_event]. apply lookup_insert_eq. }
    cbv zeta. cbn [f_mtime w_clock set_clock set_fs log_event f_content].
    rewrite Hfresh. unfold safe_read_of.
    assert (Hfe : frame_empty (to_frame (mkSeries (s_name series) (stored_rows series)))
                  = false).
    { unfold frame_empty, to_frame. simpl. by destruct (stored_rows series). }
    rewrite Hfe. cbn [to_frame fr_columns fr_index frame_column s_rows].
    change (String.eqb "value" "value") with true. cbn iota.
    rewrite astype_float_stored by apply forallb_filter.
    reflexivity.
  - intros Hinc. unfold spec_projection.
    unfold stored_rows in Hinc. rewrite valid_rows_filter in Hinc.
    rewrite (stable_sort_sorted _ Hinc), (drop_duplicated_sorted _ Hinc).
    rewrite <- (valid_rows_filter (List.filter value_notna (s_rows series))).
    symmetry. apply valid_rows_stored, forallb_filter.
Qed.

(** A two-row series, one row of which is null, stored and read back an
    hour later. *)
Lemma put_get_round_trip_witness :
  let series := mkSeries None
                  [ (Some (mkTs (mkDate 2023 1 31) 0 None), 1%float);
                    (Some (mkTs (mkDate 2023 2 28) 0 None), nan) ] in
  let w := world_at t_2024_01_15 ∅ gateway_down in
  fst (es_put series w) = Ok (Some es_path)
  /\ fst (es_get None (set_clock (t_2024_01_15 + NANOS_PER_HOUR)
                         (snd (es_put series w))))
     = Ok (Some (mkSeries (Some "ES") (stored_rows series)))
  /\ (strictly_increasing (valid_rows (stored_rows series)) = true ->
      stored_rows series = spec_projection series).
Proof.
  cbv zeta.
  refine (@put_get_round_trip md5_plain _ "ES" "futures" "TRADES" "1 month" true
            (mkTs (mkDate 2023 1 1) 0 None) (mkTs (mkDate 2023 6 30) 0 None) None
            (world_at t_2024_01_15 ∅ gateway_down)
            (t_2024_01_15 + NANOS_PER_HOUR) _ _).
  - vm_compute. discriminate.
  - vm_compute. reflexivity.
Defined.

(** ** fetch_series: input validation *)

Lemma lstrip_all_space (s : string) : PyStr.all_space s = true -> PyStr.lstrip s = "".
Proof.
  induction s as [|c s IH]; simpl; [done|].
  intros [Hc Hs]%andb_prop. rewrite Hc. by apply IH.
Qed.

Lemma blank_symbol (s : string) :
  PyStr.all_space s = true -> PyStr.truthy (PyStr.upper (PyStr.strip s)) = false.
Proof.
  intros Hs. unfold PyStr.strip. by rewrite lstrip_all_space.
Qed.

(** The early returns of [fetch_series]. A request with an empty or
    blank symbol, with a date on which [pd.Timestamp] raises, or with two
    dates that it turns into timestamps of one kind (both naive or both
    aware) of which the start is after the end, returns the empty series
    and leaves the world as it was: nothing is read from or written to
    the cache directory, no gateway call is made, and the log of side
    effects is unchanged. *)
Lemma fetch_series_rejects_invalid_input `{Md5} `{Resolver} `{SortIndex}
    (symbol instrument_type_ : string) (start_date end_date : date_arg)
    (profile : option InstrumentProfile) (what_to_show : option string)
    (identity : contract_identity) (w : world) :
  PyStr.all_space symbol = true
  \/ start_date = DateUnparsable
  \/ end_date = DateUnparsable
  \/ (exists start_ts end_ts,
        start_date = DateValue start_ts /\ end_date = DateValue end_ts
        /\ inverted_range start_ts end_ts) ->
  fetch_series symbol instrument_type_ start_date end_date profile what_to_show
    identity w
  = (Ok empty_series, w).
Proof.
  unfold fetch_series.
  destruct (PyStr.truthy (PyStr.upper (PyStr.strip symbol))) eqn:Hsym;
    [|reflexivity]. cbn [negb].
  intros [Hblank | [-> | [-> | (s & e & -> & -> & Hinv)]]].
  - by rewrite blank_symbol in Hsym.
  - reflexivity.
  - simpl. by destruct start_date.
  - simpl. unfold inverted_range in Hinv. by rewrite Hinv.
Qed.

(** A blank symbol; an unparsable end date; and a range from 2024-03-01
    back to 2024-01-01. *)
Lemma fetch_series_rejects_invalid_input_witness :
  let w := world_at t_2024_01_15 ∅ gateway_down in
  @fetch_series md5_plain resolver_any sort_index_stable "  " "fx"
    (DateValue (mkTs (mkDate 2024 1 1) 0 None))
    (DateValue (mkTs (mkDate 2024 3 1) 0 None)) None None None w
  = (Ok empty_series, w)
  /\ @fetch_series md5_plain resolver_any sort_index_stable "EURUSD" "fx"
       (DateValue (mkTs (mkDate 2024 1 1) 0 None)) DateUnparsable None None None w
     = (Ok empty_series, w)
  /\ @fetch_series md5_plain resolver_any sort_index_stable "EURUSD" "fx"
       (DateValue (mkTs (mkDate 2024 3 1) 0 None))
       (DateValue (mkTs (mkDate 2024 1 1) 0 None)) None None None w
     = (Ok empty_series, w).
Proof.
  cbv zeta. split_and!.
  - apply (@fetch_series_rejects_invalid_input md5_plain resolver_any sort_index_stable).
    left. reflexivity.
  - apply (@fetch_series_rejects_invalid_input md5_plain resolver_any sort_index_stable).
    right. right. left. reflexivity.
  - apply (@fetch_series_rejects_invalid_input md5_plain resolver_any sort_index_stable).
    right. right. right. eexists _, _. split_and!; reflexivity.
Defined.

(** C8 at a start date that [pd.Timestamp] reads as [NaT] ([None], the
    empty text, ["NaT"]). The guard of [fetch_series] catches the dates
    on which [pd.Timestamp] raises and misses this one: nothing is
    raised, the test for a start after the end is false, and the request
    goes on to the cache and to the gateway. Here the cache directory is
    empty and the gateway is down: the request looks up its three
    candidates and tries to connect before it returns the empty
    series. *)
Theorem fetch_series_nat_date_not_rejected :
  let w := world_at t_2024_01_15 ∅ gateway_down in
  let run := @fetch_series md5_plain resolver_any sort_index_stable "EURUSD" "fx"
               DateNaT (DateValue (mkTs (mkDate 2024 3 1) 0 None)) None None None w in
  fst run = Ok empty_series
  /\ w_log (snd run)
     = [ EvCacheStat "ibkr_EURUSD|fx|MIDPOINT|1 day|all|NaT|2024-03-01.parquet";
         EvCacheStat "ibkr_EURUSD|fx|BID|1 day|all|NaT|2024-03-01.parquet";
         EvCacheStat "ibkr_EURUSD|fx|ASK|1 day|all|NaT|2024-03-01.parquet";
         EvConnect ]
  /\ w_calls (snd run) = 1%nat
  /\ snd run <> w.
Proof.
  cbv zeta.
  assert (Hlog : w_log (snd (@fetch_series md5_plain resolver_any sort_index_stable
                               "EURUSD" "fx" DateNaT
                               (DateValue (mkTs (mkDate 2024 3 1) 0 None))
                               None None None
                               (world_at t_2024_01_15 ∅ gateway_down)))
                 = [ EvCacheStat "ibkr_EURUSD|fx|MIDPOINT|1 day|all|NaT|2024-03-01.parquet";
                     EvCacheStat "ibkr_EURUSD|fx|BID|1 day|all|NaT|2024-03-01.parquet";
                     EvCacheStat "ibkr_EURUSD|fx|ASK|1 day|all|NaT|2024-03-01.parquet";
                     EvConnect ]) by (vm_compute; reflexivity).
  split_and!.
  - vm_compute. reflexivity.
  - exact Hlog.
  - vm_compute. reflexivity.
  - intros Heq. rewrite Heq in Hlog. discriminate Hlog.
Qed.

(** The same guard on a start after the end of which one bound is naive
    and the other aware: the comparison is outside the [try], it raises
    [TypeError], and the error reaches the caller. *)
Example fetch_series_mixed_bounds_raise :
  let w := world_at t_2024_01_15 ∅ gateway_down in
  @fetch_series md5_plain resolver_any sort_index_stable "EURUSD" "fx"
    (DateValue (mkTs (mkDate 2024 3 1) 0 None))
    (DateValue (mkTs (mkDate 2024 1 1) 0 (Some 0))) None None None w
  = (Raise (mkExn TypeError "Cannot compare tz-naive and tz-aware timestamps"), w).
Proof. reflexivity. Qed.

(** ** fetch_series: the two passes of an accepted request *)

(** An accepted request is the cache-read pass followed, when it finds
    nothing, by the live-fetch pass. *)
Lemma fetch_series_accepted `{Md5} `{Resolver} `{SortIndex}
    (symbol instrument_type_ : string) (start_date end_date : date_arg)
    (profile : option InstrumentProfile) (what_to_show : option string)
    (identity : contract_identity) (p : plan) (w : world) :
  accepted symbol instrument_type_ start_date end_date profile what_to_show
    identity p ->
  fetch_series symbol instrument_type_ start_date end_date profile what_to_show
    identity w
  = match cache_read_pass (pl_sym p) (pl_profile p) (pl_start p) (pl_end p)
            (pl_chain p) w with
    | (Ok (Some c), w1) => (Ok c, w1)
    | (Ok None, w1) =>
        live_fetch_pass (pl_contract p) (pl_sym p) (pl_profile p) (pl_start p)
          (pl_end p) (pl_chain p) w1
    | (Raise e, w1) => (Raise e, w1)
    end.
Proof.
  intros (Hsym & Htruthy & Hstart & Hend & Hcmp & Hprof & Hchain & Hne & Hres).
  unfold fetch_series. rewrite <- Hsym, Htruthy, Hstart, Hend, Hcmp. cbn [negb].
  assert (Hp : match profile with
               | Some p0 => Ok p0
               | None => get_profile instrument_type_
               end = Ok (pl_profile p)).
  { destruct profile; [by subst|done]. }
  rewrite Hp. rewrite <- Hchain.
  assert (Hbody :
    match pl_chain p with
    | [] => ret empty_series
    | _ :: _ =>
        match resolve_contract (pl_sym p) (instrument_type (pl_profile p)) identity with
        | Ok contract =>
            cached <- cache_read_pass (pl_sym p) (pl_profile p) (pl_start p)
                        (pl_end p) (pl_chain p) ;;
            match cached with
            | Some c => ret c
            | None =>
                live_fetch_pass contract (pl_sym p) (pl_profile p) (pl_start p)
                  (pl_end p) (pl_chain p)
            end
        | Raise e => if isinstance e IBKRContractError then ret empty_series else raise e
        end
    end w
    = match cache_read_pass (pl_sym p) (pl_profile p) (pl_start p) (pl_end p)
              (pl_chain p) w with
      | (Ok (Some c), w1) => (Ok c, w1)
      | (Ok None, w1) =>
          live_fetch_pass (pl_contract p) (pl_sym p) (pl_profile p) (pl_start p)
            (pl_end p) (pl_chain p) w1
      | (Raise e, w1) => (Raise e, w1)
      end).
  { destruct (pl_chain p) eqn:Hc; [done|]. rewrite Hres. unfold bind.
    destruct (cache_read_pass _ _ _ _ _ w) as [[[c|]|e] w1]; reflexivity. }
  exact Hbody.
Qed.

(** ** fetch_series: the cache-read pass *)

Lemma safe_read_of_fst (path1 path2 : string) (c : file_content) (w1 w2 : world) :
  fst (safe_read_of path1 c w1) = fst (safe_read_of path2 c w2).
Proof.
  unfold safe_read_of. destruct c as [e|fr].
  - by destruct (read_error_caught e).
  - destruct (frame_empty fr); [done|].
    destruct (frame_column "value" (fr_columns fr)); [|done].
    by destruct (astype_float _).
Qed.

Lemma safe_read_of_effect (path : string) (c : file_content) (w : world) :
  let r := safe_read_of path c w in
  (snd r = log_event (EvCacheRead path) w
   \/ (fst r = Ok None
       /\ snd r = unlinked path (log_event (EvCacheRead path) w))).
Proof.
  unfold safe_read_of. destruct c as [e|fr]; cbv zeta.
  - destruct (read_error_caught e); [right|left]; done.
  - destruct (frame_empty fr); [by left|].
    destruct (frame_column "value" (fr_columns fr)); [|by right].
    destruct (astype_float _); by left.
Qed.

Section CachePass.
Context `{Md5}.
Variable p : plan.

(** Two candidates with one cache file have one lookup. *)
Lemma cache_lookup_same_path (c c' : string) (w : world) :
  candidate_path p c = candidate_path p c' ->
  cache_lookup p c w = cache_lookup p c' w.
Proof.
  unfold candidate_path, cache_lookup, get_cached. by intros ->.
Qed.

(** The result of a lookup depends on the file under its path and on the
    clock only. *)
Lemma cache_lookup_local (c : string) (w1 w2 : world) :
  w_fs w1 !! candidate_path p c = w_fs w2 !! candidate_path p c ->
  w_clock w1 = w_clock w2 ->
  fst (cache_lookup p c w1) = fst (cache_lookup p c w2).
Proof.
  intros Hfs Hclock. unfold cache_lookup.
  destruct (w_fs w2 !! candidate_path p c) as [f|] eqn:Hf.
  - rewrite (get_cached_present _ _ _ _ _ _ _ _ w1 f) by exact Hfs.
    rewrite (get_cached_present _ _ _ _ _ _ _ _ w2 f) by exact Hf.
    cbv zeta. rewrite Hclock.
    destruct (_is_expired _ _ _); [done|].
    pose proof (safe_read_of_fst
                  (cache_file_name (pl_sym p) (instrument_type (pl_profile p)) c
                     (bar_size (pl_profile p)) (use_rth (pl_profile p))
                     (pl_start p) (pl_end p))
                  (cache_file_name (pl_sym p) (instrument_type (pl_profile p)) c
                     (bar_size (pl_profile p)) (use_rth (pl_profile p))
                     (pl_start p) (pl_end p))
                  (f_content f)
                  (log_event (EvCacheStat (candidate_path p c)) w1)
                  (log_event (EvCacheStat (candidate_path p c)) w2)) as Hfst.
    unfold candidate_path in *.
    destruct (safe_read_of _ _ (log_event _ w1)) as [[[s1|]|e1] w1'];
      destruct (safe_read_of _ _ (log_event _ w2)) as [[[s2|]|e2] w2'];
      simpl in Hfst; by inversion Hfst.
  - rewrite (get_cached_absent _ _ _ _ _ _ _ _ w1) by exact Hfs.
    by rewrite (get_cached_absent _ _ _ _ _ _ _ _ w2) by exact Hf.
Qed.

(** A lookup touches the cache directory only, and the only change it
    can make there is to delete its own file, in which case it returns
    absent. *)
Lemma cache_lookup_effect (c : string) (w : world) :
  cache_activity_only w (snd (cache_lookup p c w))
  /\ (w_fs (snd (cache_lookup p c w)) = w_fs w
      \/ (fst (cache_lookup p c w) = Ok None
          /\ w_fs (snd (cache_lookup p c w)) = delete (candidate_path p c) (w_fs w))).
Proof.
  unfold cache_lookup, cache_activity_only.
  destruct (w_fs w !! candidate_path p c) as [f|] eqn:Hf.
  - rewrite (get_cached_present _ _ _ _ _ _ _ _ w f) by exact Hf. cbv zeta.
    fold (candidate_path p c).
    destruct (_is_expired _ _ _).
    + simpl. split; [split_and!; [done | done | done |]|].
      * eexists [_; _]. rewrite <- app_assoc. done.
      * by right.
    + pose proof (safe_read_of_effect (candidate_path p c) (f_content f)
                    (log_event (EvCacheStat (candidate_path p c)) w)) as Heff.
      cbv zeta in Heff.
      destruct (safe_read_of _ _ _) as [r w2] eqn:Hread. simpl in Heff.
      assert (Hact : w_clock w2 = w_clock w /\ w_gateway w2 = w_gateway w
                     /\ w_calls w2 = w_calls w
                     /\ (exists evs, w_log w2 = (w_log w ++ evs)%list
                                     /\ forallb is_cache_event evs = true)
                     /\ (w_fs w2 = w_fs w
                         \/ (r = Ok None
                             /\ w_fs w2 = delete (candidate_path p c) (w_fs w)))).
      { destruct Heff as [-> | [-> ->]]; simpl.
        - split_and!; [done | done | done | | by left].
          eexists [_; _]. rewrite <- app_assoc. done.
        - split_and!; [done | done | done | | by right].
          eexists [_; _; _]. rewrite <- !app_assoc. done. }
      destruct Hact as (? & ? & ? & ? & Hfs).
      destruct r as [[s|]|e]; simpl; (split; [done|]).
      * destruct Hfs as [?|[? ?]]; [by left|done].
      * exact Hfs.
      * destruct Hfs as [?|[? ?]]; [by left|done].
  - rewrite (get_cached_absent _ _ _ _ _ _ _ _ w) by exact Hf. simpl.
    split; [split_and!; [done | done | done |]|by left]. by eexists [_].
Qed.

Lemma after_misses_refl (w : world) : after_misses p w w.
Proof.
  split; [|by left]. split_and!; [done | done | done |].
  exists []. by rewrite app_nil_r.
Qed.

Lemma after_misses_lookup (w0 w : world) (c : string) :
  after_misses p w0 w -> fst (cache_lookup p c w) = fst (cache_lookup p c w0).
Proof.
  intros [(Hclock & _) Hfs].
  destruct (Hfs (candidate_path p c)) as [Heq | [Hnone Hdead]].
  - by apply cache_lookup_local.
  - rewrite (Hdead c eq_refl). unfold cache_lookup.
    by rewrite get_cached_absent by exact Hnone.
Qed.

Lemma after_misses_step (w0 w : world) (c : string) :
  after_misses p w0 w -> after_misses p w0 (snd (cache_lookup p c w)).
Proof.
  intros Hinv. pose proof (after_misses_lookup w0 w c Hinv) as Hsame.
  destruct Hinv as [(Hclock & Hgw & Hcalls & evs & Hlog & Hevs) Hfs].
  destruct (cache_lookup_effect c w)
    as [(Hclock' & Hgw' & Hcalls' & evs' & Hlog' & Hevs') Hfs'].
  split.
  - split_and!; [congruence | congruence | congruence |].
    exists (evs ++ evs')%list. split.
    + by rewrite Hlog', Hlog, app_assoc.
    + by rewrite forallb_app, Hevs, Hevs'.
  - intros q. destruct Hfs' as [-> | [Hnone ->]]; [apply Hfs|].
    destruct (decide (candidate_path p c = q)) as [<- | Hne].
    + right. split; [apply lookup_delete_eq|].
      intros c' Hc'. rewrite (cache_lookup_same_path c' c w0 Hc').
      by rewrite <- Hsame.
    + rewrite lookup_delete_ne by done. apply Hfs.
Qed.

(** The cache-read pass over candidates that miss, up to the first
    candidate that hits. *)
Lemma cache_read_pass_first_hit (w0 : world) (pre post : list string) (c : string)
    (srs : Series) (w : world) :
  after_misses p w0 w ->
  Forall (fun c' => cache_miss p c' w0) pre ->
  fresh_hit p c w0 srs ->
  exists w',
    cache_read_pass (pl_sym p) (pl_profile p) (pl_start p) (pl_end p)
      (pre ++ c :: post) w
    = (Ok (Some (set_name (pl_sym p) srs)), w')
    /\ after_misses p w0 w'.
Proof.
  intros Hinv Hpre [Hhit Hne].
  revert w Hinv. induction Hpre as [|c' pre Hmiss _ IH]; intros w Hinv.
  - simpl. unfold bind. fold (cache_lookup p c).
    pose proof (after_misses_lookup w0 w c Hinv) as Hsame.
    pose proof (after_misses_step w0 w c Hinv) as Hstep.
    destruct (cache_lookup p c w) as [r w1]. simpl in *.
    rewrite Hhit in Hsame. subst r. rewrite Hne. simpl. by exists w1.
  - simpl. unfold bind. fold (cache_lookup p c').
    pose proof (after_misses_lookup w0 w c' Hinv) as Hsame.
    pose proof (after_misses_step w0 w c' Hinv) as Hstep.
    destruct (cache_lookup p c' w) as [r w1]. simpl in *.
    destruct Hmiss as [Hnone | (s' & Hsome & Hempty)].
    + rewrite Hnone in Hsame. subst r. by apply IH.
    + rewrite Hsome in Hsame. subst r. rewrite Hempty. simpl. by apply IH.
Qed.

(** The cache-read pass makes no gateway call, whatever it finds. *)
Lemma cache_read_pass_cache_only (chain : list string) (w : world) :
  cache_activity_only w
    (snd (cache_read_pass (pl_sym p) (pl_profile p) (pl_start p) (pl_end p) chain w)).
Proof.
  revert w. induction chain as [|c chain IH]; intros w.
  - destruct (after_misses_refl w) as [Hact _]. exact Hact.
  - simpl. unfold bind. fold (cache_lookup p c).
    destruct (cache_lookup_effect c w) as [Hact _].
    destruct (cache_lookup p c w) as [[[s|]|e] w1]; simpl in *; try exact Hact.
    + destruct (series_empty s); simpl; [|exact Hact].
      specialize (IH w1).
      destruct Hact as (H1 & H2 & H3 & evs & H4 & H5).
      destruct IH as (H1' & H2' & H3' & evs' & H4' & H5').
      split_and!; [congruence | congruence | congruence |].
      exists (evs ++ evs')%list.
      by rewrite H4', H4, app_assoc, forallb_app, H5, H5'.
    + specialize (IH w1).
      destruct Hact as (H1 & H2 & H3 & evs & H4 & H5).
      destruct IH as (H1' & H2' & H3' & evs' & H4' & H5').
      split_and!; [congruence | congruence | congruence |].
      exists (evs ++ evs')%list.
      by rewrite H4', H4, app_assoc, forallb_app, H5, H5'.
Qed.

(** The series that a lookup returns is named by the normalized symbol. *)
Lemma cache_lookup_name (c : string) (w : world) (srs : Series) :
  fst (cache_lookup p c w) = Ok (Some srs) ->
  s_name srs = Some (PyStr.upper (PyStr.strip (pl_sym p))).
Proof.
  unfold cache_lookup.
  destruct (w_fs w !! candidate_path p c) as [f|] eqn:Hf.
  - rewrite (get_cached_present _ _ _ _ _ _ _ _ w f) by exact Hf. cbv zeta.
    destruct (_is_expired _ _ _); [done|].
    destruct (safe_read_of _ _ _) as [[[s|]|e] w2]; simpl; try done.
    by intros [= <-].
  - by rewrite (get_cached_absent _ _ _ _ _ _ _ _ w) by exact Hf.
Qed.

End CachePass.

Example fx_plan_accepted :
  @accepted resolver_any " eurusd" "FX" (DateValue fx_start) (DateValue fx_end)
    None None None fx_plan.
Proof. unfold accepted. split_and!; try reflexivity. discriminate. Qed.

(** When the candidates before the first hit are misses, the result of
    the request is the cached series of that candidate, and the world
    has seen cache activity only: no gateway call is made and no session
    is opened. *)
Lemma fetch_series_cache_first `{Md5} `{Resolver} `{SortIndex}
    (symbol instrument_type_ : string) (start_date end_date : date_arg)
    (profile : option InstrumentProfile) (what_to_show : option string)
    (identity : contract_identity) (p : plan) (pre post : list string)
    (c : string) (srs : Series) (w : world) :
  accepted symbol instrument_type_ start_date end_date profile what_to_show
    identity p ->
  pl_chain p = (pre ++ c :: post)%list ->
  Forall (fun c' => cache_miss p c' w) pre ->
  fresh_hit p c w srs ->
  exists w',
    fetch_series symbol instrument_type_ start_date end_date profile what_to_show
      identity w
    = (Ok srs, w')
    /\ cache_activity_only w w'
    /\ List.filter is_gateway_event (w_log w') = List.filter is_gateway_event (w_log w).
Proof.
  intros Hacc Hchain Hpre Hhit.
  rewrite (fetch_series_accepted _ _ _ _ _ _ _ p w Hacc). rewrite Hchain.
  destruct (cache_read_pass_first_hit p w pre post c srs w
              (after_misses_refl p w) Hpre Hhit) as (w' & -> & [Hact _]).
  assert (Hname : set_name (pl_sym p) srs = srs).
  { destruct Hhit as [Hlookup _]. apply cache_lookup_name in Hlookup.
    destruct Hacc as (Hsym & _). rewrite Hsym in Hlookup.
    rewrite symbol_normal_form_idem, <- Hsym in Hlookup.
    destruct srs as [name rows]. simpl in Hlookup. subst name. reflexivity. }
  rewrite Hname.
  exists w'. split_and!; [done | done |].
  destruct Hact as (_ & _ & _ & evs & -> & Hevs).
  rewrite List.filter_app.
  replace (List.filter is_gateway_event evs) with (@nil event);
    [by rewrite app_nil_r|].
  clear -Hevs. induction evs as [|ev evs IH]; [done|].
  simpl in *. apply andb_prop in Hevs as [Hev Hevs].
  destruct ev; simpl in *; try done; by apply IH.
Qed.

(** C1 at a cache directory in which the entry of the first candidate
    holds text in its value column and the entry of the second candidate
    is a fresh hit. The lookup of MIDPOINT raises out of [_safe_read]
    ([astype(float)] is outside its [try]), the cache-read pass has no
    handler, and the request raises instead of returning the cached
    series of BID. *)
Theorem fetch_series_text_entry_raises :
  let w := world_at t_2024_01_15
             (<[fx_path "MIDPOINT" := text_entry t_2024_01_15]>
                {[ fx_path "BID" := good_entry t_2024_01_15 ]})
             gateway_down in
  @fresh_hit md5_plain fx_plan "BID" w (mkSeries (Some "EURUSD") [fx_row])
  /\ fst (@cache_lookup md5_plain fx_plan "MIDPOINT" w)
     = Raise (mkExn ValueError "could not convert string to float")
  /\ fst (fx_fetch w) = Raise (mkExn ValueError "could not convert string to float")
  /\ w_calls (snd (fx_fetch w)) = 0%nat.
Proof.
  cbv zeta. split_and!.
  - split; vm_compute; reflexivity.
  - vm_compute. reflexivity.
  - vm_compute. reflexivity.
  - vm_compute. reflexivity.
Qed.

(** The same request when the first two entries are absent and stale:
    the third candidate's entry is returned. *)
Example fetch_series_cache_first_ex :
  let w := world_at t_2024_01_15 {[ fx_path "ASK" := good_entry t_2024_01_15 ]}
             gateway_down in
  fst (fx_fetch w) = Ok (mkSeries (Some "EURUSD") [fx_row])
  /\ w_calls (snd (fx_fetch w)) = 0%nat
  /\ w_log (snd (fx_fetch w))
     = [ EvCacheStat (fx_path "MIDPOINT"); EvCacheStat (fx_path "BID");
         EvCacheStat (fx_path "ASK"); EvCacheRead (fx_path "ASK") ].
Proof. cbv zeta. split_and!; vm_compute; reflexivity. Qed.

(** ** fetch_series: the live-fetch pass *)







(** What [_request_bars] raises: a refused connection is a connection
    error and the session is not opened. *)
Lemma request_bars_connection_refused (contract : Contract) (profile : InstrumentProfile)
    (what_to_show : string) (start_ts end_ts : stamp) (w : world) (msg : string) :
  gw_connect (w_gateway w) (w_calls w) = Raise (mkExn ConnectionRefusedError msg) ->
  _request_bars contract profile what_to_show start_ts end_ts w
  = (Raise (mkExn IBKRConnectionError "IB Gateway not running"),
     count_call (log_event EvConnect w)).
Proof.
  intros Hc. unfold _request_bars, _connect_ib, try_except, gateway_call, bind.
  rewrite Hc. reflexivity.
Qed.

(** An empty answer to the request for bars is a no-data error, and the
    session is closed. *)
Lemma request_bars_no_bars (contract qualified : Contract) (profile : InstrumentProfile)
    (what_to_show : string) (start_ts end_ts : Timestamp) (w : world)
    (accounts : list string) (others : list (option Contract)) :
  gw_connect (w_gateway w) (w_calls w) = Ok accounts ->
  gw_qualifyContracts (w_gateway w) (S (w_calls w)) contract
  = Ok (Some qualified :: others) ->
  (forall r, gw_reqHistoricalData (w_gateway w) (S (S (w_calls w))) r = Ok []) ->
  exists w',
    _request_bars contract profile what_to_show start_ts end_ts w
    = (Raise (mkExn IBKRNoDataError "No historical bars returned"), w')
    /\ last (w_log w') = Some EvDisconnect.
Proof.
  intros Hc Hq Hh.
  unfold _request_bars, _connect_ib, try_except, try_finally, gateway_call, bind.
  rewrite Hc. cbn [w_gateway w_calls count_call log_event ret].
  rewrite Hq. cbn [first_not_none].
  unfold _duration_for_request.
  destruct (String.eqb (instrument_type profile) "futures");
    unfold bind, _utcnow, gets; rewrite compute_duration_spec;
    cbn [of_outcome ret w_gateway w_calls count_call log_event w_clock];
    unfold bind; cbn [w_gateway w_calls count_call log_event ret];
    rewrite Hh; cbn; eexists; (split; [reflexivity|]);
    cbn [w_log log_event]; by rewrite last_snoc.
Qed.

(** A foreign exception is classified by its text. *)
Example classify_request_error_ex :
  classify_request_error
    (mkExn OtherException "Requested market data requires additional Permissions")
  = mkExn IBKREntitlementError "Requested market data requires additional Permissions"
  /\ classify_request_error
       (mkExn OtherException "No security definition has been found for the request")
     = mkExn IBKRContractError "No security definition has been found for the request"
  /\ classify_request_error (mkExn OtherException "HMDS query returned no data")
     = mkExn IBKRDataError "HMDS query returned no data".
Proof. split_and!; reflexivity. Qed.

(** The duration string computed for a request is the one sent to the
    gateway: when the session opens and the contract qualifies, the
    request for bars carries it. *)
Lemma request_bars_sends_duration (contract qualified : Contract)
    (profile : InstrumentProfile) (what_to_show : string)
    (start_ts end_ts : Timestamp) (w : world) (accounts : list string)
    (others : list (option Contract)) :
  gw_connect (w_gateway w) (w_calls w) = Ok accounts ->
  gw_qualifyContracts (w_gateway w) (S (w_calls w)) contract
  = Ok (Some qualified :: others) ->
  let anchor := duration_anchor profile end_ts w in
  let req := mkHistReq qualified
               (pretty (Z.max 1 (spec_years (ts_date start_ts) (ts_date anchor)))
                +:+ " Y")
               (bar_size profile) what_to_show (use_rth profile) in
  In (EvHistorical req)
     (w_log (snd (_request_bars contract profile what_to_show start_ts end_ts w))).
Proof.
  intros Hc Hq anchor req. subst req.
  unfold _request_bars, _connect_ib, try_except, try_finally, gateway_call, bind.
  rewrite Hc. cbn [w_gateway w_calls count_call log_event ret].
  rewrite Hq. cbn [first_not_none].
  unfold _duration_for_request, anchor, duration_anchor.
  destruct (String.eqb (instrument_type profile) "futures");
    unfold bind, _utcnow, gets; rewrite ?compute_duration_spec;
    cbn [of_outcome ret w_gateway w_calls count_call log_event w_clock];
    unfold bind; cbn [w_gateway w_calls count_call log_event ret w_clock];
    match goal with
    | |- context [gw_reqHistoricalData ?g ?n ?r] =>
        destruct (gw_reqHistoricalData g n r) as [[|b bars]|e]
    end; cbn; try destruct (isinstance _ _); cbn;
    rewrite ?in_app_iff; cbn; tauto.
Qed.

(** ** Connection manager: the reconnect loop *)

Example connect_from_init :
  let s0 := mkConn manager_init ∅
              (world_at t_2024_01_15 ∅ gateway_no_data_then_down) in
  fst (connect s0) = Ok 0%nat
  /\ self (snd (connect s0)) = mkManager (Some 0%nat) ["DU123"] 5 3 false false
  /\ is_connected (snd (connect s0)) = true
  /\ connect (snd (connect s0)) = (Ok 0%nat, snd (connect s0)).
Proof. cbv zeta. split_and!; vm_compute; reflexivity. Qed.

Lemma reconnect_step_fail (s : conn_state) (attempt : nat) (rest : list nat) :
  _ib (self s) = None ->
  is_raise (gw_connect (w_gateway (conn_world s)) (w_calls (conn_world s))) = true ->
  reconnect_attempts (attempt :: rest) s
  = reconnect_attempts rest (failed_attempt s attempt).
Proof.
  intros Hib Hfail. destruct s as [m objs w]. simpl in *.
  unfold bind, gets, lift_world, time_sleep, modify, try_except, connect, is_connected.
  simpl. rewrite Hib. simpl.
  unfold bind, gets, lift_world, gateway_call, set_ib_object, modify, try_except.
  simpl.
  destruct (gw_connect (w_gateway w) (w_calls w)) as [a|e]; [done|].
  simpl. unfold failed_attempt, attempt_events, log_event, count_call, set_clock.
  simpl. by rewrite <- !app_assoc.
Qed.

Lemma reconnect_step_ok (s : conn_state) (attempt : nat) (rest : list nat)
    (accounts : list string) :
  _ib (self s) = None ->
  gw_connect (w_gateway (conn_world s)) (w_calls (conn_world s)) = Ok accounts ->
  reconnect_attempts (attempt :: rest) s
  = (Ok tt, succeeded_attempt s attempt accounts).
Proof.
  intros Hib Hok. destruct s as [m objs w]. simpl in *.
  unfold bind, gets, lift_world, time_sleep, modify, try_except, connect, is_connected.
  simpl. rewrite Hib. simpl.
  unfold bind, gets, lift_world, gateway_call, set_ib_object, set_self, modify,
    try_except.
  simpl. rewrite Hok. simpl.
  unfold succeeded_attempt, attempt_events, log_event, count_call, set_clock.
  simpl. by rewrite <- !app_assoc.
Qed.

Lemma failed_attempts_frame (l : list nat) (s : conn_state) :
  let s' := foldl failed_attempt s l in
  self s' = self s
  /\ w_gateway (conn_world s') = w_gateway (conn_world s)
  /\ w_calls (conn_world s') = (w_calls (conn_world s) + length l)%nat
  /\ w_log (conn_world s')
     = (w_log (conn_world s)
        ++ flat_map (fun i => attempt_events (_reconnect_delay (self s)) i false) l)%list.
Proof.
  revert s. induction l as [|a l IH]; intros s; simpl.
  - split_and!; [done | done | lia | by rewrite app_nil_r].
  - destruct (IH (failed_attempt s a)) as (H1 & H2 & H3 & H4).
    split_and!.
    + by rewrite H1.
    + by rewrite H2.
    + rewrite H3. simpl. lia.
    + rewrite H4. simpl. by rewrite <- !app_assoc.
Qed.

(** When every connect fails, the loop makes every attempt of its list
    and returns. *)
Lemma reconnect_all_fail (l : list nat) (s : conn_state) :
  _ib (self s) = None ->
  (forall k, is_raise (gw_connect (w_gateway (conn_world s)) k) = true) ->
  reconnect_attempts l s = (Ok tt, foldl failed_attempt s l).
Proof.
  revert s. induction l as [|a l IH]; intros s Hib Hfail; [done|].
  rewrite reconnect_step_fail by done. cbn [foldl]. by apply IH.
Qed.

(** The loop stops at the first connect that succeeds. *)
Lemma reconnect_first_success (pre : list nat) (a : nat) (rest : list nat)
    (accounts : list string) (s : conn_state) :
  _ib (self s) = None ->
  (forall j, (j < length pre)%nat ->
     is_raise (gw_connect (w_gateway (conn_world s)) (w_calls (conn_world s) + j))
     = true) ->
  gw_connect (w_gateway (conn_world s)) (w_calls (conn_world s) + length pre)
  = Ok accounts ->
  reconnect_attempts (pre ++ a :: rest) s
  = (Ok tt, succeeded_attempt (foldl failed_attempt s pre) a accounts).
Proof.
  revert s. induction pre as [|b pre IH]; intros s Hib Hfail Hok;
    cbn [app length foldl] in *.
  - rewrite Nat.add_0_r in Hok. by apply reconnect_step_ok.
  - rewrite reconnect_step_fail; [|done|].
    + apply IH; [done| |].
      * intros j Hj. cbn [failed_attempt conn_world w_gateway w_calls].
        rewrite Nat.add_succ_l, <- Nat.add_succ_r. apply Hfail. lia.
      * cbn [failed_attempt conn_world w_gateway w_calls].
        by rewrite Nat.add_succ_l, <- Nat.add_succ_r.
    + specialize (Hfail 0%nat). rewrite Nat.add_0_r in Hfail. apply Hfail. lia.
Qed.

Lemma connect_attempts_app (l1 l2 : list event) :
  connect_attempts (l1 ++ l2) = (connect_attempts l1 + connect_attempts l2)%nat.
Proof. unfold connect_attempts. by rewrite List.filter_app, length_app. Qed.

Lemma connect_attempts_failed (d : Z) (l : list nat) :
  connect_attempts (flat_map (fun i => attempt_events d i false) l) = length l.
Proof.
  induction l as [|a l IH]; [done|].
  simpl. unfold connect_attempts in *. simpl. by rewrite IH.
Qed.

(** An unsolicited disconnect of a connected, hooked session whose
    manager is not already reconnecting: the handler clears the session,
    starts the worker, and the worker runs the loop and clears the flag. *)
Lemma unsolicited_disconnect_unfold (s : conn_state) (ib : nat) :
  _ib (self s) = Some ib ->
  ib_objects s !! ib = Some (mkIB true true) ->
  _manual_disconnect (self s) = false ->
  _reconnecting (self s) = false ->
  unsolicited_disconnect s
  = let s1 := mkConn (with_reconnecting true (with_accounts [] (with_ib None (self s))))
                     (<[ib := mkIB false true]> (ib_objects s))
                     (log_event EvSpawnReconnect (conn_world s)) in
    let '(r, s2) :=
      reconnect_attempts (seq 1 (_max_reconnect_attempts (self s))) s1 in
    (r, mkConn (with_reconnecting false (self s2)) (ib_objects s2) (conn_world s2)).
Proof.
  intros Hib Hobj Hman Hrec. destruct s as [m objs w]. simpl in *.
  unfold unsolicited_disconnect. simpl. rewrite Hib, Hobj. simpl.
  unfold bind, set_ib_object, modify, _on_disconnect. simpl. rewrite Hman.
  unfold bind, set_self, modify, gets, lift_world. simpl. rewrite Hrec. simpl.
  unfold _reconnect. simpl.
  destruct (reconnect_attempts _ _) as [r s2]. reflexivity.
Qed.

(** C9. A connected manager with three attempts configured, whose session
    is dropped without [disconnect()] having been called. When every
    connect fails, the loop sleeps [delay * 1], [delay * 2] and
    [delay * 3] seconds, each time followed by one connect attempt, makes
    exactly three attempts and then stops, leaving no session, no managed
    accounts and the reconnecting flag cleared. When the connect after
    [k < 3] failures succeeds, the loop stops there, after [k + 1]
    attempts, connected. *)
Theorem reconnect_policy (s : conn_state) (ib : nat) :
  _ib (self s) = Some ib ->
  ib_objects s !! ib = Some (mkIB true true) ->
  _manual_disconnect (self s) = false ->
  _reconnecting (self s) = false ->
  _max_reconnect_attempts (self s) = 3%nat ->
  let d := _reconnect_delay (self s) in
  let g := w_gateway (conn_world s) in
  let c := w_calls (conn_world s) in
  let log0 := w_log (conn_world s) in
  ((forall k, is_raise (gw_connect g k) = true) ->
   exists s',
     unsolicited_disconnect s = (Ok tt, s')
     /\ w_log (conn_world s')
        = (log0 ++ EvSpawnReconnect
                :: attempt_events d 1 false ++ attempt_events d 2 false
                ++ attempt_events d 3 false)%list
     /\ connect_attempts (w_log (conn_world s')) = (connect_attempts log0 + 3)%nat
     /\ _ib (self s') = None
     /\ _managed_accounts (self s') = []
     /\ _reconnecting (self s') = false
     /\ is_connected s' = false)
  /\ (forall (k : nat) (accounts : list string),
        (k < 3)%nat ->
        (forall j, (j < k)%nat -> is_raise (gw_connect g (c + j)) = true) ->
        gw_connect g (c + k) = Ok accounts ->
        exists s',
          unsolicited_disconnect s = (Ok tt, s')
          /\ w_log (conn_world s')
             = (log0 ++ EvSpawnReconnect
                     :: flat_map (fun i => attempt_events d i false) (seq 1 k)
                     ++ attempt_events d (S k) true)%list
          /\ connect_attempts (w_log (conn_world s'))
             = (connect_attempts log0 + S k)%nat
          /\ is_connected s' = true
          /\ _managed_accounts (self s') = accounts
          /\ _reconnecting (self s') = false).
Proof.
  intros Hib Hobj Hman Hrec Hmax d g c log0.
  pose proof (unsolicited_disconnect_unfold s ib Hib Hobj Hman Hrec) as Hrun.
  cbv zeta in Hrun. rewrite Hmax in Hrun.
  set (s1 := mkConn _ _ _) in Hrun.
  assert (Hs1 : _ib (self s1) = None) by reflexivity.
  split.
  - intros Hfail.
    rewrite (reconnect_all_fail (seq 1 3) s1 Hs1 Hfail) in Hrun.
    destruct (failed_attempts_frame (seq 1 3) s1) as (Hself & _ & _ & Hlog).
    cbv zeta in Hself, Hlog.
    eexists. split; [exact Hrun|]. cbn [conn_world self].
    rewrite Hself, Hlog. cbn [s1 self conn_world log_event w_log].
    split_and!; try reflexivity.
    + unfold with_reconnecting, with_accounts, with_ib. simpl.
      by rewrite <- !app_assoc.
    + rewrite !connect_attempts_app, connect_attempts_failed. unfold log0.
      unfold connect_attempts at 2. simpl. lia.
  - intros k accounts Hk Hfail Hok.
    assert (Hseq : seq 1 3 = (seq 1 k ++ S k :: seq (S (S k)) (2 - k))%list).
    { destruct k as [|[|[|k]]]; try reflexivity. lia. }
    rewrite Hseq in Hrun.
    rewrite (reconnect_first_success (seq 1 k) (S k) _ accounts s1 Hs1) in Hrun.
    + destruct (failed_attempts_frame (seq 1 k) s1) as (Hself & _ & Hcalls & Hlog).
      cbv zeta in Hself, Hcalls, Hlog.
      eexists. split; [exact Hrun|].
      cbn [conn_world self succeeded_attempt w_log is_connected
             with_reconnecting with_accounts with_ib _ib _managed_accounts
             _reconnecting ib_objects].
      rewrite lookup_insert_eq. rewrite Hself, Hlog.
      cbn [s1 self conn_world log_event w_log with_reconnecting with_accounts
             with_ib _reconnect_delay].
      split_and!; try reflexivity.
      * by rewrite <- !app_assoc.
      * rewrite !connect_attempts_app, connect_attempts_failed, length_seq.
        unfold log0. unfold connect_attempts at 2 3. simpl. lia.
    + intros j Hj. rewrite length_seq in Hj. apply Hfail. exact Hj.
    + rewrite length_seq. exact Hok.
Qed.

(** The manager of [connected_then_down]: three attempts, after 5, 10 and
    15 seconds, all refused. *)
Lemma reconnect_policy_witness :
  exists s',
    unsolicited_disconnect connected_then_down = (Ok tt, s')
    /\ w_log (conn_world s')
       = [ EvConnect; EvSpawnReconnect;
           EvSleep 5; EvConnect; EvDisconnect;
           EvSleep 10; EvConnect; EvDisconnect;
           EvSleep 15; EvConnect; EvDisconnect ]
    /\ connect_attempts (w_log (conn_world s')) = 4%nat
    /\ _ib (self s') = None
    /\ _managed_accounts (self s') = []
    /\ _reconnecting (self s') = false
    /\ is_connected s' = false.
Proof.
  exact (proj1 (reconnect_policy connected_then_down 0 eq_refl eq_refl eq_refl
                  eq_refl eq_refl)
           (fun k => eq_refl)).
Defined.

(** The same manager when the second reconnect attempt succeeds. *)
Example reconnect_second_attempt_succeeds :
  let s := mkConn (mkManager (Some 0%nat) ["DU123"] 5 3 false false)
             {[ 0%nat := mkIB true true ]}
             (mkWorld ∅ t_2024_01_15
                (mkGateway (fun n => if (n =? 2)%nat then Ok ["DU123"]
                                     else Raise (mkExn OSError "timeout"))
                   (fun _ _ => Ok []) (fun _ _ => Ok []) (fun _ _ _ => Ok None)
                   (fun _ => Ok tt))
                1 [EvConnect]) in
  w_log (conn_world (snd (unsolicited_disconnect s)))
  = [ EvConnect; EvSpawnReconnect; EvSleep 5; EvConnect; EvDisconnect;
      EvSleep 10; EvConnect ]
  /\ self (snd (unsolicited_disconnect s))
     = mkManager (Some 2%nat) ["DU123"] 5 3 false false
  /\ w_clock (conn_world (snd (unsolicited_disconnect s)))
     = t_2024_01_15 + 15 * NANOS_PER_SECOND.
Proof. cbv zeta. split_and!; vm_compute; reflexivity. Qed.

(** ** fetch_snapshot *)

Example fetch_snapshot_ex :
  let w := world_at t_2024_01_15 ∅ gateway_quotes in
  let aapl := mkContract "AAPL" "STK" "" in
  let bad := mkContract "BAD" "STK" "" in
  fst (fetch_snapshot [aapl; bad; aapl] 5 w)
  = Ok [ SnapData (mkSnapshot (Some 1.5%float) (Some 2.5%float) None (Some 2%float)
                     (Some 100) None None None None None None);
         SnapError "unable to qualify contract";
         SnapData (mkSnapshot (Some 1.5%float) (Some 2.5%float) None (Some 2%float)
                     (Some 100) None None None None None None) ]
  /\ w_log (snd (fetch_snapshot [aapl; bad; aapl] 5 w))
     = [ EvConnect; EvQualify aapl; EvQualify bad; EvQualify aapl;
         EvMktData aapl ""; EvMktData aapl ""; EvGatewaySleep; EvDisconnect ].
Proof. cbv zeta. split; vm_compute; reflexivity. Qed.

Example as_int_ex :
  _as_int (PyFloat 12.75) = Some 12 /\ _as_int (PyFloat (-3.5)) = Some (-3)
  /\ _as_int (PyFloat nan) = None /\ _as_int (PyFloat infinity) = None
  /\ _as_int PyNone = None.
Proof. split_and!; reflexivity. Qed.

Lemma fetch_snapshot_nonempty (contracts : list Contract) (timeout : float)
    (w : world) :
  contracts <> [] ->
  fetch_snapshot contracts timeout w
  = match _connect_ib w with
    | (Raise exc, w') =>
        (Ok (map (fun _ => SnapError (batch_error_message exc)) contracts), w')
    | (Ok _, w1) =>
        match snapshot_requests contracts
                (if (0 <? timeout)%float then timeout else 0%float) w1 with
        | (Raise exc, w2) =>
            (Ok (map (fun _ => SnapError (batch_error_message exc)) contracts),
             log_event EvDisconnect w2)
        | (Ok st, w2) =>
            (Ok (imap (snapshot_entry_of st) contracts), log_event EvDisconnect w2)
        end
    end.
Proof.
  intros Hne. destruct contracts as [|c0 contracts]; [done|].
  unfold fetch_snapshot, try_finally.
  destruct (_connect_ib w) as [[u|exc] w1]; [|reflexivity].
  destruct (snapshot_requests _ _ w1) as [[st|exc] w2]; reflexivity.
Qed.

(** ** The request phase, position by position *)

Lemma connect_ib_unfold (w : world) :
  _connect_ib w
  = (match gw_connect (w_gateway w) (w_calls w) with
     | Ok _ => Ok tt
     | Raise exc =>
         if isinstance exc ConnectionRefusedError
         then Raise (mkExn IBKRConnectionError "IB Gateway not running")
         else Raise (mkExn IBKRConnectionError
                       ("IBKR connect failed: " +:+ exn_msg exc))
     end,
     count_call (log_event EvConnect w)).
Proof.
  unfold _connect_ib, try_except, bind, gateway_call, ret, raise.
  destruct (gw_connect (w_gateway w) (w_calls w)) as [a|exc]; [done|].
  by destruct (isinstance exc ConnectionRefusedError).
Qed.

(** The entry of a position depends on what the three dicts hold at
    that position only. *)
Lemma snapshot_entry_of_local (st st' : snapshot_state) (idx : nat) (c : Contract) :
  pre_errors st !! idx = pre_errors st' !! idx ->
  qualified_by_index st !! idx = qualified_by_index st' !! idx ->
  tickers_by_index st !! idx = tickers_by_index st' !! idx ->
  snapshot_entry_of st idx c = snapshot_entry_of st' idx c.
Proof. unfold snapshot_entry_of. by intros -> -> ->. Qed.

Lemma qualify_loop_cons (idx : nat) (c : Contract) (cs : list Contract)
    (st : snapshot_state) (w : world) :
  qualify_loop idx (c :: cs) st w
  = qualify_loop (S idx) cs (qualified_step idx c st w)
      (count_call (log_event (EvQualify c) w)).
Proof.
  cbn [qualify_loop]. unfold bind at 1, try_except, bind, gateway_call, ret.
  unfold qualified_step, qualification.
  destruct (gw_qualifyContracts (w_gateway w) (w_calls w) c) as [qualified|exc];
    [|reflexivity].
  by destruct (first_not_none qualified).
Qed.

(** The first loop: one gateway call per contract, and what it records
    at each position. *)
Lemma qualify_loop_spec (contracts : list Contract) (idx : nat) (st : snapshot_state)
    (w : world) :
  exists st' w',
    qualify_loop idx contracts st w = (Ok st', w')
    /\ w_gateway w' = w_gateway w
    /\ w_calls w' = (w_calls w + length contracts)%nat
    /\ tickers_by_index st' = tickers_by_index st
    /\ (forall k, (k < idx \/ idx + length contracts <= k)%nat ->
          pre_errors st' !! k = pre_errors st !! k
          /\ qualified_by_index st' !! k = qualified_by_index st !! k)
    /\ (forall j c, contracts !! j = Some c ->
          match qualification (w_gateway w) (w_calls w + j) c with
          | inl msg =>
              pre_errors st' !! (idx + j)%nat = Some msg
              /\ qualified_by_index st' !! (idx + j)%nat
                 = qualified_by_index st !! (idx + j)%nat
          | inr q =>
              qualified_by_index st' !! (idx + j)%nat = Some q
              /\ pre_errors st' !! (idx + j)%nat = pre_errors st !! (idx + j)%nat
          end).
Proof.
  revert idx st w. induction contracts as [|c cs IH]; intros idx st w.
  - exists st, w. simpl. by split_and!.
  - rewrite qualify_loop_cons.
    set (w1 := count_call (log_event (EvQualify c) w)).
    destruct (IH (S idx) (qualified_step idx c st w) w1)
      as (st' & w' & Hrun & Hg & Hcalls & Htick & Hout & Hin).
    exists st', w'. split_and!.
    + exact Hrun.
    + by rewrite Hg.
    + rewrite Hcalls. subst w1. cbn [w_calls count_call log_event length]. lia.
    + rewrite Htick. unfold qualified_step. by destruct (qualification _ _ _).
    + intros k Hk. destruct (Hout k) as [Hp Hq]; [cbn [length] in Hk; lia|].
      rewrite Hp, Hq. unfold qualified_step. cbn [length] in Hk.
      destruct (qualification _ _ _); cbn [pre_errors qualified_by_index];
        rewrite ?lookup_insert_ne by lia; done.
    + intros [|j] c' Hc'.
      * cbn in Hc'. injection Hc' as <-. rewrite !Nat.add_0_r.
        destruct (Hout idx) as [Hp Hq]; [lia|]. rewrite Hp, Hq.
        unfold qualified_step.
        destruct (qualification _ _ _); cbn [pre_errors qualified_by_index];
          by rewrite lookup_insert_eq.
      * cbn in Hc'. specialize (Hin j c' Hc').
        replace (w_gateway w1) with (w_gateway w) in Hin by done.
        replace (w_calls w1 + j)%nat with (w_calls w + S j)%nat in Hin
          by (subst w1; cbn [w_calls count_call log_event]; lia).
        replace (S idx + j)%nat with (idx + S j)%nat in Hin by lia.
        destruct (qualification (w_gateway w) (w_calls w + S j) c');
          destruct Hin as [H1 H2]; (split; [exact H1|]); rewrite H2;
          unfold qualified_step;
          destruct (qualification (w_gateway w) (w_calls w) c);
          cbn [pre_errors qualified_by_index];
          rewrite ?lookup_insert_ne by lia; done.
Qed.

Lemma request_loop_cons (idx : nat) (rest : list nat) (st : snapshot_state)
    (w : world) :
  request_loop (idx :: rest) st w
  = match qualified_by_index st !! idx with
    | None => request_loop rest st w
    | Some q =>
        request_loop rest (requested_step idx q st w)
          (count_call (log_event (EvMktData q (ticks_for q)) w))
    end.
Proof.
  cbn [request_loop]. destruct (qualified_by_index st !! idx) as [q|]; [|done].
  unfold bind at 1, try_except, bind, gateway_call, ret, requested_step, ticks_for.
  by destruct (gw_reqMktData _ _ _ _).
Qed.

Lemma requested_step_qualified (idx : nat) (q : Contract) (st : snapshot_state)
    (w : world) :
  qualified_by_index (requested_step idx q st w) = qualified_by_index st.
Proof. unfold requested_step. by destruct (gw_reqMktData _ _ _ _). Qed.

Lemma count_some_ext (st st' : snapshot_state) (a m : nat) :
  qualified_by_index st' = qualified_by_index st ->
  count_some st' a m = count_some st a m.
Proof.
  intros Hq. revert a. induction m as [|m IH]; intros a; [done|].
  simpl. by rewrite Hq, IH.
Qed.

Lemma count_some_S (st : snapshot_state) (a m : nat) :
  count_some st a (S m)
  = (count_some st a m
     + if is_Some_b (qualified_by_index st !! (a + m)%nat) then 1 else 0)%nat.
Proof.
  revert a. induction m as [|m IH]; intros a.
  - simpl. rewrite (Nat.add_0_r a). destruct (is_Some_b _); lia.
  - change (count_some st a (S (S m)))
      with ((if is_Some_b (qualified_by_index st !! a) then 1 else 0)
            + count_some st (S a) (S m))%nat.
    rewrite IH. cbn [count_some].
    replace (S a + m)%nat with (a + S m)%nat by lia.
    destruct (is_Some_b (qualified_by_index st !! a)),
      (is_Some_b (qualified_by_index st !! (a + S m)%nat)); lia.
Qed.

(** The second loop: one gateway call per qualified position, and what
    it records at each position. *)
Lemma request_loop_spec (m a : nat) (st : snapshot_state) (w : world) :
  exists st' w',
    request_loop (seq a m) st w = (Ok st', w')
    /\ w_gateway w' = w_gateway w
    /\ w_calls w' = (w_calls w + count_some st a m)%nat
    /\ qualified_by_index st' = qualified_by_index st
    /\ (forall k, (k < a \/ a + m <= k)%nat ->
          pre_errors st' !! k = pre_errors st !! k
          /\ tickers_by_index st' !! k = tickers_by_index st !! k)
    /\ (forall j, (j < m)%nat ->
          match qualified_by_index st !! (a + j)%nat with
          | None =>
              pre_errors st' !! (a + j)%nat = pre_errors st !! (a + j)%nat
              /\ tickers_by_index st' !! (a + j)%nat
                 = tickers_by_index st !! (a + j)%nat
          | Some q =>
              match gw_reqMktData (w_gateway w) (w_calls w + count_some st a j) q
                      (ticks_for q) with
              | Raise exc =>
                  pre_errors st' !! (a + j)%nat
                  = Some (str_or exc "snapshot request failed")
                  /\ tickers_by_index st' !! (a + j)%nat
                     = tickers_by_index st !! (a + j)%nat
              | Ok ticker =>
                  tickers_by_index st' !! (a + j)%nat = Some ticker
                  /\ pre_errors st' !! (a + j)%nat = pre_errors st !! (a + j)%nat
              end
          end).
Proof.
  revert a st w. induction m as [|m IH]; intros a st w.
  - exists st, w. simpl. split_and!; try done; try lia.
  - cbn [seq]. rewrite request_loop_cons.
    destruct (qualified_by_index st !! a) as [q|] eqn:Hqa.
    + set (w1 := count_call (log_event (EvMktData q (ticks_for q)) w)).
      set (st1 := requested_step a q st w).
      pose proof (requested_step_qualified a q st w) as Hq1. fold st1 in Hq1.
      destruct (IH (S a) st1 w1)
        as (st' & w' & Hrun & Hg & Hcalls & Hqual & Hout & Hin).
      exists st', w'. split_and!.
      * exact Hrun.
      * by rewrite Hg.
      * rewrite Hcalls, (count_some_ext _ _ _ _ Hq1). subst w1.
        cbn [w_calls count_call log_event count_some]. rewrite Hqa. simpl. lia.
      * by rewrite Hqual.
      * intros k Hk. destruct (Hout k) as [Hp Ht]; [lia|]. rewrite Hp, Ht.
        subst st1. unfold requested_step.
        destruct (gw_reqMktData _ _ _ _); cbn [pre_errors tickers_by_index];
          rewrite ?lookup_insert_ne by lia; done.
      * intros [|j] Hj.
        -- rewrite Nat.add_0_r, Hqa. cbn [count_some]. rewrite Nat.add_0_r.
           destruct (Hout a) as [Hp Ht]; [lia|]. rewrite Hp, Ht.
           subst st1. unfold requested_step.
           destruct (gw_reqMktData _ _ _ _); cbn [pre_errors tickers_by_index];
             by rewrite lookup_insert_eq.
        -- specialize (Hin j ltac:(lia)).
           replace (S a + j)%nat with (a + S j)%nat in Hin by lia.
           rewrite Hq1 in Hin.
           replace (w_gateway w1) with (w_gateway w) in Hin by done.
           replace (w_calls w1 + count_some st1 (S a) j)%nat
             with (w_calls w + count_some st a (S j))%nat in Hin.
           2:{ rewrite (count_some_ext _ _ _ _ Hq1). subst w1.
               cbn [w_calls count_call log_event count_some]. rewrite Hqa. simpl. lia. }
           assert (Hsame : pre_errors st1 !! (a + S j)%nat
                           = pre_errors st !! (a + S j)%nat
                           /\ tickers_by_index st1 !! (a + S j)%nat
                              = tickers_by_index st !! (a + S j)%nat).
           { subst st1. unfold requested_step.
             destruct (gw_reqMktData _ _ _ _); cbn [pre_errors tickers_by_index];
               rewrite ?lookup_insert_ne by lia; done. }
           destruct Hsame as [Hp1 Ht1]. rewrite Hp1, Ht1 in Hin. exact Hin.
    + destruct (IH (S a) st w)
        as (st' & w' & Hrun & Hg & Hcalls & Hqual & Hout & Hin).
      exists st', w'. split_and!; try done.
      * rewrite Hcalls. cbn [count_some]. rewrite Hqa. simpl. lia.
      * intros k Hk. apply Hout. lia.
      * intros [|j] Hj.
        -- rewrite Nat.add_0_r, Hqa. apply Hout. lia.
        -- specialize (Hin j ltac:(lia)).
           replace (S a + j)%nat with (a + S j)%nat in Hin by lia.
           cbn [count_some]. rewrite Hqa. exact Hin.
Qed.

Lemma count_qualified_snoc (g : gateway) (n : nat) (l : list Contract) (c : Contract) :
  count_qualified g n (l ++ [c])
  = (count_qualified g n l
     + match qualification g (n + length l) c with inr _ => 1 | inl _ => 0 end)%nat.
Proof.
  revert n. induction l as [|x l IH]; intros n.
  - simpl. rewrite !Nat.add_0_r. lia.
  - cbn [app count_qualified length]. rewrite IH.
    replace (S n + length l)%nat with (n + S (length l))%nat by lia. lia.
Qed.

Lemma count_some_qualified (g : gateway) (n : nat) (contracts : list Contract)
    (st : snapshot_state) (i : nat) :
  (forall j c, contracts !! j = Some c ->
     is_Some_b (qualified_by_index st !! j)
     = match qualification g (n + j) c with inr _ => true | inl _ => false end) ->
  (i <= length contracts)%nat ->
  count_some st 0 i = count_qualified g n (take i contracts).
Proof.
  intros Hq. induction i as [|i IH]; intros Hi.
  - by rewrite take_0.
  - destruct (lookup_lt_is_Some_2 contracts i ltac:(lia)) as [c Hc].
    rewrite count_some_S, (take_S_r _ _ _ Hc), count_qualified_snoc.
    rewrite IH by lia. rewrite length_take_le by lia. simpl.
    rewrite (Hq i c Hc). by destruct (qualification g (n + i) c).
Qed.

(** What the request phase leaves at each position. *)
Lemma snapshot_requests_positions (contracts : list Contract) (timeout_seconds : float)
    (w w' : world) (st : snapshot_state) (n : nat) :
  w_calls w = (n + 1)%nat ->
  snapshot_requests contracts timeout_seconds w = (Ok st, w') ->
  forall i c,
    contracts !! i = Some c ->
    snapshot_entry_of st i c
    = snapshot_entry_of (position_state (w_gateway w) n contracts i c) i c.
Proof.
  intros Hn. unfold snapshot_requests. unfold bind at 1.
  destruct (qualify_loop_spec contracts 0 snapshot_state_empty w)
    as (st1 & w1 & -> & Hg1 & Hc1 & Ht1 & _ & Hq).
  unfold bind at 1.
  destruct (request_loop_spec (length contracts) 0 st1 w1)
    as (st2 & w2 & -> & Hg2 & Hc2 & Hq2 & _ & Hr).
  unfold bind. destruct (if (0 <? timeout_seconds)%float then _ else _) as [[u|e] w3];
    [|done].
  intros [= <- <-] i c Hc.
  pose proof (lookup_lt_Some _ _ _ Hc) as Hlt.
  assert (Hcount : count_some st1 0 i
                   = count_qualified (w_gateway w) (n + 1) (take i contracts)).
  { apply count_some_qualified; [|lia]. intros j c' Hc'.
    specialize (Hq j c' Hc'). rewrite Hn in Hq. cbn [Nat.add] in Hq.
    destruct (qualification (w_gateway w) (n + 1 + j) c'); destruct Hq as [H1 H2].
    - rewrite H2. cbn [snapshot_state_empty qualified_by_index].
      by rewrite lookup_empty.
    - by rewrite H1. }
  specialize (Hq i c Hc). specialize (Hr i Hlt). cbn [Nat.add] in Hq, Hr.
  rewrite Hn in Hq. rewrite Hg1, Hc1, Hn, Hcount in Hr.
  assert (Hempty : qualified_by_index snapshot_state_empty !! i = None
                   /\ pre_errors snapshot_state_empty !! i = None)
    by (split; apply lookup_empty).
  destruct Hempty as [Hqe Hpe].
  apply snapshot_entry_of_local; unfold position_state; revert Hq;
    destruct (qualification (w_gateway w) (n + 1 + i) c) as [msg|q];
    intros [H1 H2].
  - rewrite H2, Hqe in Hr. destruct Hr as [Hp _]. cbn [pre_errors].
    by rewrite Hp, H1, lookup_singleton_eq.
  - rewrite H1 in Hr. fold (ticks_for q). cbv zeta.
    destruct (gw_reqMktData _ _ q (ticks_for q)) as [ticker|exc];
      cbn [pre_errors].
    + destruct Hr as [_ Hp]. by rewrite Hp, H2, Hpe, lookup_empty.
    + destruct Hr as [Hp _]. by rewrite Hp, lookup_singleton_eq.
  - cbn [qualified_by_index]. by rewrite Hq2, H2, Hqe, lookup_empty.
  - rewrite Hq2, H1. cbv zeta. destruct (gw_reqMktData _ _ _ _);
      cbn [qualified_by_index]; by rewrite lookup_singleton_eq.
  - rewrite H2, Hqe in Hr. destruct Hr as [_ Htk]. cbn [tickers_by_index].
    rewrite Htk, Ht1. cbn [snapshot_state_empty tickers_by_index].
    by rewrite !lookup_empty.
  - rewrite H1 in Hr. fold (ticks_for q). cbv zeta.
    destruct (gw_reqMktData _ _ q (ticks_for q)) as [ticker|exc];
      cbn [tickers_by_index].
    + destruct Hr as [Htk _]. by rewrite Htk, lookup_singleton_eq.
    + destruct Hr as [_ Htk]. rewrite Htk, Ht1.
      cbn [snapshot_state_empty tickers_by_index]. by rewrite !lookup_empty.
Qed.

Lemma connect_ib_world (w w1 : world) (r : outcome unit) :
  _connect_ib w = (r, w1) ->
  w_gateway w1 = w_gateway w /\ w_calls w1 = (w_calls w + 1)%nat.
Proof.
  rewrite connect_ib_unfold. intros [= _ <-].
  cbn [w_gateway w_calls count_call log_event]. split; [done|lia].
Qed.

(** C10. [fetch_snapshot] returns, it does not raise, and its result has
    one entry per contract, entry [i] being the one of contract [i]. When
    the connection fails, or an exception escapes the request phase,
    every entry is the same error. Otherwise entry [i] is the error or
    data entry of what the request phase records for contract [i]: the
    failure of its qualification, the failure of its market-data request,
    or the ticker that this request returns. An empty list of contracts
    gives the empty list and leaves the world untouched, so no session is
    opened. *)
Theorem fetch_snapshot_shape (contracts : list Contract) (timeout : float) (w : world) :
  exists out w',
    fetch_snapshot contracts timeout w = (Ok out, w')
    /\ length out = length contracts
    /\ (contracts = [] -> out = [] /\ w' = w)
    /\ (forall exc w1,
          contracts <> [] -> _connect_ib w = (Raise exc, w1) ->
          out = map (fun _ => SnapError (batch_error_message exc)) contracts
          /\ w' = w1)
    /\ (forall u w1 exc w2,
          contracts <> [] -> _connect_ib w = (Ok u, w1) ->
          snapshot_requests contracts (if (0 <? timeout)%float then timeout else 0%float) w1
          = (Raise exc, w2) ->
          out = map (fun _ => SnapError (batch_error_message exc)) contracts
          /\ w' = log_event EvDisconnect w2)
    /\ (forall u w1 st w2,
          contracts <> [] -> _connect_ib w = (Ok u, w1) ->
          snapshot_requests contracts (if (0 <? timeout)%float then timeout else 0%float) w1
          = (Ok st, w2) ->
          (forall i c,
             contracts !! i = Some c ->
             out !! i
             = Some (snapshot_entry_of
                       (position_state (w_gateway w) (w_calls w) contracts i c) i c))
          /\ w' = log_event EvDisconnect w2)
    /\ ((exists msg, forall i c, contracts !! i = Some c -> out !! i = Some (SnapError msg))
        \/ (forall i c,
              contracts !! i = Some c ->
              out !! i
              = Some (snapshot_entry_of
                        (position_state (w_gateway w) (w_calls w) contracts i c) i c))).
Proof.
  destruct (decide (contracts = [])) as [-> | Hne].
  { exists [], w. split_and!; try done. left. exists "". intros i c Hc. done. }
  rewrite (fetch_snapshot_nonempty contracts timeout w Hne).
  destruct (_connect_ib w) as [[u|exc] w1] eqn:Hconn.
  - destruct (connect_ib_world _ _ _ Hconn) as [Hg Hcalls].
    destruct (snapshot_requests contracts _ w1) as [[st|exc] w2] eqn:Hreq.
    + assert (Hpos : forall i c,
                contracts !! i = Some c ->
                imap (snapshot_entry_of st) contracts !! i
                = Some (snapshot_entry_of
                          (position_state (w_gateway w) (w_calls w) contracts i c) i c)).
      { intros i c Hc. rewrite list_lookup_imap, Hc. cbn. f_equal.
        rewrite <- Hg.
        by eapply (snapshot_requests_positions contracts _ w1 w2 st (w_calls w)). }
      eexists _, _. split; [reflexivity|]. split_and!.
      * by rewrite length_imap.
      * done.
      * intros exc w1' _ [=].
      * intros u' w1' exc w2' _ [= <- <-]. rewrite Hreq. intros [=].
      * intros u' w1' st' w2' _ [= <- <-]. rewrite Hreq. intros [= <- <-].
        by split.
      * by right.
    + eexists _, _. split; [reflexivity|]. split_and!.
      * by rewrite length_map.
      * done.
      * intros exc' w1' _ [=].
      * intros u' w1' exc' w2' _ [= <- <-]. rewrite Hreq. by intros [= <- <-].
      * intros u' w1' st' w2' _ [= <- <-]. rewrite Hreq. intros [=].
      * left. eexists. intros i c Hc. by rewrite list_lookup_fmap, Hc.
  - eexists _, _. split; [reflexivity|]. split_and!.
    + by rewrite length_map.
    + done.
    + by intros exc' w1' _ [= <- <-].
    + intros u w1' exc' w2' _ [=].
    + intros u w1' st' w2' _ [=].
    + left. eexists. intros i c Hc. by rewrite list_lookup_fmap, Hc.
Qed.

(** The entries follow the contracts: the same two contracts in the other
    order give the same two entries in the other order. *)
Example fetch_snapshot_order :
  let w := world_at t_2024_01_15 ∅ gateway_quotes in
  let aapl := mkContract "AAPL" "STK" "" in
  let bad := mkContract "BAD" "STK" "" in
  let data := SnapData (mkSnapshot (Some 1.5%float) (Some 2.5%float) None
                          (Some 2%float) (Some 100) None None None None None None) in
  fst (fetch_snapshot [aapl; bad] 5 w)
  = Ok [data; SnapError "unable to qualify contract"]
  /\ fst (fetch_snapshot [bad; aapl] 5 w)
     = Ok [SnapError "unable to qualify contract"; data].
Proof. cbv zeta. split; vm_compute; reflexivity. Qed.

(** When the bounded wait raises, the exception escapes the request phase
    and every contract gets the same error entry; the session is still
    closed. *)
Example fetch_snapshot_wait_fails :
  let g := mkGateway (fun _ => Ok ["DU123"]) (fun _ c => Ok [Some c])
             (fun _ _ => Ok []) (fun _ _ _ => Ok (Some quote_ticker))
             (fun _ => Raise (mkExn OtherException "")) in
  let w := world_at t_2024_01_15 ∅ g in
  let aapl := mkContract "AAPL" "STK" "" in
  fst (fetch_snapshot [aapl; aapl] 5 w)
  = Ok [SnapError "snapshot request failed"; SnapError "snapshot request failed"]
  /\ last (w_log (snd (fetch_snapshot [aapl; aapl] 5 w))) = Some EvDisconnect.
Proof. cbv zeta. split; vm_compute; reflexivity. Qed.

(** When the gateway is down, every contract gets the connection error
    and no session exists to close. *)
Example fetch_snapshot_gateway_down :
  let w := world_at t_2024_01_15 ∅ gateway_down in
  let aapl := mkContract "AAPL" "STK" "" in
  fetch_snapshot [aapl; aapl] 5 w
  = (Ok [SnapError "IB Gateway not running"; SnapError "IB Gateway not running"],
     count_call (log_event EvConnect w)).
Proof. cbv zeta. vm_compute. reflexivity. Qed.

(** * Normalization of bars and month-end series *)

(** ** Order of timestamps *)

Lemma same_stamp_spec (a b : Timestamp) :
  same_stamp a b = true <->
  year (ts_date a) = year (ts_date b) /\ month (ts_date a) = month (ts_date b)
  /\ day (ts_date a) = day (ts_date b) /\ ts_nanos a = ts_nanos b.
Proof.
  unfold same_stamp, naive_compare, date_compare.
  destruct (Z.compare_spec (year (ts_date a)) (year (ts_date b)));
    destruct (Z.compare_spec (month (ts_date a)) (month (ts_date b)));
    destruct (Z.compare_spec (day (ts_date a)) (day (ts_date b)));
    destruct (Z.compare_spec (ts_nanos a) (ts_nanos b)); split; (done || lia).
Qed.

Lemma same_stamp_refl (a : Timestamp) : same_stamp a a = true.
Proof. by apply same_stamp_spec. Qed.

Lemma ts_ltb_of_leb (a b : Timestamp) :
  ts_leb a b = true -> same_stamp a b = false -> ts_ltb a b = true.
Proof.
  intros Hle Hne. rewrite naive_ltb_spec, negb_true_iff.
  apply not_true_iff_false. intros Hba.
  apply not_true_iff_false in Hne. apply Hne, same_stamp_spec.
  apply naive_leb_spec in Hle. apply naive_leb_spec in Hba. lia.
Qed.

(** ** Sorted rows *)

Lemma strictly_increasing_intro (r : Timestamp * float) (l : list (Timestamp * float)) :
  Forall (fun x => ts_ltb (fst r) (fst x) = true) l ->
  strictly_increasing l = true ->
  strictly_increasing (r :: l) = true.
Proof.
  destruct l as [|x l]; [done|]. intros Hall Hl.
  inversion Hall as [|? ? Hx _]; subst.
  change (ts_ltb (fst r) (fst x) && strictly_increasing (x :: l) = true).
  by rewrite Hx, Hl.
Qed.

Lemma strictly_weakly (l : list (Timestamp * float)) :
  strictly_increasing l = true -> weakly_increasing l = true.
Proof.
  induction l as [|r l IH]; [done|]. intros Hinc.
  destruct (strictly_increasing_tail r l Hinc) as [Hl Hall].
  apply weakly_increasing_intro; [|by apply IH].
  eapply Forall_impl; [exact Hall|]. intros x. apply ts_ltb_leb.
Qed.

(** The sort returns the rows it was given. *)
Lemma sort_index_elem `{SortIndex} (x : Timestamp * float)
    (l : list (Timestamp * float)) :
  In x (sort_index l) -> In x l.
Proof.
  intros Hin%list_elem_of_In. apply list_elem_of_In.
  by rewrite <- (sort_index_perm l).
Qed.

Lemma same_stamp_sym (a b : Timestamp) : same_stamp a b = same_stamp b a.
Proof.
  apply eq_true_iff_eq. rewrite !same_stamp_spec. intuition congruence.
Qed.

Lemma existsb_perm {A} (f : A -> bool) (l1 l2 : list A) :
  l1 ≡ₚ l2 -> existsb f l1 = existsb f l2.
Proof.
  induction 1 as [|x l1 l2 _ IH|x y l|l1 l2 l3 _ IH1 _ IH2]; simpl.
  - done.
  - by rewrite IH.
  - by destruct (f x), (f y).
  - congruence.
Qed.

(** Whether the rows carry distinct instants does not depend on their
    order. *)
Lemma distinct_instants_perm (l1 l2 : list (Timestamp * float)) :
  l1 ≡ₚ l2 -> distinct_instants l1 = distinct_instants l2.
Proof.
  induction 1 as [|x l1 l2 Hp IH|x y l|l1 l2 l3 _ IH1 _ IH2]; simpl.
  - done.
  - by rewrite IH, (existsb_perm _ _ _ Hp).
  - rewrite (same_stamp_sym (fst y) (fst x)).
    destruct (same_stamp (fst x) (fst y)), (existsb _ l), (existsb _ l); done.
  - congruence.
Qed.

(** Rows in time order that carry distinct instants increase strictly. *)
Lemma distinct_weakly_strictly (l : list (Timestamp * float)) :
  weakly_increasing l = true -> distinct_instants l = true ->
  strictly_increasing l = true.
Proof.
  induction l as [|r l IH]; [done|]. intros Hinc Hd.
  destruct (weakly_increasing_tail r l Hinc) as [Hl Hall].
  simpl in Hd. apply andb_prop in Hd as [Hr Hd]. apply negb_true_iff in Hr.
  apply strictly_increasing_intro; [|by apply IH].
  apply Forall_forall. intros x Hx. apply ts_ltb_of_leb.
  - rewrite Forall_forall in Hall. by apply Hall.
  - apply not_true_iff_false. intros Hsame.
    apply not_true_iff_false in Hr. apply Hr.
    apply existsb_exists. exists x. split; [by apply list_elem_of_In|done].
Qed.

Lemma ts_ltb_asym (a b : Timestamp) : ts_ltb a b = true -> ts_ltb b a = true -> False.
Proof.
  rewrite !naive_ltb_spec, !negb_true_iff. intros H1 H2.
  apply ts_leb_total in H1. congruence.
Qed.

(** Rows that increase strictly have one order only. *)
Lemma strictly_increasing_perm_eq (l1 l2 : list (Timestamp * float)) :
  strictly_increasing l1 = true -> strictly_increasing l2 = true ->
  l1 ≡ₚ l2 -> l1 = l2.
Proof.
  revert l2. induction l1 as [|a l1 IH]; intros l2 H1 H2 Hp.
  - by apply Permutation_nil_l in Hp.
  - destruct l2 as [|b l2]; [by apply Permutation_nil_r in Hp|].
    destruct (strictly_increasing_tail a l1 H1) as [H1' Ha].
    destruct (strictly_increasing_tail b l2 H2) as [H2' Hb].
    assert (Hab : a = b).
    { assert (Hina : a ∈ b :: l2) by (rewrite <- Hp; by left).
      assert (Hinb : b ∈ a :: l1) by (rewrite Hp; by left).
      apply elem_of_cons in Hina as [Heq | Hina]; [done|].
      apply elem_of_cons in Hinb as [Heq | Hinb]; [done|].
      rewrite Forall_forall in Ha, Hb.
      destruct (ts_ltb_asym _ _ (Ha b Hinb) (Hb a Hina)). }
    subst b. f_equal. apply IH; [done | done |].
    by apply Permutation_cons_inv in Hp.
Qed.

(** On rows with distinct instants every sort gives the same result. *)
Lemma sort_index_distinct `{SortIndex} (l : list (Timestamp * float)) :
  distinct_instants l = true ->
  sort_index l = stable_sort l /\ strictly_increasing (sort_index l) = true.
Proof.
  intros Hd.
  assert (H1 : strictly_increasing (sort_index l) = true).
  { apply distinct_weakly_strictly; [apply sort_index_ordered|].
    by rewrite (distinct_instants_perm _ _ (sort_index_perm l)). }
  split; [|done].
  apply strictly_increasing_perm_eq; [done | |].
  - apply distinct_weakly_strictly; [apply stable_sort_weakly|].
    by rewrite (distinct_instants_perm _ _ (stable_sort_perm l)).
  - by rewrite sort_index_perm, stable_sort_perm.
Qed.

(** ** De-duplication *)

Lemma drop_duplicated_elem (x : Timestamp * float) (l : list (Timestamp * float)) :
  In x (drop_duplicated_keep_last l) -> In x l.
Proof.
  induction l as [|r l IH]; [done|]. simpl.
  destruct (existsb _ l).
  - intros Hin. right. by apply IH.
  - intros [<-|Hin]; [by left|]. right. by apply IH.
Qed.

Lemma drop_duplicated_strict (l : list (Timestamp * float)) :
  weakly_increasing l = true ->
  strictly_increasing (drop_duplicated_keep_last l) = true.
Proof.
  induction l as [|r l IH]; [done|]. intros Hinc.
  destruct (weakly_increasing_tail r l Hinc) as [Hl Hall].
  simpl. destruct (existsb _ l) eqn:Hdup; [by apply IH|].
  apply strictly_increasing_intro; [|by apply IH].
  apply Forall_forall. intros x Hx%list_elem_of_In%drop_duplicated_elem.
  apply ts_ltb_of_leb.
  - rewrite Forall_forall in Hall. apply Hall. by apply list_elem_of_In.
  - apply not_true_iff_false. intros Hsame.
    apply not_true_iff_false in Hdup. apply Hdup.
    apply existsb_exists. by exists x.
Qed.

(** ** Month-end resampling *)

Lemma month_end_stamp_is_month_end (t : Timestamp) :
  is_month_end (month_end_stamp t) = true.
Proof. unfold is_month_end, month_end_stamp. simpl. by rewrite !Z.eqb_refl. Qed.

Lemma month_end_stamp_fixed (t : Timestamp) :
  is_month_end t = true -> month_end_stamp t = t.
Proof.
  unfold is_month_end, month_end_stamp.
  destruct t as [[y m d] n tz]. simpl.
  intros [Hd Hn]%andb_prop. apply Z.eqb_eq in Hd, Hn. by subst.
Qed.

Lemma is_month_end_spec (t : Timestamp) :
  is_month_end t = true <->
  day (ts_date t) = days_in_month (year (ts_date t)) (month (ts_date t))
  /\ ts_nanos t = 0.
Proof. unfold is_month_end. by rewrite andb_true_iff, !Z.eqb_eq. Qed.

Lemma same_month_end_stamp (t : Timestamp) : same_month t (month_end_stamp t) = true.
Proof. by apply same_month_spec. Qed.

(** The first row of the result lies in the month of the first row of
    the argument. *)
Lemma resample_head (t : Timestamp) (v : float) (rest : list (Timestamp * float)) :
  exists t' v' out,
    resample_ME_last ((t, v) :: rest) = (t', v') :: out
    /\ same_month t t' = true.
Proof.
  simpl. destruct (resample_ME_last rest) as [|[t' v'] out].
  - eexists _, _, _. split; [reflexivity|]. apply same_month_end_stamp.
  - destruct (same_month t t') eqn:Hm.
    + eexists _, _, _. split; [reflexivity|]. exact Hm.
    + eexists _, _, _. split; [reflexivity|]. apply same_month_end_stamp.
Qed.

Lemma resample_month_ends (l : list (Timestamp * float)) :
  forallb (fun r => is_month_end (fst r)) (resample_ME_last l) = true.
Proof.
  induction l as [|[t v] rest IH]; [done|].
  simpl. destruct (resample_ME_last rest) as [|[t' v'] out].
  - simpl. by rewrite month_end_stamp_is_month_end.
  - simpl in IH. apply andb_prop in IH as [Ht' Hout].
    destruct (same_month t t'); simpl.
    + by rewrite Ht', Hout.
    + by rewrite month_end_stamp_is_month_end, Ht', Hout.
Qed.

Lemma resample_strict (l : list (Timestamp * float)) :
  weakly_increasing l = true ->
  strictly_increasing (resample_ME_last l) = true.
Proof.
  induction l as [|[t v] rest IH]; [done|]. intros Hinc.
  destruct (weakly_increasing_tail _ _ Hinc) as [Hrest Hall].
  specialize (IH Hrest).
  destruct rest as [|[t1 v1] rest']; [done|].
  destruct (resample_head t1 v1 rest') as (t' & v' & out & Heq & Hm1).
  change (resample_ME_last ((t, v) :: (t1, v1) :: rest'))
    with (match resample_ME_last ((t1, v1) :: rest') with
          | (t', v') :: out =>
              if same_month t t'
              then (t', if PrimFloat.is_nan v' then v else v') :: out
              else (month_end_stamp t, v) :: (t', v') :: out
          | [] => [(month_end_stamp t, v)]
          end).
  rewrite Heq in IH |- *.
  destruct (same_month t t') eqn:Hm.
  - destruct out as [|x out']; [done|]. exact IH.
  - change (ts_ltb (month_end_stamp t) t'
            && strictly_increasing ((t', v') :: out) = true).
    rewrite IH, andb_true_r.
    inversion Hall as [|? ? Hle _]; subst. simpl in Hle.
    rewrite naive_ltb_spec, negb_true_iff. apply not_true_iff_false.
    intros Hback. apply naive_leb_spec in Hback, Hle.
    apply same_month_spec in Hm1. apply not_true_iff_false in Hm.
    apply Hm, same_month_spec. simpl in Hback. lia.
Qed.

(** Month-end rows of distinct months are left as they are. *)
Lemma resample_fixed (l : list (Timestamp * float)) :
  strictly_increasing l = true ->
  forallb (fun r => is_month_end (fst r)) l = true ->
  resample_ME_last l = l.
Proof.
  induction l as [|[t v] rest IH]; [done|]. intros Hinc Hends.
  destruct (strictly_increasing_tail _ _ Hinc) as [Hrest Hall].
  simpl in Hends. apply andb_prop in Hends as [Ht Hends].
  simpl. rewrite (IH Hrest Hends).
  destruct rest as [|[t1 v1] rest'].
  - by rewrite month_end_stamp_fixed.
  - simpl in Hends. apply andb_prop in Hends as [Ht1 _].
    inversion Hall as [|? ? Hlt _]; subst. simpl in Hlt.
    replace (same_month t t1) with false; [by rewrite month_end_stamp_fixed|].
    symmetry. apply not_true_iff_false. intros Hm%same_month_spec.
    apply is_month_end_spec in Ht, Ht1.
    rewrite naive_ltb_spec, negb_true_iff in Hlt.
    apply not_true_iff_false in Hlt. apply Hlt, naive_leb_spec.
    destruct Hm as [Hy Hmo]. destruct Ht as [Hd Hn]. destruct Ht1 as [Hd1 Hn1].
    rewrite Hy, Hmo in Hd. lia.
Qed.

(** ** The window filter *)

Lemma clip_ok (start_ts end_ts : stamp) (l out : list (Timestamp * float)) :
  clip start_ts end_ts l = Ok out ->
  out = List.filter (fun r => in_window start_ts end_ts (fst r)) l.
Proof.
  revert out. induction l as [|[t v] rest IH]; intros out; simpl.
  - by intros [= <-].
  - unfold in_window. simpl.
    destruct (label_ge t start_ts) as [ge|], (label_le t end_ts) as [le|],
      (clip start_ts end_ts rest) as [out'|e]; try done.
    intros [= <-]. rewrite (IH out' eq_refl).
    by destruct (ge && le).
Qed.

Lemma clip_all (start_ts end_ts : stamp) (l : list (Timestamp * float)) :
  forallb (fun r => in_window start_ts end_ts (fst r)) l = true ->
  clip start_ts end_ts l = Ok l.
Proof.
  induction l as [|[t v] rest IH]; [done|]. simpl.
  intros [Ht Hrest]%andb_prop. rewrite (IH Hrest).
  unfold in_window in Ht.
  destruct (label_ge t start_ts) as [ge|], (label_le t end_ts) as [le|];
    try done.
  by rewrite Ht.
Qed.

(** No label lies in a window of which a bound is [NaT]. *)
Lemma in_window_nat (start_ts end_ts : stamp) (t : Timestamp) :
  start_ts = NaT \/ end_ts = NaT -> in_window start_ts end_ts t = false.
Proof.
  unfold in_window. intros [-> | ->]; simpl.
  - by destruct (label_le t end_ts).
  - destruct (label_ge t start_ts) as [[]|]; done.
Qed.

Lemma clip_nat (start_ts end_ts : stamp) (l out : list (Timestamp * float)) :
  start_ts = NaT \/ end_ts = NaT ->
  clip start_ts end_ts l = Ok out -> out = [].
Proof.
  intros Hnat ->%clip_ok. induction l as [|r l IH]; [done|].
  simpl. by rewrite in_window_nat.
Qed.

Lemma strictly_increasing_filter (p : Timestamp * float -> bool)
    (l : list (Timestamp * float)) :
  strictly_increasing l = true -> strictly_increasing (List.filter p l) = true.
Proof.
  induction l as [|r l IH]; [done|]. intros Hinc.
  destruct (strictly_increasing_tail r l Hinc) as [Hl Hall].
  simpl. destruct (p r); [|by apply IH].
  apply strictly_increasing_intro; [|by apply IH].
  apply Forall_forall. intros x Hx%list_elem_of_In%filter_In.
  rewrite Forall_forall in Hall. apply Hall, list_elem_of_In, Hx.
Qed.

Lemma forallb_filter_keep {A} (p q : A -> bool) (l : list A) :
  forallb p l = true -> forallb p (List.filter q l) = true.
Proof.
  induction l as [|a l IH]; [done|]. simpl.
  intros [Ha Hl]%andb_prop. destruct (q a); simpl; [rewrite Ha|]; by apply IH.
Qed.

Lemma filter_filter_andb {A} (p q : A -> bool) (l : list A) :
  List.filter q (List.filter p l) = List.filter (fun x => p x && q x) l.
Proof.
  induction l as [|a l IH]; [done|]. simpl.
  destruct (p a); simpl; [destruct (q a)|]; by rewrite IH.
Qed.

Lemma filter_all {A} (p : A -> bool) (l : list A) :
  forallb p l = true -> List.filter p l = l.
Proof.
  induction l as [|a l IH]; [done|]. simpl.
  intros [Ha Hl]%andb_prop. by rewrite Ha, IH.
Qed.

Lemma valid_rows_some (rows : list (Timestamp * float)) :
  valid_rows (map (fun r => (Some (fst r), snd r)) rows) = rows.
Proof.
  unfold valid_rows. induction rows as [|[t v] rows IH]; [done|].
  cbn. by rewrite IH.
Qed.

Lemma index_notna_some (rows : list (Timestamp * float)) :
  forallb index_notna (map (fun r => (Some (fst r), snd r)) rows) = true.
Proof. by induction rows. Qed.

(** What the window filter and the removal of nulls leave of rows that
    increase strictly. *)
Lemma windowed_clean (start_ts end_ts : stamp) (l out : list (Timestamp * float)) :
  strictly_increasing l = true ->
  clip start_ts end_ts l = Ok out ->
  clean_rows start_ts end_ts
    (map (fun r => (Some (fst r), snd r))
       (List.filter (fun r => negb (PrimFloat.is_nan (snd r))) out)).
Proof.
  intros Hinc Hclip. apply clip_ok in Hclip. subst out.
  unfold clean_rows. rewrite valid_rows_some. split_and!.
  - apply index_notna_some.
  - by do 2 apply strictly_increasing_filter.
  - set (l1 := List.filter (fun r => in_window start_ts end_ts (fst r)) l).
    assert (H1 : forallb (fun r => in_window start_ts end_ts (fst r))
                   (List.filter (fun r => negb (PrimFloat.is_nan (snd r))) l1) = true)
      by apply forallb_filter_keep, forallb_filter.
    assert (H2 : forallb (fun r => negb (PrimFloat.is_nan (snd r)))
                   (List.filter (fun r => negb (PrimFloat.is_nan (snd r))) l1) = true)
      by apply forallb_filter.
    revert H1 H2. generalize (List.filter (fun r => negb (PrimFloat.is_nan (snd r))) l1).
    induction l0 as [|a l0 IH]; [done|]. simpl.
    intros [Ha1 Hl1]%andb_prop [Ha2 Hl2]%andb_prop.
    by rewrite Ha1, Ha2, IH.
Qed.

(** ** _normalize_bars *)

(** The steps of [_normalize_bars] on bars of which one at least has a
    date and a close. *)
Lemma normalize_bars_rows `{SortIndex} (symbol : string) (bars : list Bar)
    (bar_size : string) (start_ts end_ts : stamp) (s : Series) :
  _normalize_bars symbol bars bar_size start_ts end_ts = Ok s ->
  (omap bar_row bars = [] /\ s = empty_series)
  \/ exists out,
       clip start_ts end_ts
         (if PyStr.contains "month" (PyStr.lower bar_size)
          then resample_ME_last
                 (drop_duplicated_keep_last (sort_index (omap bar_row bars)))
          else drop_duplicated_keep_last (sort_index (omap bar_row bars)))
       = Ok out
       /\ s = mkSeries (Some symbol)
                (map (fun r => (Some (fst r), snd r))
                   (List.filter (fun r => negb (PrimFloat.is_nan (snd r))) out)).
Proof.
  unfold _normalize_bars. destruct (omap bar_row bars) as [|r rows] eqn:Hrows.
  - intros [= <-]. by left.
  - destruct (clip _ _ _) as [out|e] eqn:Hclip; [|done].
    intros [= <-]. right. by exists out.
Qed.

Lemma normalized_strict `{SortIndex} (bars : list Bar) (monthly : bool) :
  strictly_increasing
    (if monthly
     then resample_ME_last (drop_duplicated_keep_last (sort_index (omap bar_row bars)))
     else drop_duplicated_keep_last (sort_index (omap bar_row bars))) = true.
Proof.
  pose proof (drop_duplicated_strict _ (sort_index_ordered (omap bar_row bars))) as Hd.
  destruct monthly; [|exact Hd].
  by apply resample_strict, strictly_weakly.
Qed.

(** X1. Whatever the bars, a series that [_normalize_bars] returns is
    clean: every row has a timestamp, the timestamps increase strictly
    (so no instant occurs twice), each lies between the two bounds of the
    request, and no value is null. The series is the unnamed empty series
    when no bar has both a date and a close, and carries the symbol as
    its name otherwise. For a monthly bar size every timestamp is the
    last day of its month at midnight. *)
Theorem normalize_bars_clean `{SortIndex} (symbol : string) (bars : list Bar)
    (bar_size : string) (start_ts end_ts : stamp) (s : Series) :
  _normalize_bars symbol bars bar_size start_ts end_ts = Ok s ->
  clean_rows start_ts end_ts (s_rows s)
  /\ (s = empty_series \/ s_name s = Some symbol)
  /\ (PyStr.contains "month" (PyStr.lower bar_size) = true ->
      forallb (fun r => is_month_end (fst r)) (valid_rows (s_rows s)) = true).
Proof.
  intros [[_ ->] | (out & Hclip & ->)]%normalize_bars_rows.
  - split_and!; [done | by left | done].
  - split_and!.
    + eapply windowed_clean; [|exact Hclip]. apply normalized_strict.
    + by right.
    + intros Hm. rewrite Hm in Hclip. apply clip_ok in Hclip. subst out.
      cbn [s_rows]. rewrite valid_rows_some.
      do 2 apply forallb_filter_keep. apply resample_month_ends.
Qed.

(** Three daily bars, two of them of one day, one with no close. *)
Lemma normalize_bars_clean_witness :
  let day1 := mkTs (mkDate 2023 1 2) 0 None in
  let day2 := mkTs (mkDate 2023 1 3) 0 None in
  let s := mkSeries (Some "ES") [(Some day1, 2%float)] in
  clean_rows fx_start fx_end (s_rows s)
  /\ (s = empty_series \/ s_name s = Some "ES")
  /\ (PyStr.contains "month" (PyStr.lower "1 day") = true ->
      forallb (fun r => is_month_end (fst r)) (valid_rows (s_rows s)) = true).
Proof.
  exact (@normalize_bars_clean sort_index_stable "ES"
           [ mkBar (Some (mkTs (mkDate 2023 1 2) 0 None)) (Some 1%float);
             mkBar (Some (mkTs (mkDate 2023 1 3) 0 None)) None;
             mkBar (Some (mkTs (mkDate 2023 1 2) 0 None)) (Some 2%float) ]
           "1 day" fx_start fx_end _ eq_refl).
Defined.

(** X2. For a bar size that is not monthly, every row of the result is
    a bar of the reply: its timestamp and its value are the date and the
    close of one bar. When no two bars of the reply carry the same
    instant, the result does not depend on how the sort orders equal
    instants: it is the bars that lie in the window and have a non-null
    close, in time order. *)
Theorem normalize_bars_rows_of_reply `{SortIndex} (symbol : string) (bars : list Bar)
    (bar_size : string) (start_ts end_ts : stamp) (s : Series) :
  PyStr.contains "month" (PyStr.lower bar_size) = false ->
  _normalize_bars symbol bars bar_size start_ts end_ts = Ok s ->
  (forall t v, In (Some t, v) (s_rows s) -> In (t, v) (omap bar_row bars))
  /\ (distinct_instants (omap bar_row bars) = true ->
      s_rows s
      = map (fun r => (Some (fst r), snd r))
          (List.filter (fun r => in_window start_ts end_ts (fst r)
                                 && negb (PrimFloat.is_nan (snd r)))
             (stable_sort (omap bar_row bars)))).
Proof.
  intros Hm [[Hrows ->] | (out & Hclip & ->)]%normalize_bars_rows.
  { split; [done|]. intros _. by rewrite Hrows. }
  rewrite Hm in Hclip. apply clip_ok in Hclip. subst out. cbn [s_rows]. split.
  - intros t v ([t' v'] & [= <- <-] & Hin)%in_map_iff.
    apply filter_In in Hin as [Hin _]. apply filter_In in Hin as [Hin _].
    by apply sort_index_elem, drop_duplicated_elem.
  - intros Hd. destruct (sort_index_distinct _ Hd) as [Hsort Hinc].
    rewrite (drop_duplicated_sorted _ Hinc), Hsort.
    by rewrite filter_filter_andb.
Qed.

(** Three daily bars of three days, out of order, one with a null
    close. *)
Lemma normalize_bars_rows_of_reply_witness :
  let day1 := mkTs (mkDate 2023 1 2) 0 None in
  let day2 := mkTs (mkDate 2023 1 3) 0 None in
  let day3 := mkTs (mkDate 2023 1 4) 0 None in
  let bars := [ mkBar (Some day3) (Some 3%float);
                mkBar (Some day1) (Some 1%float);
                mkBar (Some day2) (Some nan) ] in
  s_rows (mkSeries (Some "ES") [(Some day1, 1%float); (Some day3, 3%float)])
  = map (fun r => (Some (fst r), snd r))
      (List.filter (fun r => in_window fx_start fx_end (fst r)
                             && negb (PrimFloat.is_nan (snd r)))
         (stable_sort (omap bar_row bars))).
Proof.
  exact (proj2 (@normalize_bars_rows_of_reply sort_index_stable "ES"
                  [ mkBar (Some (mkTs (mkDate 2023 1 4) 0 None)) (Some 3%float);
                    mkBar (Some (mkTs (mkDate 2023 1 2) 0 None)) (Some 1%float);
                    mkBar (Some (mkTs (mkDate 2023 1 3) 0 None)) (Some nan) ]
                  "1 day" fx_start fx_end _ eq_refl eq_refl) eq_refl).
Defined.

(** ** Month-end series *)

(** With a bound that is [NaT] the window is empty. *)
Lemma to_monthly_close_nat (series : Series) (symbol : string)
    (start_date end_date : date_arg) (s : Series) :
  start_date = DateNaT \/ end_date = DateNaT ->
  _to_monthly_close series symbol start_date end_date = Ok s ->
  series_empty s = true.
Proof.
  intros Hnat. unfold _to_monthly_close.
  destruct (pd_Timestamp start_date) as [start_ts|e] eqn:Hs; [|done].
  destruct (pd_Timestamp end_date) as [end_ts|e] eqn:He; [|done].
  destruct (clip _ _ _) as [out|e] eqn:Hclip; [|done].
  apply clip_nat in Hclip; [by intros [= <-]; subst out|].
  destruct Hnat as [-> | ->]; [left | right]; simpl in *; congruence.
Qed.

Lemma to_monthly_close_shape (series : Series) (symbol : string)
    (start_date end_date : date_arg) (s : Series) :
  _to_monthly_close series symbol start_date end_date = Ok s ->
  series_empty s = false ->
  exists start_ts end_ts,
    start_date = DateValue start_ts /\ end_date = DateValue end_ts
    /\ clean_rows start_ts end_ts (s_rows s)
    /\ forallb (fun r => is_month_end (fst r)) (valid_rows (s_rows s)) = true
    /\ s_name s = Some (PyStr.upper (PyStr.strip symbol)).
Proof.
  intros Hrun Hne.
  destruct start_date as [start_ts| |].
  2:{ rewrite (to_monthly_close_nat _ _ _ _ _ (or_introl eq_refl) Hrun) in Hne.
      done. }
  2:{ done. }
  destruct end_date as [end_ts| |].
  2:{ rewrite (to_monthly_close_nat _ _ _ _ _ (or_intror eq_refl) Hrun) in Hne.
      done. }
  2:{ done. }
  revert Hrun. unfold _to_monthly_close. cbn [pd_Timestamp].
  destruct (clip _ _ _) as [out|e] eqn:Hclip; [|done].
  intros [= <-]. exists start_ts, end_ts. split_and!; [done | done | | | done].
  - eapply windowed_clean; [|exact Hclip].
    apply resample_strict, stable_sort_weakly.
  - apply clip_ok in Hclip. subst out. cbn [s_rows]. rewrite valid_rows_some.
    do 2 apply forallb_filter_keep. apply resample_month_ends.
Qed.

(** The tail that the four month-end wrappers share. *)
Lemma monthly_tail (fetch : M world Series) (symbol : string)
    (start_date end_date : date_arg) (w w' : world) (s : Series) :
  (series <- fetch ;;
   if series_empty series then ret series
   else of_outcome (_to_monthly_close series symbol start_date end_date)) w
  = (Ok s, w') ->
  series_empty s = false ->
  exists series, _to_monthly_close series symbol start_date end_date = Ok s.
Proof.
  unfold bind. destruct (fetch w) as [[series|e] w1]; [|done].
  destruct (series_empty series) eqn:He.
  - intros [= <- <-]. congruence.
  - intros Hrun _. exists series. unfold of_outcome in Hrun.
    destruct (_to_monthly_close _ _ _ _) as [s'|e]; [|done].
    by inversion Hrun.
Qed.

(** X3. A non-empty series returned by one of the four month-end
    wrappers ([fetch_monthly_close_futures], [_fx], [_bond], [_option])
    is a clean month-end series, whether it was served from the cache or
    fetched: both dates were parsed, every row has a timestamp that is the
    last day of a month at midnight, the timestamps increase strictly and
    lie between the two bounds, no value is null, and the name is the
    symbol stripped and upper-cased. *)
Theorem monthly_wrappers_shape `{Md5} `{Resolver} `{SortIndex} (symbol : string)
    (start_date end_date : date_arg) (identity : contract_identity)
    (fetch : M world Series) (w w' : world) (s : Series) :
  In fetch [ fetch_monthly_close_futures symbol start_date end_date;
             fetch_monthly_close_fx symbol start_date end_date;
             fetch_monthly_close_bond symbol start_date end_date identity;
             fetch_monthly_close_option symbol start_date end_date identity ] ->
  fetch w = (Ok s, w') ->
  series_empty s = false ->
  exists start_ts end_ts,
    start_date = DateValue start_ts /\ end_date = DateValue end_ts
    /\ clean_rows start_ts end_ts (s_rows s)
    /\ forallb (fun r => is_month_end (fst r)) (valid_rows (s_rows s)) = true
    /\ s_name s = Some (PyStr.upper (PyStr.strip symbol)).
Proof.
  intros Hin Hrun Hne.
  assert (Htail : exists series,
             _to_monthly_close series symbol start_date end_date = Ok s).
  { simpl in Hin. destruct Hin as [<-|[<-|[<-|[<-|[]]]]];
      eapply monthly_tail; try exact Hne; exact Hrun. }
  destruct Htail as [series Hs]. by eapply to_monthly_close_shape.
Qed.

(** The EURUSD request on a cache directory that holds a fresh entry
    with one daily row for its first candidate. *)
Lemma monthly_wrappers_shape_witness :
  let s := mkSeries (Some "EURUSD") [(Some (mkTs (mkDate 2023 1 31) 0 None), 1.25%float)] in
  exists start_ts end_ts,
    DateValue fx_start = DateValue start_ts /\ DateValue fx_end = DateValue end_ts
    /\ clean_rows start_ts end_ts (s_rows s)
    /\ forallb (fun r => is_month_end (fst r)) (valid_rows (s_rows s)) = true
    /\ s_name s = Some (PyStr.upper (PyStr.strip " eurusd")).
Proof.
  pose (w := world_at t_2024_01_15
               {[ fx_path "MIDPOINT" := good_entry t_2024_01_15 ]} gateway_down).
  refine (@monthly_wrappers_shape md5_plain resolver_any sort_index_stable " eurusd"
            (DateValue fx_start) (DateValue fx_end) None
            (@fetch_monthly_close_fx md5_plain resolver_any sort_index_stable " eurusd"
               (DateValue fx_start) (DateValue fx_end))
            w
            (snd (@fetch_monthly_close_fx md5_plain resolver_any sort_index_stable " eurusd"
                    (DateValue fx_start) (DateValue fx_end) w))
            _ _ _ _).
  - right. by left.
  - vm_compute. reflexivity.
  - reflexivity.
Defined.

(** X4. Monthly bars are resampled to month ends twice on their way
    through [fetch_monthly_close_futures]: once by [_normalize_bars], once
    by [_to_monthly_close]. The second pass changes nothing: on a
    non-empty series that [_normalize_bars] made from bars of a monthly
    size, [_to_monthly_close] with the same bounds returns the same rows,
    under the symbol stripped and upper-cased. *)
Theorem monthly_close_of_monthly_bars `{SortIndex} (symbol : string)
    (bars : list Bar) (bar_size : string) (start_ts end_ts : Timestamp) (s : Series) :
  PyStr.contains "month" (PyStr.lower bar_size) = true ->
  _normalize_bars symbol bars bar_size start_ts end_ts = Ok s ->
  series_empty s = false ->
  _to_monthly_close s symbol (DateValue start_ts) (DateValue end_ts)
  = Ok (set_name (PyStr.upper (PyStr.strip symbol)) s).
Proof.
  intros Hm [[_ ->] | (out & Hclip & ->)]%normalize_bars_rows _; [done|].
  rewrite Hm in Hclip.
  pose proof (windowed_clean _ _ _ _ (normalized_strict bars true) Hclip)
    as (_ & Hinc & Hwin).
  apply clip_ok in Hclip. subst out.
  unfold _to_monthly_close, set_name. cbn [pd_Timestamp s_rows].
  rewrite valid_rows_some in *.
  set (rows := List.filter (fun r => negb (PrimFloat.is_nan (snd r))) _) in *.
  assert (Hends : forallb (fun r => is_month_end (fst r)) rows = true)
    by (do 2 apply forallb_filter_keep; apply resample_month_ends).
  assert (Hin : forallb (fun r => in_window start_ts end_ts (fst r)) rows = true
                /\ forallb (fun r => negb (PrimFloat.is_nan (snd r))) rows = true).
  { clear -Hwin. induction rows as [|a rows IH]; [done|]. simpl in *.
    apply andb_prop in Hwin as [[Ha1 Ha2]%andb_prop Hrest].
    destruct (IH Hrest) as [-> ->]. by rewrite Ha1, Ha2. }
  destruct Hin as [Hin Hval].
  rewrite (stable_sort_sorted _ Hinc), (resample_fixed _ Hinc Hends).
  rewrite (clip_all _ _ _ Hin), (filter_all _ _ Hval). reflexivity.
Qed.

(** Two monthly bars of one month. *)
Lemma monthly_close_of_monthly_bars_witness :
  let s := mkSeries (Some "ES") [(Some (mkTs (mkDate 2023 1 31) 0 None), 2%float)] in
  _to_monthly_close s "ES" (DateValue fx_start) (DateValue fx_end)
  = Ok (set_name (PyStr.upper (PyStr.strip "ES")) s).
Proof.
  exact (@monthly_close_of_monthly_bars sort_index_stable "ES"
           [ mkBar (Some (mkTs (mkDate 2023 1 2) 0 None)) (Some 1%float);
             mkBar (Some (mkTs (mkDate 2023 1 30) 0 None)) (Some 2%float) ]
           "1 month" fx_start fx_end _ eq_refl eq_refl eq_refl).
Defined.

(** * More of the disk cache *)

(** ** What a get does to the cache directory *)

Lemma astype_float_notna (rows : list (index_cell * cellval))
    (out : list (index_cell * float)) :
  forallb (fun r => match fst r with Some _ => true | None => false end) rows = true ->
  astype_float rows = Ok out ->
  forallb index_notna out = true.
Proof.
  revert out. induction rows as [|[i c] rows IH]; intros out; simpl.
  - by intros _ [= <-].
  - intros [Hi Hrows]%andb_prop. destruct c as [f|]; [|done].
    destruct (astype_float rows) as [out'|e]; [|done].
    intros [= <-]. simpl. unfold index_notna at 1. simpl.
    destruct i; [|done]. by apply IH.
Qed.

Lemma safe_read_of_series (path : string) (c : file_content) (w : world) (s : Series) :
  fst (safe_read_of path c w) = Ok (Some s) ->
  forallb index_notna (s_rows s) = true
  /\ snd (safe_read_of path c w) = log_event (EvCacheRead path) w.
Proof.
  unfold safe_read_of. destruct c as [e|fr].
  - by destruct (read_error_caught e).
  - destruct (frame_empty fr); [by intros [= <-]|].
    destruct (frame_column "value" (fr_columns fr)) as [cells|]; [|done].
    destruct (astype_float _) as [rows|e] eqn:Hrows; [|done].
    simpl. intros [= <-]. split; [|done].
    eapply astype_float_notna; [|exact Hrows]. apply forallb_filter.
Qed.

(** X6. [get_cached] touches the cache directory and nothing else (same
    clock, same gateway, no gateway call), and there the only change it
    can make is to delete the file of its own key, in which case it
    returns absent. When it returns a series the directory is unchanged,
    the series is named by the symbol stripped and upper-cased, and no
    row of it has a missing timestamp. *)
Theorem get_cached_effect `{Md5}
    (symbol instrument_type what_to_show bar_size : string) (use_rth : bool)
    (start_date end_date : stamp) (now : option Timestamp) (w : world) :
  let path := cache_file_name symbol instrument_type what_to_show bar_size
                use_rth start_date end_date in
  let run := get_cached symbol instrument_type what_to_show bar_size use_rth
               start_date end_date now w in
  cache_activity_only w (snd run)
  /\ (w_fs (snd run) = w_fs w
      \/ (fst run = Ok None /\ w_fs (snd run) = delete path (w_fs w)))
  /\ (forall s, fst run = Ok (Some s) ->
        w_fs (snd run) = w_fs w
        /\ s_name s = Some (PyStr.upper (PyStr.strip symbol))
        /\ forallb index_notna (s_rows s) = true).
Proof.
  intros path run. subst run. unfold cache_activity_only.
  destruct (w_fs w !! path) as [f|] eqn:Hf.
  - rewrite (get_cached_present _ _ _ _ _ _ _ _ w f) by exact Hf. cbv zeta.
    fold path. destruct (_is_expired _ _ _).
    + simpl. split_and!; [done | done | done | | by right | done].
      eexists [_; _]. rewrite <- app_assoc. done.
    + pose proof (safe_read_of_effect path (f_content f)
                    (log_event (EvCacheStat path) w)) as Heff.
      pose proof (safe_read_of_series path (f_content f)
                    (log_event (EvCacheStat path) w)) as Hser.
      cbv zeta in Heff.
      destruct (safe_read_of _ _ _) as [r w2] eqn:Hread. simpl in Heff, Hser.
      assert (Hact : w_clock w2 = w_clock w /\ w_gateway w2 = w_gateway w
                     /\ w_calls w2 = w_calls w
                     /\ (exists evs, w_log w2 = (w_log w ++ evs)%list
                                     /\ forallb is_cache_event evs = true)
                     /\ (w_fs w2 = w_fs w
                         \/ (r = Ok None /\ w_fs w2 = delete path (w_fs w)))).
      { destruct Heff as [-> | [-> ->]]; simpl.
        - split_and!; [done | done | done | | by left].
          eexists [_; _]. rewrite <- app_assoc. done.
        - split_and!; [done | done | done | | by right].
          eexists [_; _; _]. rewrite <- !app_assoc. done. }
      destruct Hact as (? & ? & ? & ? & Hfs).
      destruct r as [[s|]|e]; simpl; (split_and!; [done | done | done | done | |]).
      * destruct Hfs as [?|[? ?]]; [by left|done].
      * intros s' [= <-]. destruct (Hser s eq_refl) as [Hidx ->].
        by split_and!.
      * exact Hfs.
      * done.
      * destruct Hfs as [?|[? ?]]; [by left|done].
      * done.
  - rewrite (get_cached_absent _ _ _ _ _ _ _ _ w) by exact Hf. simpl.
    split_and!; [done | done | done | | by left | done]. by eexists [_].
Qed.

(** ** The current-month test *)

Lemma ts_leb_antisym (a b : Timestamp) :
  ts_leb a b = true -> ts_leb b a = true -> same_stamp a b = true.
Proof.
  intros H1 H2. apply same_stamp_spec.
  apply naive_leb_spec in H1. apply naive_leb_spec in H2. lia.
Qed.

Lemma ts_leb_same_l (a b c : Timestamp) :
  same_stamp a b = true -> ts_leb a c = ts_leb b c.
Proof.
  intros Hab%same_stamp_spec. apply eq_true_iff_eq.
  rewrite !naive_leb_spec. lia.
Qed.

Lemma ts_leb_same_r (a b c : Timestamp) :
  same_stamp a b = true -> ts_leb c a = ts_leb c b.
Proof.
  intros Hab%same_stamp_spec. apply eq_true_iff_eq.
  rewrite !naive_leb_spec. lia.
Qed.

(** X7. The current-month test, and with it the choice between the
    four-hour TTL and no TTL, does not depend on the order in which the
    two bounds of the window are given: an inverted window is tested as
    the window with its bounds exchanged. *)
Theorem includes_current_month_symmetric (start_date end_date : stamp)
    (now : Timestamp) :
  _includes_current_month start_date end_date now
  = _includes_current_month end_date start_date now.
Proof.
  destruct start_date as [|start_date], end_date as [|end_date];
    try (unfold _includes_current_month; cbn; by rewrite ?andb_false_r).
  unfold _includes_current_month. cbn [_to_timestamp stamp_ltb].
  set (s := naive_utc start_date). set (e := naive_utc end_date).
  rewrite !naive_ltb_spec.
  destruct (ts_leb s e) eqn:Hse, (ts_leb e s) eqn:Hes; simpl; try reflexivity.
  - pose proof (ts_leb_antisym _ _ Hse Hes) as Hsame.
    by rewrite (ts_leb_same_l s e _ Hsame), (ts_leb_same_r s e _ Hsame).
  - apply ts_leb_total in Hse. congruence.
Qed.

(** ** Clearing the cache *)

Lemma substring_all (s : string) : String.substring 0 (String.length s) s = s.
Proof. induction s as [|c s IH]; [done|]. simpl. by rewrite IH. Qed.

Lemma ends_with_app (a suffix : string) : ends_with suffix (a +:+ suffix) = true.
Proof.
  induction a as [|c a IH]; simpl.
  - destruct suffix; simpl; [done|]. by rewrite Ascii.eqb_refl, String.eqb_refl.
  - rewrite IH. apply orb_true_r.
Qed.

(** Every file that the cache writes or reads is one that the
    maintenance functions list. *)
Lemma cache_file_name_glob `{Md5}
    (symbol instrument_type what_to_show bar_size : string) (use_rth : bool)
    (start_date end_date : stamp) :
  glob_ibkr_parquet (cache_file_name symbol instrument_type what_to_show bar_size
                       use_rth start_date end_date) = true.
Proof.
  unfold glob_ibkr_parquet, cache_file_name.
  set (key := cache_key _ _ _ _ _ _ _).
  change ("ibkr_" +:+ key +:+ ".parquet")
    with (String "i" (String "b" (String "k" (String "r" (String "_"
            (key +:+ ".parquet")))))).
  cbn [PyStr.is_prefix Ascii.eqb Bool.eqb String.length Nat.sub String.substring].
  rewrite Nat.sub_0_r, substring_all. apply ends_with_app.
Qed.

(** The loop removes the files of the listing that the age test does not
    keep, counts them and adds up their sizes. *)
Lemma clear_loop_spec `{StSize} (older_than_hours : option Z)
    (files : list (string * file)) (removed freed : Z) (w : world) :
  let chosen :=
    List.filter (fun e => negb (kept_by_age older_than_hours (w_clock w) (snd e)))
      files in
  exists w',
    clear_loop older_than_hours files removed freed w
    = (Ok (removed + Z.of_nat (length chosen), freed + total_size chosen), w')
    /\ w_clock w' = w_clock w /\ w_gateway w' = w_gateway w
    /\ w_calls w' = w_calls w
    /\ (forall p, w_fs w' !! p
                  = if bool_decide (p ∈ map fst chosen) then None
                    else w_fs w !! p)
    /\ exists evs, w_log w' = (w_log w ++ evs)%list
                   /\ forallb is_cache_event evs = true.
Proof.
  revert removed freed w.
  induction files as [|[name f] rest IH]; intros removed freed w; cbv zeta.
  - exists w. unfold total_size. simpl. unfold ret. rewrite !Z.add_0_r.
    split_and!; try done. exists []. by rewrite app_nil_r.
  - cbn [clear_loop]. unfold bind at 1 2, modify, gets.
    cbn [w_clock log_event List.filter snd].
    destruct (kept_by_age older_than_hours (w_clock w) f) eqn:Hkept; cbn [negb].
    + destruct (IH removed freed (log_event (EvCacheStat name) w))
        as (w' & Hrun & Hc & Hg & Hn & Hfs & evs & Hlog & Hevs).
      cbv zeta in Hrun. cbn [w_clock log_event] in Hrun.
      exists w'. split_and!; try done.
      exists (EvCacheStat name :: evs). split; [|done].
      rewrite Hlog. cbn [w_log log_event]. by rewrite <- app_assoc.
    + unfold bind, unlink, modify.
      destruct (IH (removed + 1) (freed + st_size (f_content f))
                  (set_fs (delete name (w_fs (log_event (EvCacheStat name) w)))
                     (log_event (EvCacheUnlink name)
                        (log_event (EvCacheStat name) w))))
        as (w' & Hrun & Hc & Hg & Hn & Hfs & evs & Hlog & Hevs).
      cbv zeta in Hrun. cbn [w_clock log_event set_fs] in Hrun.
      exists w'. split_and!; try done.
      * rewrite Hrun. unfold total_size. cbn [length foldr snd].
        match goal with
        | |- (Ok (?a, ?b), _) = (Ok (?a', ?b'), _) =>
            replace a' with a by lia; replace b' with b by lia
        end.
        reflexivity.
      * intros p. rewrite Hfs. cbn [w_fs set_fs log_event map fst].
        destruct (decide (p = name)) as [->|Hne].
        -- rewrite lookup_delete_eq.
           rewrite (bool_decide_eq_true_2 (name ∈ name :: _))
             by (apply elem_of_cons; by left).
           by destruct (bool_decide _).
        -- rewrite lookup_delete_ne by done.
           destruct (bool_decide (p ∈ map fst _)) eqn:Hin.
           ++ apply bool_decide_eq_true_1 in Hin.
              by rewrite bool_decide_eq_true_2 by (apply elem_of_cons; by right).
           ++ apply bool_decide_eq_false_1 in Hin.
              rewrite bool_decide_eq_false_2; [done|].
              intros [Heq|Hin']%elem_of_cons; [congruence|done].
      * exists (EvCacheStat name :: EvCacheUnlink name :: evs). split; [|done].
        rewrite Hlog. cbn [w_log log_event set_fs]. by rewrite <- !app_assoc.
Qed.

Lemma selected_listing (older_than_hours : option Z) (w : world) :
  List.filter
    (fun e => negb (kept_by_age older_than_hours (w_clock w) (snd e)))
    (glob_cache w)
  = List.filter
      (fun e => selected older_than_hours (w_clock w) (fst e) (snd e))
      (map_to_list (w_fs w)).
Proof. unfold glob_cache, selected. apply filter_filter_andb. Qed.

Lemma selected_elem (older_than_hours : option Z) (w : world) (name : string) :
  In name (map fst (List.filter
                      (fun e => selected older_than_hours (w_clock w) (fst e) (snd e))
                      (map_to_list (w_fs w))))
  <-> exists f, w_fs w !! name = Some f
                /\ selected older_than_hours (w_clock w) name f = true.
Proof.
  rewrite in_map_iff. split.
  - intros ([n f] & <- & [Hin Hsel]%filter_In). exists f. split; [|done].
    by apply elem_of_map_to_list, list_elem_of_In.
  - intros (f & Hf & Hsel). exists (name, f). split; [done|].
    apply filter_In. split; [|done].
    by apply list_elem_of_In, elem_of_map_to_list.
Qed.

(** X8. [clear_disk_cache] rejects a negative age with a [ValueError]
    before it touches anything. Otherwise it returns, and the files that
    are gone are exactly the files whose name matches [ibkr_*.parquet]
    and, when an age is given, whose age exceeds it (a file of exactly
    that age stays); every other file is as it was. The summary counts
    these files and adds up their sizes. *)
Theorem clear_disk_cache_effect `{StSize} (older_than_hours : option Z) (w : world) :
  let run := clear_disk_cache older_than_hours w in
  let gone :=
    List.filter (fun e => selected older_than_hours (w_clock w) (fst e) (snd e))
      (map_to_list (w_fs w)) in
  (forall h, older_than_hours = Some h -> h < 0 ->
     exists msg, run = (Raise (mkExn ValueError msg), w))
  /\ ((forall h, older_than_hours = Some h -> 0 <= h) ->
      exists r,
        fst run = Ok r
        /\ files_removed r = Z.of_nat (length gone)
        /\ bytes_freed r = total_size gone
        /\ errors r = []
        /\ (forall name,
              w_fs (snd run) !! name
              = match w_fs w !! name with
                | Some f =>
                    if selected older_than_hours (w_clock w) name f then None
                    else Some f
                | None => None
                end)
        /\ w_clock (snd run) = w_clock w /\ w_calls (snd run) = w_calls w).
Proof.
  intros run gone. subst run. split.
  - intros h -> Hneg. unfold clear_disk_cache.
    destruct (Z.ltb_spec h 0); [|lia]. eexists. reflexivity.
  - intros Hvalid. unfold clear_disk_cache.
    replace (match older_than_hours with Some h => h <? 0 | None => false end)
      with false.
    2:{ destruct older_than_hours as [h|]; [|done].
        specialize (Hvalid h eq_refl). symmetry. apply Z.ltb_ge. lia. }
    unfold bind at 1, gets.
    destruct (clear_loop_spec older_than_hours (glob_cache w) 0 0 w)
      as (w' & Hrun & Hc & Hg & Hn & Hfs & _).
    cbv zeta in Hrun, Hfs. rewrite selected_listing in Hrun, Hfs. fold gone in Hrun, Hfs.
    unfold bind. rewrite Hrun. cbn [ret fst snd files_removed bytes_freed errors].
    eexists. split_and!; try done.
    intros name. rewrite Hfs.
    destruct (w_fs w !! name) as [f|] eqn:Hf.
    + destruct (selected older_than_hours (w_clock w) name f) eqn:Hsel.
      * rewrite bool_decide_eq_true_2; [done|].
        apply list_elem_of_In, selected_elem. by exists f.
      * rewrite bool_decide_eq_false_2; [done|].
        intros (f' & Hf' & Hsel')%list_elem_of_In%selected_elem. congruence.
    + by destruct (bool_decide _).
Qed.

(** X9. After [clear_disk_cache] with no age, whatever the cache held, a
    [get_cached] under any key finds nothing: it returns absent after one
    look at the directory, and reads no file. *)
Theorem clear_then_get_misses `{Md5} `{StSize}
    (symbol instrument_type what_to_show bar_size : string) (use_rth : bool)
    (start_date end_date : stamp) (now : option Timestamp) (w : world) :
  let path := cache_file_name symbol instrument_type what_to_show bar_size
                use_rth start_date end_date in
  let cleared := snd (clear_disk_cache None w) in
  is_raise (fst (clear_disk_cache None w)) = false
  /\ get_cached symbol instrument_type what_to_show bar_size use_rth
       start_date end_date now cleared
     = (Ok None, log_event (EvCacheStat path) cleared).
Proof.
  intros path cleared. subst cleared.
  unfold clear_disk_cache. unfold bind at 1 3, gets.
  destruct (clear_loop_spec None (glob_cache w) 0 0 w)
    as (w' & Hrun & _ & _ & _ & Hfs & _).
  cbv zeta in Hrun, Hfs. rewrite selected_listing in Hrun, Hfs.
  unfold bind. rewrite Hrun. cbn [ret fst snd is_raise]. split; [done|].
  apply get_cached_absent. fold path. rewrite Hfs.
  destruct (w_fs w !! path) as [f|] eqn:Hf; [|by destruct (bool_decide _)].
  rewrite bool_decide_eq_true_2; [done|].
  apply list_elem_of_In, selected_elem. exists f. split; [done|].
  unfold selected, path. by rewrite cache_file_name_glob.
Qed.

(** * Profiles, contracts and accounts *)

(** ** Instrument types and profiles *)

Lemma str_in_In (s : string) (l : list string) : str_in s l = true <-> In s l.
Proof.
  unfold str_in. rewrite existsb_exists. split.
  - intros (x & Hin & Heq%String.eqb_eq). by subst.
  - intros Hin. exists s. split; [done|]. apply String.eqb_refl.
Qed.

(** Case analysis on a tag: it is the given literal, or every test
    against that literal fails. *)
Ltac split_tag tag lit :=
  destruct (decide (tag = lit)) as [->|?];
  [ | rewrite ?(proj2 (String.eqb_neq lit tag)), ?(proj2 (String.eqb_neq tag lit))
        by congruence ].

Lemma get_profile_cases (instrument_type_ : string) :
  (exists p, get_profile instrument_type_ = Ok p
             /\ In p (map snd _PROFILES)
             /\ str_in (PyStr.lower (PyStr.strip instrument_type_)) profiled_tags = true)
  \/ (exists msg, get_profile instrument_type_ = Raise (mkExn KeyError msg)
                  /\ str_in (PyStr.lower (PyStr.strip instrument_type_)) profiled_tags
                     = false).
Proof.
  unfold get_profile, coerce_instrument_type.
  set (tag := PyStr.lower (PyStr.strip instrument_type_)). clearbody tag.
  unfold _PROFILES, _VALID_INSTRUMENT_TYPES, profiled_tags, str_in.
  cbn [dict_get existsb map snd].
  split_tag tag "futures"; [left; eexists; split_and!; [reflexivity | simpl; tauto | done]|].
  split_tag tag "futures_daily";
    [left; eexists; split_and!; [reflexivity | simpl; tauto | done]|].
  split_tag tag "fx"; [left; eexists; split_and!; [reflexivity | simpl; tauto | done]|].
  split_tag tag "bond"; [left; eexists; split_and!; [reflexivity | simpl; tauto | done]|].
  split_tag tag "option"; [left; eexists; split_and!; [reflexivity | simpl; tauto | done]|].
  split_tag tag "forex"; [left; eexists; split_and!; [reflexivity | simpl; tauto | done]|].
  split_tag tag "fx_artifact";
    [left; eexists; split_and!; [reflexivity | simpl; tauto | done]|].
  split_tag tag "equity"; [right; eexists; split; reflexivity|].
  split_tag tag "unknown"; [right; eexists; split; reflexivity|].
  right. eexists. split; reflexivity.
Qed.

(** X10. [get_profile] returns a profile exactly for the instrument
    types that, stripped and lower-cased, are one of futures,
    futures_daily, fx, bond, option, forex and fx_artifact; for every
    other type (equity and unknown among them) it raises [KeyError]. A
    profile that it returns is one of the table, its instrument type is
    futures, fx, bond or option, and its chain of candidates is not
    empty. *)
Theorem get_profile_defined (instrument_type_ : string) :
  match get_profile instrument_type_ with
  | Ok p =>
      str_in (PyStr.lower (PyStr.strip instrument_type_)) profiled_tags = true
      /\ In p (map snd _PROFILES)
      /\ str_in (instrument_type p) ["futures"; "fx"; "bond"; "option"] = true
      /\ what_to_show_chain p <> []
  | Raise e =>
      str_in (PyStr.lower (PyStr.strip instrument_type_)) profiled_tags = false
      /\ exn_cls e = KeyError
  end.
Proof.
  destruct (get_profile_cases instrument_type_)
    as [(p & -> & Hin & Htag) | (msg & -> & Htag)]; [|done].
  split_and!; [done | done | |];
    simpl in Hin; destruct Hin as [<-|[<-|[<-|[<-|[<-|[]]]]]]; done.
Qed.

Lemma valid_type_fixed (tag : string) :
  str_in tag _VALID_INSTRUMENT_TYPES = true ->
  PyStr.lower (PyStr.strip tag) = tag.
Proof.
  intros Hin%str_in_In. simpl in Hin.
  destruct Hin as [<-|[<-|[<-|[<-|[<-|[<-|[<-|[]]]]]]]]; reflexivity.
Qed.

(** X11. With a default that is a valid instrument type,
    [coerce_instrument_type] returns a valid instrument type whatever it
    is given, and coercing its result again changes nothing. *)
Theorem coerce_instrument_type_valid (value default : string) :
  str_in default _VALID_INSTRUMENT_TYPES = true ->
  str_in (coerce_instrument_type value default) _VALID_INSTRUMENT_TYPES = true
  /\ coerce_instrument_type (coerce_instrument_type value default) default
     = coerce_instrument_type value default.
Proof.
  intros Hd. unfold coerce_instrument_type.
  destruct (str_in (PyStr.lower (PyStr.strip value)) _VALID_INSTRUMENT_TYPES) eqn:Hv.
  - split; [done|]. by rewrite (valid_type_fixed _ Hv), Hv.
  - split; [done|]. by rewrite (valid_type_fixed _ Hd), Hd.
Qed.

Lemma coerce_instrument_type_valid_witness :
  str_in (coerce_instrument_type " Futures " "unknown") _VALID_INSTRUMENT_TYPES = true
  /\ coerce_instrument_type (coerce_instrument_type " Futures " "unknown") "unknown"
     = coerce_instrument_type " Futures " "unknown".
Proof. exact (coerce_instrument_type_valid " Futures " "unknown" eq_refl). Defined.

(** ** FX pairs *)

Lemma is_upper_not_space (c : ascii) :
  PyStr.is_upper c = true -> PyStr.is_space c = false /\ PyStr.upper_char c = c.
Proof.
  destruct c as [[|] [|] [|] [|] [|] [|] [|] [|]]; vm_compute; intros; done.
Qed.

Lemma letters_only_idem (s : string) : letters_only (letters_only s) = letters_only s.
Proof.
  unfold letters_only. induction s as [|c s IH]; [done|]. simpl.
  destruct (PyStr.is_upper c) eqn:Hc; [|done]. simpl. by rewrite Hc, IH.
Qed.

Lemma letters_only_upper (s : string) :
  PyStr.upper (letters_only s) = letters_only s.
Proof.
  unfold letters_only, PyStr.upper. induction s as [|c s IH]; [done|]. simpl.
  destruct (PyStr.is_upper c) eqn:Hc; [|done]. simpl.
  by rewrite (proj2 (is_upper_not_space c Hc)), IH.
Qed.

Lemma letters_only_rstrip (s : string) :
  PyStr.rstrip (letters_only s) = letters_only s.
Proof.
  unfold letters_only. induction s as [|c s IH]; [done|]. simpl.
  destruct (PyStr.is_upper c) eqn:Hc; [|done]. simpl. rewrite IH.
  destruct (filter_str PyStr.is_upper s); [|done].
  by rewrite (proj1 (is_upper_not_space c Hc)).
Qed.

Lemma letters_only_strip (s : string) :
  PyStr.strip (letters_only s) = letters_only s.
Proof.
  unfold PyStr.strip. rewrite lstrip_id; [apply letters_only_rstrip|].
  unfold letters_only, PyStr.no_leading_space.
  induction s as [|c s IH]; [done|]. simpl.
  destruct (PyStr.is_upper c) eqn:Hc; [|exact IH].
  apply (is_upper_not_space c Hc).
Qed.

(** X12. [_normalize_fx_pair] accepts a symbol exactly when, stripped
    and upper-cased, it holds six letters, whatever stands between them;
    the pattern test adds nothing. The pair it returns is these six
    letters, and normalizing a pair again returns it unchanged. Every
    rejection is an [IBKRContractError]. *)
Theorem normalize_fx_pair_spec (symbol : string) :
  match _normalize_fx_pair symbol with
  | Ok fx_pair =>
      fx_pair = letters_only (PyStr.upper (PyStr.strip symbol))
      /\ String.length fx_pair = 6%nat
      /\ _normalize_fx_pair fx_pair = Ok fx_pair
  | Raise e =>
      String.length (letters_only (PyStr.upper (PyStr.strip symbol))) <> 6%nat
      /\ exn_cls e = IBKRContractError
  end.
Proof.
  unfold _normalize_fx_pair at 1.
  set (raw := PyStr.upper (PyStr.strip symbol)).
  destruct (PyStr.truthy raw) eqn:Hraw; cbn [negb].
  - destruct (Nat.eqb_spec (String.length (letters_only raw)) 6) as [Hlen|Hlen];
      cbn [negb]; rewrite ?andb_false_r.
    + split_and!; [done | done |].
      unfold _normalize_fx_pair.
      rewrite letters_only_strip, letters_only_upper, letters_only_idem, Hlen.
      destruct (letters_only raw) eqn:Hl; [done|]. simpl.
      by rewrite andb_false_r.
    + rewrite andb_true_r. by destruct (_FX_PAIR_RE_match raw).
  - destruct raw; [|done]. done.
Qed.

(** ** Resolver dispatch *)

(** X13. The resolver of [ibkr/contracts.py] has a branch for every
    profile: whenever [get_profile] finds a profile, resolving a contract
    for the instrument type of that profile, as [fetch_series] does, goes
    to the resolver of that type (futures, fx, bond or option) and never
    to the branches that reject the type. *)
Theorem profiled_types_resolve (Forex : string -> Contract)
    (resolve_futures_contract : string -> outcome Contract)
    (resolve_bond_contract resolve_option_contract
       : string -> contract_identity -> outcome Contract)
    (instrument_type_ symbol : string) (identity : contract_identity)
    (p : InstrumentProfile) :
  get_profile instrument_type_ = Ok p ->
  contracts_resolve_contract Forex resolve_futures_contract resolve_bond_contract
    resolve_option_contract symbol (instrument_type p) identity
  = if String.eqb (instrument_type p) "futures" then resolve_futures_contract symbol
    else if String.eqb (instrument_type p) "fx" then resolve_fx_contract Forex symbol
    else if String.eqb (instrument_type p) "bond"
    then resolve_bond_contract symbol identity
    else resolve_option_contract symbol identity.
Proof.
  intros Hp.
  destruct (get_profile_cases instrument_type_)
    as [(p' & Hp' & Hin & _) | (msg & Hraise & _)]; [|congruence].
  assert (p' = p) as -> by congruence.
  simpl in Hin. destruct Hin as [<-|[<-|[<-|[<-|[<-|[]]]]]]; reflexivity.
Qed.

Lemma profiled_types_resolve_witness :
  contracts_resolve_contract (fun fx_pair => mkContract fx_pair "CASH" "")
    (fun _ => Raise (mkExn IBKRContractError "no mapping"))
    (fun _ _ => Raise (mkExn IBKRContractError "no con_id"))
    (fun _ _ => Raise (mkExn IBKRContractError "no con_id"))
    "eur.usd" "fx" None
  = resolve_fx_contract (fun fx_pair => mkContract fx_pair "CASH" "") "eur.usd".
Proof.
  exact (profiled_types_resolve (fun fx_pair => mkContract fx_pair "CASH" "")
           (fun _ => Raise (mkExn IBKRContractError "no mapping"))
           (fun _ _ => Raise (mkExn IBKRContractError "no con_id"))
           (fun _ _ => Raise (mkExn IBKRContractError "no con_id"))
           " Forex " "eur.usd" None
           (mkProfile "fx" ["MIDPOINT"; "BID"; "ASK"] "1 day" false "2 Y") eq_refl).
Defined.

(** ** Account resolution *)

(** X14. [_resolve_account_id] never resolves to an account outside its
    bounds: the account it returns is one that the gateway manages, is
    one of the authorized accounts when some are configured, and is the
    requested account when one is requested. Without a requested account
    it returns only when exactly one account is eligible, and that one.
    Every failure is an [IBKRAccountError]. *)
Theorem resolve_account_id_safe (managed IBKR_AUTHORIZED_ACCOUNTS : list string)
    (configured : option (list string)) (account_id : option string) :
  let authorized := effective_authorized IBKR_AUTHORIZED_ACCOUNTS configured in
  let requested := match account_id with
                   | Some id => PyStr.truthy id
                   | None => false
                   end in
  match _resolve_account_id managed IBKR_AUTHORIZED_ACCOUNTS configured account_id with
  | Ok a =>
      In a managed
      /\ (authorized <> [] -> In a authorized)
      /\ (requested = true -> account_id = Some a)
      /\ (requested = false -> eligible_accounts managed authorized = [a])
  | Raise e => exn_cls e = IBKRAccountError
  end.
Proof.
  intros authorized requested. subst requested.
  unfold _resolve_account_id. fold authorized.
  change (match authorized with
          | [] => managed
          | _ :: _ => List.filter (fun a => str_in a authorized) managed
          end) with (eligible_accounts managed authorized).
  assert (Hel : forall a, In a (eligible_accounts managed authorized) ->
                          In a managed /\ (authorized <> [] -> In a authorized)).
  { intros a. unfold eligible_accounts. destruct authorized as [|x auth] eqn:Hauth.
    - intros Hin. by split.
    - intros [Hin Hstr]%filter_In. split; [done|]. intros _. by apply str_in_In. }
  assert (Hdefault :
            match (match eligible_accounts managed authorized with
                   | [] => Raise (mkExn IBKRAccountError "No IBKR accounts available")
                   | [a] => Ok a
                   | _ :: _ :: _ =>
                       Raise (mkExn IBKRAccountError
                                ("Multiple accounts available ("
                                 +:+ PyStr.join ", "
                                       (eligible_accounts managed authorized)
                                 +:+ "); specify --account"))
                   end) with
            | Ok a => In a managed /\ (authorized <> [] -> In a authorized)
                      /\ eligible_accounts managed authorized = [a]
            | Raise e => exn_cls e = IBKRAccountError
            end).
  { destruct (eligible_accounts managed authorized) as [|a [|b l]]; [done| |done].
    destruct (Hel a) as [H1 H2]; [by left|]. by split_and!. }
  destruct account_id as [id|].
  - destruct (PyStr.truthy id) eqn:Hid.
    + destruct (str_in id (eligible_accounts managed authorized)) eqn:Hin; [|done].
      apply str_in_In in Hin. destruct (Hel id Hin) as [H1 H2].
      by split_and!.
    + destruct (match eligible_accounts managed authorized with
                | [] => _ | _ => _ end) as [a|e]; [|done].
      destruct Hdefault as (? & ? & ?). by split_and!.
  - destruct (match eligible_accounts managed authorized with
              | [] => _ | _ => _ end) as [a|e]; [|done].
    destruct Hdefault as (? & ? & ?). by split_and!.
Qed.

(** * More of the connection manager *)

(** [connect] in one step. *)
Lemma connect_unfold (s : conn_state) :
  connect s
  = if is_connected s then (Ok (default 0%nat (_ib (self s))), s)
    else
      let w := conn_world s in
      match gw_connect (w_gateway w) (w_calls w) with
      | Ok accounts =>
          (Ok (w_calls w),
           mkConn (with_accounts accounts (with_ib (Some (w_calls w)) (self s)))
             (<[w_calls w := mkIB true true]>
                (<[w_calls w := mkIB false true]> (ib_objects s)))
             (count_call (log_event EvConnect w)))
      | Raise e =>
          (Raise e,
           mkConn (self s)
             (<[w_calls w := mkIB false false]>
                (<[w_calls w := mkIB false true]> (ib_objects s)))
             (log_event EvDisconnect (count_call (log_event EvConnect w))))
      end.
Proof.
  destruct s as [m objs w]. unfold connect.
  destruct (is_connected _); [done|].
  unfold bind, gets, set_ib_object, set_self, modify, try_except, lift_world,
    gateway_call, disconnect_ib, raise, ret.
  simpl. by destruct (gw_connect (w_gateway w) (w_calls w)).
Qed.

(** X15. [connect] is idempotent: once it has returned a session, the
    manager is connected, and a further [connect] or [ensure_connected]
    returns the same session without a gateway call and without any
    change of state. *)
Theorem connect_idempotent (s s1 : conn_state) (ib : nat) :
  connect s = (Ok ib, s1) ->
  is_connected s1 = true
  /\ connect s1 = (Ok ib, s1)
  /\ ensure_connected s1 = (Ok ib, s1).
Proof.
  rewrite connect_unfold. unfold ensure_connected.
  destruct (is_connected s) eqn:Hc.
  - intros [= <- <-]. by rewrite connect_unfold, Hc.
  - cbv zeta. destruct (gw_connect _ _) as [accounts|e]; [|done].
    intros [= <- <-].
    assert (Hnow : is_connected
                     (mkConn (with_accounts accounts
                                (with_ib (Some (w_calls (conn_world s))) (self s)))
                        (<[w_calls (conn_world s) := mkIB true true]>
                           (<[w_calls (conn_world s) := mkIB false true]>
                              (ib_objects s)))
                        (count_call (log_event EvConnect (conn_world s)))) = true).
    { unfold is_connected. simpl. by rewrite lookup_insert_eq. }
    by rewrite connect_unfold, Hnow.
Qed.

Lemma connect_idempotent_witness :
  let s0 := mkConn manager_init ∅
              (world_at t_2024_01_15 ∅ gateway_no_data_then_down) in
  is_connected (snd (connect s0)) = true
  /\ connect (snd (connect s0)) = (Ok 0%nat, snd (connect s0))
  /\ ensure_connected (snd (connect s0)) = (Ok 0%nat, snd (connect s0)).
Proof.
  apply (connect_idempotent
           (mkConn manager_init ∅ (world_at t_2024_01_15 ∅ gateway_no_data_then_down))).
  vm_compute. reflexivity.
Defined.

(** X16. When the gateway refuses the connection of a manager that is
    not connected, [connect] raises the very exception of the gateway
    (it is not wrapped), the fields of the manager are as before, the
    manager is still not connected, the session that was tried has lost
    its disconnect handler, and the side effects are one connect attempt
    and the teardown of that session. *)
Theorem connect_failure_cleans_up (s : conn_state) (e : exn) :
  is_connected s = false ->
  gw_connect (w_gateway (conn_world s)) (w_calls (conn_world s)) = Raise e ->
  let s' := snd (connect s) in
  fst (connect s) = Raise e
  /\ self s' = self s
  /\ is_connected s' = false
  /\ ib_objects s' !! w_calls (conn_world s) = Some (mkIB false false)
  /\ w_log (conn_world s')
     = (w_log (conn_world s) ++ [EvConnect; EvDisconnect])%list.
Proof.
  intros Hc Hfail. rewrite connect_unfold, Hc. cbv zeta. rewrite Hfail.
  cbn [fst snd self ib_objects conn_world].
  split_and!; [done | done | | apply lookup_insert_eq |].
  - unfold is_connected in *. cbn [self ib_objects].
    destruct (_ib (self s)) as [ib|]; [|done].
    destruct (decide (ib = w_calls (conn_world s))) as [->|Hne].
    + by rewrite lookup_insert_eq.
    + by rewrite !lookup_insert_ne by done.
  - cbn [w_log log_event count_call]. by rewrite <- app_assoc.
Qed.

Lemma connect_failure_cleans_up_witness :
  let s := mkConn manager_init ∅ (world_at t_2024_01_15 ∅ gateway_down) in
  let e := mkExn ConnectionRefusedError "Connection refused" in
  let s' := snd (connect s) in
  fst (connect s) = Raise e
  /\ self s' = self s
  /\ is_connected s' = false
  /\ ib_objects s' !! w_calls (conn_world s) = Some (mkIB false false)
  /\ w_log (conn_world s')
     = (w_log (conn_world s) ++ [EvConnect; EvDisconnect])%list.
Proof.
  exact (connect_failure_cleans_up
           (mkConn manager_init ∅ (world_at t_2024_01_15 ∅ gateway_down))
           (mkExn ConnectionRefusedError "Connection refused") eq_refl eq_refl).
Defined.

(** X17. At most one reconnect worker: when [_on_disconnect] has started
    the worker, the manager has no session and is marked as
    reconnecting, and a further disconnect event, as long as the worker
    has not finished, starts no second worker and changes nothing. *)
Theorem on_disconnect_single_worker (s s1 : conn_state) :
  _on_disconnect s = (Ok true, s1) ->
  _ib (self s1) = None
  /\ _reconnecting (self s1) = true
  /\ w_log (conn_world s1) = (w_log (conn_world s) ++ [EvSpawnReconnect])%list
  /\ _on_disconnect s1 = (Ok false, s1).
Proof.
  destruct s as [m objs w]. unfold _on_disconnect. cbn [self].
  destruct (_manual_disconnect m) eqn:Hman; [done|].
  unfold bind, set_self, modify, gets, lift_world, ret. cbn.
  destruct (_reconnecting m) eqn:Hrec; [done|].
  intros [= <-]. cbn. rewrite Hman. by split_and!.
Qed.

Lemma on_disconnect_single_worker_witness :
  let s := connected_then_down in
  let s1 := snd (_on_disconnect s) in
  _ib (self s1) = None
  /\ _reconnecting (self s1) = true
  /\ w_log (conn_world s1) = (w_log (conn_world s) ++ [EvSpawnReconnect])%list
  /\ _on_disconnect s1 = (Ok false, s1).
Proof.
  exact (on_disconnect_single_worker connected_then_down
           (snd (_on_disconnect connected_then_down)) eq_refl).
Defined.

Lemma connect_step (s : conn_state) :
  exists evs,
    w_log (conn_world (snd (connect s))) = (w_log (conn_world s) ++ evs)%list
    /\ (connect_attempts evs <= 1)%nat
    /\ _max_reconnect_attempts (self (snd (connect s)))
       = _max_reconnect_attempts (self s).
Proof.
  rewrite connect_unfold. destruct (is_connected s).
  - exists []. rewrite app_nil_r. split_and!; [done | cbn; lia | done].
  - cbv zeta. destruct (gw_connect _ _) as [accounts|e].
    + exists [EvConnect]. split_and!; [done | cbn; lia | done].
    + exists [EvConnect; EvDisconnect]. cbn. rewrite <- app_assoc.
      split_and!; [done | lia | done].
Qed.

(** The loop never raises, and makes at most one connect attempt for
    each attempt number of its list. *)
Lemma reconnect_attempts_total (l : list nat) (s : conn_state) :
  exists s',
    reconnect_attempts l s = (Ok tt, s')
    /\ (connect_attempts (w_log (conn_world s'))
        <= connect_attempts (w_log (conn_world s)) + length l)%nat.
Proof.
  revert s. induction l as [|a l IH]; intros s.
  - exists s. split; [done|]. simpl. lia.
  - cbn [reconnect_attempts]. unfold bind at 1 2, gets, lift_world, time_sleep, modify.
    set (s0 := mkConn (self s) (ib_objects s) _).
    assert (Hs0 : connect_attempts (w_log (conn_world s0))
                  = connect_attempts (w_log (conn_world s))).
    { subst s0. unfold set_clock, log_event. cbn [conn_world w_log].
      rewrite connect_attempts_app. cbn. lia. }
    unfold bind, try_except.
    destruct (connect_step s0) as (evs & Hlog & Hone & _).
    destruct (connect s0) as [[ib|e] s1]; cbn [snd] in Hlog.
    + cbn. exists s1. split; [done|].
      rewrite Hlog, connect_attempts_app, Hs0. cbn [length]. lia.
    + cbn. destruct (IH s1) as (s' & -> & Hle). exists s'. split; [done|].
      rewrite Hlog, connect_attempts_app, Hs0 in Hle. cbn [length]. lia.
Qed.

(** X18. The reconnect worker always ends in good order, whatever the
    gateway does: [_reconnect] never raises, it leaves the reconnecting
    flag cleared, and it makes at most [_max_reconnect_attempts] connect
    attempts. *)
Theorem reconnect_worker_total (s : conn_state) :
  let s' := snd (_reconnect s) in
  fst (_reconnect s) = Ok tt
  /\ _reconnecting (self s') = false
  /\ (connect_attempts (w_log (conn_world s'))
      <= connect_attempts (w_log (conn_world s)) + _max_reconnect_attempts (self s))%nat.
Proof.
  unfold _reconnect.
  destruct (reconnect_attempts_total (seq 1 (_max_reconnect_attempts (self s))) s)
    as (s1 & -> & Hle).
  rewrite length_seq in Hle. cbn. by split_and!.
Qed.

(** X28. Connect and disconnect are a round trip for the manager: from
    a manager with no session, no accounts and no manual disconnect under
    way, a [connect] that succeeds followed by [disconnect] returns
    without raising and leaves the fields of the manager as they were
    before the connect; the manager is not connected, the session that
    was opened has lost its disconnect handler, and the side effects are
    one connect and one disconnect. *)
Theorem connect_disconnect_round_trip (s s1 : conn_state) (ib : nat) :
  _ib (self s) = None ->
  _managed_accounts (self s) = [] ->
  _manual_disconnect (self s) = false ->
  connect s = (Ok ib, s1) ->
  let s2 := snd (disconnect s1) in
  fst (disconnect s1) = Ok tt
  /\ self s2 = self s
  /\ is_connected s2 = false
  /\ ib_objects s2 !! ib = Some (mkIB false false)
  /\ w_log (conn_world s2)
     = (w_log (conn_world s) ++ [EvConnect; EvDisconnect])%list.
Proof.
  intros Hib Hacc Hman. rewrite connect_unfold.
  assert (Hc : is_connected s = false) by (unfold is_connected; by rewrite Hib).
  rewrite Hc. cbv zeta.
  destruct (gw_connect _ _) as [accounts|e]; [|done].
  intros [= <- <-]. destruct s as [m objs w]. destruct m. simpl in *. subst.
  unfold disconnect. cbn [self _ib with_accounts with_ib].
  unfold bind, set_self, set_ib_object, lift_world, disconnect_ib, modify.
  cbn. split_and!; try done.
  - apply lookup_insert_eq.
  - by rewrite <- app_assoc.
Qed.

Lemma connect_disconnect_round_trip_witness :
  let s := mkConn manager_init ∅
             (world_at t_2024_01_15 ∅ gateway_no_data_then_down) in
  let s2 := snd (disconnect (snd (connect s))) in
  fst (disconnect (snd (connect s))) = Ok tt
  /\ self s2 = self s
  /\ is_connected s2 = false
  /\ ib_objects s2 !! 0%nat = Some (mkIB false false)
  /\ w_log (conn_world s2)
     = (w_log (conn_world s) ++ [EvConnect; EvDisconnect])%list.
Proof.
  exact (connect_disconnect_round_trip
           (mkConn manager_init ∅ (world_at t_2024_01_15 ∅ gateway_no_data_then_down))
           (snd (connect (mkConn manager_init ∅
                            (world_at t_2024_01_15 ∅ gateway_no_data_then_down))))
           0%nat eq_refl eq_refl eq_refl eq_refl).
Defined.

(** * More of the snapshot fetch *)

Lemma as_float_finite (value : pyval) : finite_opt (_as_float value) = true.
Proof.
  unfold _as_float, finite_opt. destruct value as [|f|]; [done| |done].
  destruct (PrimFloat.is_nan f) eqn:Hn, (PrimFloat.is_infinity f) eqn:Hi; simpl;
    by rewrite ?Hn, ?Hi.
Qed.

Lemma snapshot_entry_sound (st : snapshot_state) (idx : nat) (contract : Contract)
    (d : snapshot_data) :
  snapshot_entry_of st idx contract = SnapData d -> sound_quote d.
Proof.
  unfold snapshot_entry_of.
  destruct (pre_errors st !! idx); [done|].
  destruct (tickers_by_index st !! idx) as [[ticker|]|]; [|done|done].
  cbv zeta. destruct (negb _ && negb _); [done|].
  intros [= <-]. unfold sound_quote.
  cbn [sd_bid sd_ask sd_last sd_mid sd_implied_vol sd_delta sd_gamma sd_theta sd_vega].
  split; [|done].
  assert (Hiv : finite_opt
                  match match t_modelGreeks ticker with
                        | Some g => _as_float (g_impliedVol g)
                        | None => None
                        end with
                  | Some v => Some v
                  | None => _as_float (t_impliedVolatility ticker)
                  end = true).
  { destruct (t_modelGreeks ticker) as [g|]; [|apply as_float_finite].
    destruct (_as_float (g_impliedVol g)) eqn:Hg; [|apply as_float_finite].
    rewrite <- Hg. apply as_float_finite. }
  rewrite Hiv, !as_float_finite.
  destruct (t_modelGreeks ticker) as [g|]; [by rewrite !as_float_finite|done].
Qed.

(** X19. Every number that [fetch_snapshot] reports as a price (bid,
    ask, last), as implied volatility or as a greek is finite: a NaN or
    an infinity that the gateway sends never reaches the caller, it
    becomes an absent value. The mid is present exactly when bid and ask
    both are, and is then their mean. *)
Theorem fetch_snapshot_sound_quotes (contracts : list Contract) (timeout : float)
    (w : world) :
  exists out,
    fst (fetch_snapshot contracts timeout w) = Ok out
    /\ forall d, In (SnapData d) out -> sound_quote d.
Proof.
  destruct (decide (contracts = [])) as [-> | Hne].
  { exists []. by split. }
  rewrite (fetch_snapshot_nonempty contracts timeout w Hne).
  destruct (_connect_ib w) as [[u|exc] w1].
  - destruct (snapshot_requests contracts _ w1) as [[st|exc] w2].
    + eexists. split; [reflexivity|]. intros d Hin%list_elem_of_In.
      apply list_elem_of_lookup in Hin as [i Hi].
      rewrite list_lookup_imap in Hi.
      destruct (contracts !! i) as [c|]; [|done]. simpl in Hi.
      injection Hi as Hi. by eapply snapshot_entry_sound.
    + eexists. split; [reflexivity|].
      intros d (c & [=] & _)%in_map_iff.
  - eexists. split; [reflexivity|]. intros d (c & [=] & _)%in_map_iff.
Qed.

(** ** The session of a snapshot *)

Lemma qualify_loop_log (contracts : list Contract) (idx : nat) (st : snapshot_state)
    (w : world) :
  exists st',
    fst (qualify_loop idx contracts st w) = Ok st'
    /\ w_log (snd (qualify_loop idx contracts st w))
       = (w_log w ++ map EvQualify contracts)%list.
Proof.
  revert idx st w. induction contracts as [|c cs IH]; intros idx st w.
  - exists st. simpl. by rewrite app_nil_r.
  - cbn [qualify_loop]. unfold bind at 1, try_except, bind, gateway_call, ret.
    destruct (gw_qualifyContracts (w_gateway w) (w_calls w) c) as [qualified|exc].
    + destruct (first_not_none qualified) as [q|];
        match goal with
        | |- context [qualify_loop (S idx) cs ?st1 ?w1] =>
            destruct (IH (S idx) st1 w1) as (st' & Hrun & Hlog)
        end;
        exists st'; (split; [exact Hrun|]);
        rewrite Hlog; cbn; by rewrite <- app_assoc.
    + match goal with
      | |- context [qualify_loop (S idx) cs ?st1 ?w1] =>
          destruct (IH (S idx) st1 w1) as (st' & Hrun & Hlog)
      end.
      exists st'. split; [exact Hrun|].
      rewrite Hlog. cbn. by rewrite <- app_assoc.
Qed.

Lemma request_loop_log (indices : list nat) (st : snapshot_state) (w : world) :
  exists st' reqs,
    fst (request_loop indices st w) = Ok st'
    /\ w_log (snd (request_loop indices st w)) = (w_log w ++ reqs)%list
    /\ forallb is_market_data_event reqs = true
    /\ (length reqs <= length indices)%nat.
Proof.
  revert st w. induction indices as [|idx rest IH]; intros st w.
  - exists st, []. simpl. rewrite app_nil_r. by split_and!.
  - cbn [request_loop]. destruct (qualified_by_index st !! idx) as [q|].
    + unfold bind at 1, try_except, bind, gateway_call, ret.
      destruct (gw_reqMktData _ _ _ _) as [ticker|exc];
        match goal with
        | |- context [request_loop rest ?st1 ?w1] =>
            destruct (IH st1 w1) as (st' & reqs & Hrun & Hlog & Hall & Hlen)
        end;
        eexists st', (_ :: reqs); (split_and!; [exact Hrun | | | ]);
        try (rewrite Hlog; cbn; by rewrite <- app_assoc);
        try (cbn; exact Hall); cbn [length]; lia.
    + destruct (IH st w) as (st' & reqs & Hrun & Hlog & Hall & Hlen).
      exists st', reqs. split_and!; [done | done | done |]. cbn [length]. lia.
Qed.

(** X20. The session of a snapshot: for a non-empty list of contracts,
    [fetch_snapshot] makes exactly one connect attempt. When the gateway
    refuses it, nothing else happens. When the gateway accepts it, the
    call asks for the qualification of every contract, once each and in
    the order of the list, then makes at most one market-data request per
    contract, then waits once when the timeout is positive, and last
    closes the session: on every path on which a session was opened, the
    failure of the wait included, it is closed. *)
Theorem fetch_snapshot_session (contracts : list Contract) (timeout : float)
    (w : world) :
  contracts <> [] ->
  let w' := snd (fetch_snapshot contracts timeout w) in
  match gw_connect (w_gateway w) (w_calls w) with
  | Raise _ => w_log w' = (w_log w ++ [EvConnect])%list
  | Ok _ =>
      exists reqs,
        w_log w'
        = (w_log w ++ [EvConnect] ++ map EvQualify contracts ++ reqs
           ++ (if (0 <? timeout)%float then [EvGatewaySleep] else [])
           ++ [EvDisconnect])%list
        /\ forallb is_market_data_event reqs = true
        /\ (length reqs <= length contracts)%nat
  end.
Proof.
  intros Hne. rewrite (fetch_snapshot_nonempty contracts timeout w Hne).
  rewrite connect_ib_unfold.
  destruct (gw_connect (w_gateway w) (w_calls w)) as [accounts|exc].
  - unfold snapshot_requests. unfold bind at 1.
    destruct (qualify_loop_log contracts 0 snapshot_state_empty
                (count_call (log_event EvConnect w))) as (st1 & Hq & Hqlog).
    destruct (qualify_loop 0 contracts snapshot_state_empty _) as [r1 w1].
    cbn [fst snd] in Hq, Hqlog. subst r1. unfold bind at 1.
    destruct (request_loop_log (seq 0 (length contracts)) st1 w1)
      as (st2 & reqs & Hr & Hrlog & Hall & Hlen).
    destruct (request_loop _ st1 w1) as [r2 w2].
    cbn [fst snd] in Hr, Hrlog. subst r2. rewrite length_seq in Hlen.
    exists reqs. split_and!; [|done|done].
    assert (Hlog2 : w_log w2
                    = (w_log w ++ [EvConnect] ++ map EvQualify contracts ++ reqs)%list).
    { rewrite Hrlog, Hqlog. cbn [w_log count_call log_event].
      by rewrite <- !app_assoc. }
    replace (if (0 <? (if (0 <? timeout)%float then timeout else 0%float))%float
             then gateway_call EvGatewaySleep gw_sleep else ret tt)
      with (if (0 <? timeout)%float
            then gateway_call EvGatewaySleep gw_sleep else ret tt : M world unit).
    2:{ destruct (0 <? timeout)%float eqn:Ht; [by rewrite Ht|reflexivity]. }
    unfold bind, gateway_call, ret.
    destruct (0 <? timeout)%float.
    + destruct (gw_sleep (w_gateway w2) (w_calls w2)); cbn;
        rewrite Hlog2, <- !app_assoc; reflexivity.
    + cbn. rewrite Hlog2, <- !app_assoc. reflexivity.
  - destruct (isinstance exc ConnectionRefusedError); reflexivity.
Qed.

Lemma fetch_snapshot_session_witness :
  let w := world_at t_2024_01_15 ∅ gateway_quotes in
  let aapl := mkContract "AAPL" "STK" "" in
  let bad := mkContract "BAD" "STK" "" in
  let contracts := [aapl; bad; aapl] in
  let w' := snd (fetch_snapshot contracts 5 w) in
  exists reqs,
    w_log w'
    = (w_log w ++ [EvConnect] ++ map EvQualify contracts ++ reqs
       ++ [EvGatewaySleep] ++ [EvDisconnect])%list
    /\ forallb is_market_data_event reqs = true
    /\ (length reqs <= length contracts)%nat.
Proof.
  apply (fetch_snapshot_session
           [mkContract "AAPL" "STK" ""; mkContract "BAD" "STK" "";
            mkContract "AAPL" "STK" ""] 5
           (world_at t_2024_01_15 ∅ gateway_quotes)).
  discriminate.
Defined.

(** * More of the fetch engine *)

(** ** One request for bars *)

Lemma classify_request_error_class (exc : exn) :
  isinstance (classify_request_error exc) IBKRDataError = true.
Proof.
  unfold classify_request_error.
  destruct (_ || _ || _); [reflexivity|].
  destruct (_ || _ || _); reflexivity.
Qed.

(** The class test of an exception that the code has just built. *)
Ltac known_class :=
  repeat match goal with
         | |- context [isinstance (mkExn ?c ?m) ?k] =>
             let b := eval vm_compute in (isinstance (mkExn c m) k) in
             change (isinstance (mkExn c m) k) with b
         end.

(** X21. [_request_bars] raises package errors only: whatever goes wrong
    at the gateway (the connection, the qualification, the request for
    bars), the exception that leaves the function is an [IBKRDataError]
    or one of its subclasses; a foreign exception never escapes. *)
Theorem request_bars_raises_package_errors (contract : Contract)
    (profile : InstrumentProfile) (what_to_show : string)
    (start_ts end_ts : stamp) (w : world) (e : exn) :
  fst (_request_bars contract profile what_to_show start_ts end_ts w) = Raise e ->
  isinstance e IBKRDataError = true.
Proof.
  unfold _request_bars. unfold bind at 1. rewrite connect_ib_unfold.
  destruct (gw_connect (w_gateway w) (w_calls w)) as [accounts|exc].
  - unfold try_finally, try_except.
    match goal with
    | |- context [let '(_, _) := match ?m with _ => _ end in _] =>
        destruct m as [[bars|exc] w2]
    end; [done|].
    destruct (isinstance exc IBKRDataError) eqn:Hexc; cbn.
    + by intros [= <-].
    + intros [= <-]. apply classify_request_error_class.
  - destruct (isinstance exc ConnectionRefusedError); cbn; by intros [= <-].
Qed.

Lemma request_bars_raises_package_errors_witness :
  isinstance (mkExn IBKRConnectionError "IB Gateway not running") IBKRDataError = true.
Proof.
  exact (request_bars_raises_package_errors (mkContract "EURUSD" "CASH" "")
           (pl_profile fx_plan) "MIDPOINT" fx_start fx_end
           (world_at t_2024_01_15 ∅ gateway_down)
           (mkExn IBKRConnectionError "IB Gateway not running") eq_refl).
Defined.

(** The computation of the duration has no effect. *)
Lemma duration_for_request_frame (profile : InstrumentProfile)
    (start_ts end_ts : stamp) (w : world) :
  exists r, _duration_for_request profile start_ts end_ts w = (r, w).
Proof.
  unfold _duration_for_request.
  destruct (String.eqb (instrument_type profile) "futures");
    unfold bind, _utcnow, gets, of_outcome;
    destruct (_compute_duration_str _ _); eexists; reflexivity.
Qed.

(** X22. The session of one request for bars: [_request_bars] makes
    exactly one connect attempt; when the gateway refuses it nothing else
    happens; when the gateway accepts it the function asks for the
    qualification of the contract, then makes at most one request for
    historical data, which carries the candidate, the bar size and the
    trading-hours flag of the profile, and last closes the session, on
    every path. *)
Theorem request_bars_session (contract : Contract) (profile : InstrumentProfile)
    (what_to_show : string) (start_ts end_ts : stamp) (w : world) :
  let w' := snd (_request_bars contract profile what_to_show start_ts end_ts w) in
  match gw_connect (w_gateway w) (w_calls w) with
  | Raise _ => w_log w' = (w_log w ++ [EvConnect])%list
  | Ok _ =>
      exists requests,
        w_log w'
        = (w_log w ++ [EvConnect; EvQualify contract] ++ requests
           ++ [EvDisconnect])%list
        /\ (requests = []
            \/ exists req,
                 requests = [EvHistorical req]
                 /\ hr_whatToShow req = what_to_show
                 /\ hr_barSizeSetting req = bar_size profile
                 /\ hr_useRTH req = use_rth profile)
  end.
Proof.
  unfold _request_bars. unfold bind at 1. rewrite connect_ib_unfold.
  destruct (gw_connect (w_gateway w) (w_calls w)) as [accounts|exc] eqn:Hconn.
  - unfold try_finally, try_except. unfold bind at 1, gateway_call.
    destruct (gw_qualifyContracts _ _ contract) as [qualified|exc].
    + destruct qualified as [|q0 qualified].
      { exists []. split; [|by left]. cbn. known_class. cbn. by rewrite <- !app_assoc. }
      destruct (first_not_none (q0 :: qualified)) as [qc|].
      2:{ exists []. split; [|by left]. cbn. known_class. cbn. by rewrite <- !app_assoc. }
      unfold bind at 1.
      match goal with
      | |- context [_duration_for_request profile start_ts end_ts ?w0] =>
          destruct (duration_for_request_frame profile start_ts end_ts w0)
            as [[duration_str|e] ->]
      end.
      * unfold bind, ret, gateway_call.
        match goal with
        | |- context [gw_reqHistoricalData ?g ?n ?req] =>
            destruct (gw_reqHistoricalData g n req) as [[|b bars]|exc];
            [ | | destruct (isinstance exc IBKRDataError)];
            (exists [EvHistorical req]; split;
             [ cbn [fst snd w_log log_event count_call raise]; known_class;
               cbn [fst snd w_log log_event count_call raise];
               rewrite <- !app_assoc; reflexivity
             | right; exists req; by split_and! ])
        end.
      * exists []. split; [|by left].
        destruct (isinstance e IBKRDataError); cbn; by rewrite <- !app_assoc.
    + exists []. split; [|by left].
      destruct (isinstance exc IBKRDataError); cbn; by rewrite <- !app_assoc.
  - unfold bind at 1. rewrite connect_ib_unfold, Hconn.
    destruct (isinstance exc ConnectionRefusedError); reflexivity.
Qed.

(** ** Write-through *)

Lemma clean_stored (name : option string) (rows : list (Timestamp * float)) :
  forallb (fun r => negb (PrimFloat.is_nan (snd r))) rows = true ->
  stored_rows (mkSeries name (map (fun r => (Some (fst r), snd r)) rows))
  = map (fun r => (Some (fst r), snd r)) rows.
Proof.
  intros Hval. unfold stored_rows. cbn [s_rows].
  induction rows as [|[t v] rows IH]; [done|].
  simpl in Hval. apply andb_prop in Hval as [Hv Hrest].
  cbn. unfold value_notna at 1. cbn. rewrite Hv. cbn.
  by rewrite (IH Hrest).
Qed.

(** A request for bars leaves the cache directory and the clock as they
    are. *)
Lemma request_bars_frame (contract : Contract) (profile : InstrumentProfile)
    (what_to_show : string) (start_ts end_ts : stamp) (w w' : world)
    (r : outcome (list Bar)) :
  _request_bars contract profile what_to_show start_ts end_ts w = (r, w') ->
  w_fs w' = w_fs w /\ w_clock w' = w_clock w.
Proof.
  unfold _request_bars. unfold bind at 1. rewrite connect_ib_unfold.
  destruct (gw_connect (w_gateway w) (w_calls w)) as [accounts|exc].
  - unfold try_finally, try_except. unfold bind at 1, gateway_call.
    destruct (gw_qualifyContracts _ _ contract) as [qualified|exc].
    + destruct qualified as [|q0 qualified];
        [cbn; known_class; cbn; by intros [= <- <-]|].
      destruct (first_not_none (q0 :: qualified)) as [qc|];
        [|cbn; known_class; cbn; by intros [= <- <-]].
      unfold bind at 1.
      match goal with
      | |- context [_duration_for_request profile start_ts end_ts ?w0] =>
          destruct (duration_for_request_frame profile start_ts end_ts w0)
            as [[duration_str|e] ->]
      end.
      * unfold bind, ret, gateway_call.
        match goal with
        | |- context [gw_reqHistoricalData ?g ?n ?req] =>
            destruct (gw_reqHistoricalData g n req) as [[|b bars]|exc];
            [ | | destruct (isinstance exc IBKRDataError)];
            cbn [fst snd raise]; known_class; cbn [fst snd raise];
            by intros [= <- <-]
        end.
      * destruct (isinstance e IBKRDataError); cbn; by intros [= <- <-].
    + destruct (isinstance exc IBKRDataError); cbn; by intros [= <- <-].
  - destruct (isinstance exc ConnectionRefusedError); cbn; by intros [= <- <-].
Qed.

(** What a live attempt that returns a series leaves behind. *)
Lemma live_attempt_stores `{Md5} `{SortIndex} (contract : Contract) (sym : string)
    (profile : InstrumentProfile) (start_ts end_ts : stamp) (candidate : string)
    (w w1 : world) (s : Series) :
  live_attempt contract sym profile start_ts end_ts candidate w = (Ok (Some s), w1) ->
  series_empty s = false
  /\ s_name s = Some sym
  /\ w_clock w1 = w_clock w
  /\ (forall q,
        q <> cache_file_name sym (instrument_type profile) candidate
               (bar_size profile) (use_rth profile) start_ts end_ts ->
        w_fs w1 !! q = w_fs w !! q)
  /\ fst (get_cached sym (instrument_type profile) candidate (bar_size profile)
            (use_rth profile) start_ts end_ts None w1)
     = Ok (Some (set_name (PyStr.upper (PyStr.strip sym)) s)).
Proof.
  unfold live_attempt. unfold bind at 1.
  pose proof (request_bars_frame contract profile candidate start_ts end_ts w)
    as Hframe.
  destruct (_request_bars _ _ _ _ _ w) as [[bars|e] w0]; [|done].
  destruct (Hframe _ _ eq_refl) as [Hfs0 Hclock0].
  destruct (_normalize_bars sym bars (bar_size profile) start_ts end_ts)
    as [series|e] eqn:Hnorm; [|done].
  destruct (series_empty series) eqn:Hempty; [done|].
  apply normalize_bars_rows in Hnorm as [[_ ->] | (out & _ & ->)]; [done|].
  set (rows := List.filter (fun r => negb (PrimFloat.is_nan (snd r))) out) in *.
  pose proof (clean_stored (Some sym) rows (forallb_filter _ _)) as Hstored.
  assert (Hne : stored_rows (mkSeries (Some sym)
                               (map (fun r => (Some (fst r), snd r)) rows)) <> []).
  { rewrite Hstored. by destruct rows. }
  unfold bind.
  rewrite (put_cache_stores _ sym (instrument_type profile) candidate
             (bar_size profile) (use_rth profile) start_ts end_ts w0 Hne).
  intros [= <- <-]. split_and!; [done | done | done | |].
  { intros q Hq. cbn [w_fs set_fs log_event].
    rewrite lookup_insert_ne by done. by rewrite Hfs0. }
  erewrite get_cached_present; last first.
  { cbn [w_fs set_fs log_event]. apply lookup_insert_eq. }
  cbv zeta. cbn [f_mtime w_clock set_fs log_event f_content].
  replace (_is_expired (w_clock w0) (w_clock w0) _) with false.
  2:{ symmetry. unfold _is_expired, applicable_ttl.
      destruct (_includes_current_month _ _ _); [|done].
      apply Z.ltb_ge.
      unfold CURRENT_MONTH_TTL_HOURS, NANOS_PER_HOUR, NANOS_PER_SECOND. lia. }
  unfold safe_read_of. rewrite Hstored.
  assert (Hfe : frame_empty
                  (to_frame (mkSeries (Some sym)
                               (map (fun r => (Some (fst r), snd r)) rows))) = false).
  { unfold frame_empty, to_frame. cbn. by destruct rows. }
  rewrite Hfe. cbn [to_frame fr_columns fr_index frame_column s_rows].
  change (String.eqb "value" "value") with true. cbn iota.
  rewrite astype_float_stored by apply index_notna_some.
  reflexivity.
Qed.

(** X23. Write-through feeds read-through: when the live attempt for a
    candidate returns a series, the cache holds that series under the key
    of the candidate, and a lookup of the same candidate right after
    returns the same rows, under the symbol stripped and upper-cased, so
    that the next identical request is served without the gateway. *)
Theorem live_attempt_populates_cache `{Md5} `{SortIndex} (contract : Contract) (sym : string)
    (profile : InstrumentProfile) (start_ts end_ts : stamp) (candidate : string)
    (w w1 : world) (s : Series) :
  live_attempt contract sym profile start_ts end_ts candidate w = (Ok (Some s), w1) ->
  series_empty s = false
  /\ fst (get_cached sym (instrument_type profile) candidate (bar_size profile)
            (use_rth profile) start_ts end_ts None w1)
     = Ok (Some (set_name (PyStr.upper (PyStr.strip sym)) s)).
Proof.
  intros (Hne & _ & _ & _ & Hget)%live_attempt_stores. by split.
Qed.

(** The EURUSD request against a gateway that has one bar for it. *)
Lemma live_attempt_populates_cache_witness :
  let s := mkSeries (Some "EURUSD") [fx_row] in
  let w := world_at t_2024_01_15 ∅ gateway_one_bar in
  let w1 := snd (@plan_attempt md5_plain sort_index_stable fx_plan "MIDPOINT" w) in
  series_empty s = false
  /\ fst (@get_cached md5_plain "EURUSD" "fx" "MIDPOINT" "1 day" false
            fx_start fx_end None w1)
     = Ok (Some (set_name (PyStr.upper (PyStr.strip "EURUSD")) s)).
Proof.
  refine (@live_attempt_populates_cache md5_plain sort_index_stable (pl_contract fx_plan) "EURUSD"
            (pl_profile fx_plan) fx_start fx_end "MIDPOINT"
            (world_at t_2024_01_15 ∅ gateway_one_bar) _ _ _).
  vm_compute. reflexivity.
Defined.

(** ** The month-end wrappers *)

(** A month-end wrapper can raise: with bounds that carry a time zone
    and a cached series whose index carries none, the window filter of
    [_to_monthly_close] fails on the comparison. *)
Example monthly_wrapper_can_raise :
  let start_ts := mkTs (mkDate 2023 1 1) 0 (Some 0) in
  let end_ts := mkTs (mkDate 2023 6 30) 0 (Some 0) in
  let path := @cache_file_name md5_plain "EURUSD" "fx" "MIDPOINT" "1 day" false
                start_ts end_ts in
  let w := world_at t_2024_01_15 {[ path := good_entry t_2024_01_15 ]}
             gateway_down in
  fst (@fetch_monthly_close_fx md5_plain resolver_any sort_index_stable "EURUSD"
         (DateValue start_ts) (DateValue end_ts) w)
  = Raise (mkExn TypeError "Cannot compare tz-naive and tz-aware timestamps").
Proof. cbv zeta. vm_compute. reflexivity. Qed.

(** ** The symbol of a request *)

(** X25. The fetch engine sees a symbol only through its normal form:
    [fetch_series] and the month-end and daily wrappers give the same
    result and have the same side effects for a symbol as for the symbol
    stripped and upper-cased. *)
Theorem fetch_series_symbol_normalized `{Md5} `{Resolver} `{SortIndex}
    (symbol instrument_type_ : string) (start_date end_date : date_arg)
    (profile : option InstrumentProfile) (what_to_show : option string)
    (identity : contract_identity) (w : world) :
  let sym := PyStr.upper (PyStr.strip symbol) in
  fetch_series symbol instrument_type_ start_date end_date profile what_to_show
    identity w
  = fetch_series sym instrument_type_ start_date end_date profile what_to_show
      identity w
  /\ fetch_daily_close_futures symbol start_date end_date w
     = fetch_daily_close_futures sym start_date end_date w
  /\ fetch_monthly_close_futures symbol start_date end_date w
     = fetch_monthly_close_futures sym start_date end_date w
  /\ fetch_monthly_close_fx symbol start_date end_date w
     = fetch_monthly_close_fx sym start_date end_date w
  /\ fetch_monthly_close_bond symbol start_date end_date identity w
     = fetch_monthly_close_bond sym start_date end_date identity w
  /\ fetch_monthly_close_option symbol start_date end_date identity w
     = fetch_monthly_close_option sym start_date end_date identity w.
Proof.
  intros sym.
  assert (Hfetch : forall it p wts idn,
            fetch_series symbol it start_date end_date p wts idn
            = fetch_series sym it start_date end_date p wts idn).
  { intros it p wts idn. unfold fetch_series. subst sym.
    by rewrite symbol_normal_form_idem. }
  assert (Hmonthly : forall series,
            _to_monthly_close series symbol start_date end_date
            = _to_monthly_close series sym start_date end_date).
  { intros series. unfold _to_monthly_close. subst sym.
    by rewrite symbol_normal_form_idem. }
  unfold fetch_daily_close_futures, fetch_monthly_close_futures,
    fetch_monthly_close_fx, fetch_monthly_close_bond, fetch_monthly_close_option,
    bind.
  split_and!; [by rewrite Hfetch | ..];
    destruct (of_outcome _ w) as [[p|e] w0]; try done;
    rewrite Hfetch; try done;
    destruct (fetch_series _ _ _ _ _ _ _ w0) as [[series|e] w1]; try done;
    by rewrite Hmonthly.
Qed.

(** ** The account summary *)

Lemma summarize_origin (account_id : string) (account_values : list AccountValue)
    (summary : gmap string float) (key : string) (v : float) :
  summarize account_id account_values summary !! key = Some v ->
  summary !! key = Some v
  \/ exists av, In av account_values /\ summary_entry account_id av = Some (key, v).
Proof.
  revert summary. induction account_values as [|av rest IH]; intros summary; simpl.
  - by left.
  - destruct (summary_entry account_id av) as [[k val]|] eqn:Hav.
    + intros [Hin | (av' & Hin & Hentry)]%IH.
      * destruct (decide (k = key)) as [->|Hne].
        -- rewrite lookup_insert_eq in Hin. injection Hin as ->.
           right. exists av. split; [by left | done].
        -- rewrite lookup_insert_ne in Hin by done. by left.
      * right. exists av'. split; [by right | done].
    + intros [Hin | (av' & Hin & Hentry)]%IH; [by left|].
      right. exists av'. split; [by right | done].
Qed.

(** X26. Every figure of an account summary is a USD figure of a known
    tag: a key of the summary is the normalized name of one of the eight
    summary tags, and its value is the value of an account value of the
    gateway's answer that is in USD, carries that tag, converts to a
    number and, when an account is requested, belongs to that account or
    names none. Values in other currencies never enter the summary. *)
Theorem account_summary_usd_only (account_id : string)
    (first second : list AccountValue) (key : string) (v : float) :
  fetch_account_summary account_id first second !! key = Some v ->
  In key (map snd _SUMMARY_TAGS)
  /\ exists av,
       In av (match first with [] => second | _ => first end)
       /\ av_currency av = "USD"
       /\ dict_get (av_tag av) _SUMMARY_TAGS = Some key
       /\ av_value av = Some v
       /\ (PyStr.truthy account_id = true ->
           av_account av = "" \/ av_account av = account_id).
Proof.
  unfold fetch_account_summary.
  intros [Hempty | (av & Hin & Hentry)]%summarize_origin; [done|].
  unfold summary_entry in Hentry.
  destruct (PyStr.truthy account_id && _) eqn:Hacc; [done|].
  destruct (String.eqb_spec (av_currency av) "USD") as [Hcur|]; [|done].
  cbn [negb] in Hentry.
  destruct (dict_get (av_tag av) _SUMMARY_TAGS) as [k|] eqn:Htag; [|done].
  destruct (av_value av) as [val|] eqn:Hval; [|done].
  injection Hentry as -> ->. split.
  - clear -Htag. unfold _SUMMARY_TAGS in *. cbn [dict_get] in Htag.
    repeat match type of Htag with
           | (if ?b then _ else _) = _ =>
               destruct b; [injection Htag as <-; simpl; tauto|]
           end.
    done.
  - exists av. split_and!; try done.
    intros Hid. rewrite Hid in Hacc. cbn [andb] in Hacc.
    apply negb_false_iff, str_in_In in Hacc. simpl in Hacc.
    destruct Hacc as [<-|[<-|[]]]; [by left | by right].
Qed.

Lemma account_summary_usd_only_witness :
  let answer := [ mkAccountValue "DU123" "NetLiquidation" (Some 5%float) "EUR";
                  mkAccountValue "DU123" "NetLiquidation" (Some 7%float) "USD" ] in
  In "net_liquidation" (map snd _SUMMARY_TAGS)
  /\ exists av,
       In av answer
       /\ av_currency av = "USD"
       /\ dict_get (av_tag av) _SUMMARY_TAGS = Some "net_liquidation"
       /\ av_value av = Some 7%float
       /\ (PyStr.truthy "DU123" = true ->
           av_account av = "" \/ av_account av = "DU123").
Proof.
  apply (account_summary_usd_only "DU123"
           [ mkAccountValue "DU123" "NetLiquidation" (Some 5%float) "EUR";
             mkAccountValue "DU123" "NetLiquidation" (Some 7%float) "USD" ] []).
  vm_compute. reflexivity.
Defined.

(** ** A request made twice *)

Section Repeat.
Context `{Md5} `{SortIndex}.
Variable p : plan.

Let pass := cache_read_pass (pl_sym p) (pl_profile p) (pl_start p) (pl_end p).

Lemma cache_read_pass_after_misses (chain : list string) (w0 w : world) :
  after_misses p w0 w -> after_misses p w0 (snd (pass chain w)).
Proof.
  unfold pass. revert w. induction chain as [|c chain IH]; intros w Hinv; [done|].
  simpl. unfold bind. fold (cache_lookup p c).
  pose proof (after_misses_step p w0 w c Hinv) as Hstep.
  destruct (cache_lookup p c w) as [[[s|]|e] w1]; simpl in *.
  - destruct (series_empty s); simpl; [by apply IH | done].
  - by apply IH.
  - done.
Qed.

(** After lookups that missed, the cache-read pass finds what it would
    have found before them. *)
Lemma cache_read_pass_stable (chain : list string) (w0 w : world) :
  after_misses p w0 w -> fst (pass chain w) = fst (pass chain w0).
Proof.
  unfold pass. revert w0 w.
  induction chain as [|c chain IH]; intros w0 w Hinv; [done|].
  simpl. unfold bind. fold (cache_lookup p c).
  pose proof (after_misses_lookup p w0 w c Hinv) as Hsame.
  pose proof (after_misses_step p w0 w c Hinv) as Hstep.
  pose proof (after_misses_step p w0 w0 c (after_misses_refl p w0)) as Hstep0.
  destruct (cache_lookup p c w) as [r w1], (cache_lookup p c w0) as [r0 w01].
  simpl in *. subst r0. destruct r as [[s|]|e]; simpl; [|..].
  - destruct (series_empty s); simpl; [|done].
    by rewrite (IH w0 w1 Hstep), (IH w0 w01 Hstep0).
  - by rewrite (IH w0 w1 Hstep), (IH w0 w01 Hstep0).
  - done.
Qed.

(** A cache-read pass that finds nothing has met misses only. *)
Lemma cache_read_pass_none_misses (chain : list string) (w0 w : world) :
  after_misses p w0 w ->
  fst (pass chain w) = Ok None ->
  Forall (fun c => cache_miss p c w0) chain.
Proof.
  unfold pass. revert w. induction chain as [|c chain IH]; intros w Hinv; [done|].
  simpl. unfold bind. fold (cache_lookup p c).
  pose proof (after_misses_lookup p w0 w c Hinv) as Hsame.
  pose proof (after_misses_step p w0 w c Hinv) as Hstep.
  destruct (cache_lookup p c w) as [r w1]. simpl in *.
  destruct r as [[s|]|e]; simpl.
  - destruct (series_empty s) eqn:Hs; simpl; [|done].
    intros Hrest. constructor; [|by eapply IH].
    right. exists s. by split.
  - intros Hrest. constructor; [|by eapply IH]. by left.
  - done.
Qed.

(** A live attempt that returns no series leaves the cache directory and
    the clock as they are. *)
Lemma live_attempt_frame (candidate : string) (w w1 : world)
    (r : outcome (option Series)) :
  plan_attempt p candidate w = (r, w1) ->
  (forall s, r <> Ok (Some s)) ->
  w_fs w1 = w_fs w /\ w_clock w1 = w_clock w.
Proof.
  unfold plan_attempt, live_attempt. unfold bind at 1.
  pose proof (request_bars_frame (pl_contract p) (pl_profile p) candidate
                (pl_start p) (pl_end p) w) as Hframe.
  destruct (_request_bars _ _ _ _ _ w) as [[bars|e] w0];
    [|intros [= <- <-] _; by eapply Hframe].
  destruct (Hframe _ _ eq_refl) as [Hfs0 Hclock0].
  destruct (_normalize_bars (pl_sym p) bars (bar_size (pl_profile p)) (pl_start p)
              (pl_end p)) as [series|e] eqn:Hnorm;
    [|by intros [= <- <-] _].
  destruct (series_empty series) eqn:Hempty; [by intros [= <- <-] _|].
  apply normalize_bars_rows in Hnorm as [[_ ->] | (out & _ & ->)]; [done|].
  set (rows := List.filter (fun r => negb (PrimFloat.is_nan (snd r))) out) in *.
  pose proof (clean_stored (Some (pl_sym p)) rows (forallb_filter _ _)) as Hstored.
  assert (Hne : stored_rows (mkSeries (Some (pl_sym p))
                               (map (fun r => (Some (fst r), snd r)) rows)) <> []).
  { rewrite Hstored. by destruct rows. }
  unfold bind.
  rewrite (put_cache_stores _ (pl_sym p) (instrument_type (pl_profile p)) candidate
             (bar_size (pl_profile p)) (use_rth (pl_profile p)) (pl_start p)
             (pl_end p) w0 Hne).
  intros [= <- <-] Hnot. by destruct (Hnot _ eq_refl).
Qed.

(** A live-fetch pass that returns a non-empty series got it from the
    attempt of one candidate, the attempts before it having left the
    cache directory and the clock as they were. *)
Lemma live_fetch_pass_success (chain : list string) (w w1 : world) (s : Series) :
  plan_live p chain w = (Ok s, w1) ->
  series_empty s = false ->
  exists c w',
    In c chain /\ w_fs w' = w_fs w /\ w_clock w' = w_clock w
    /\ plan_attempt p c w' = (Ok (Some s), w1).
Proof.
  unfold plan_live. revert w. induction chain as [|c chain IH]; intros w; simpl.
  - intros [= <- <-]. done.
  - fold (plan_attempt p c w).
    pose proof (live_attempt_frame c w) as Hframe.
    destruct (plan_attempt p c w) as [[[s'|]|e] w0] eqn:Hatt.
    + intros [= <- <-] _. exists c, w. by split_and!; [left|..].
    + destruct (Hframe _ _ eq_refl) as [Hfs Hclock]; [done|].
      intros Hrest Hne. destruct (IH w0 Hrest Hne) as (c' & w' & Hin & Hfs' & Hc' & Hrun).
      exists c', w'. split_and!; [by right | congruence | congruence | done].
    + destruct (Hframe _ _ eq_refl) as [Hfs Hclock]; [done|].
      destruct (live_handler e).
      * intros Hrest Hne.
        destruct (IH w0 Hrest Hne) as (c' & w' & Hin & Hfs' & Hc' & Hrun).
        exists c', w'. split_and!; [by right | congruence | congruence | done].
      * intros [= <- <-]. done.
Qed.

Lemma first_with_path (q : string) (chain : list string) (c : string) :
  In c chain -> candidate_path p c = q ->
  exists pre c' post,
    chain = (pre ++ c' :: post)%list /\ candidate_path p c' = q
    /\ Forall (fun x => candidate_path p x <> q) pre.
Proof.
  induction chain as [|h chain IH]; [done|]. intros Hin Hq.
  destruct (decide (candidate_path p h = q)) as [Hh|Hh].
  - exists [], h, chain. by split_and!.
  - destruct Hin as [->|Hin]; [done|].
    destruct (IH Hin Hq) as (pre & c' & post & -> & Hc' & Hpre).
    exists (h :: pre), c', post. split_and!; [done | done | by constructor].
Qed.

(** The cache-read pass right after a request that returned a non-empty
    series returns that series. *)
Lemma repeat_pass (w w1 : world) (s : Series) :
  match pass (pl_chain p) w with
  | (Ok (Some c), wc) => (Ok c, wc)
  | (Ok None, wc) => plan_live p (pl_chain p) wc
  | (Raise e, wc) => (Raise e, wc)
  end = (Ok s, w1) ->
  series_empty s = false ->
  exists w2, pass (pl_chain p) w1 = (Ok (Some s), w2) /\ cache_activity_only w1 w2.
Proof.
  pose proof (cache_read_pass_after_misses (pl_chain p) w w (after_misses_refl p w))
    as Hafter.
  pose proof (cache_read_pass_stable (pl_chain p) w _ Hafter) as Hstable.
  destruct (pass (pl_chain p) w) as [[[c|]|e] wc] eqn:Hpass; cbn [fst snd] in *.
  - intros [= <- <-] _.
    pose proof (cache_read_pass_cache_only p (pl_chain p) wc) as Hact.
    fold pass in Hact. destruct (pass (pl_chain p) wc) as [r w2].
    cbn [fst snd] in *. subst r. by exists w2.
  - intros Hlive Hne.
    destruct (live_fetch_pass_success _ _ _ _ Hlive Hne)
      as (c & w' & Hin & Hfs & Hclock & Hatt).
    unfold plan_attempt in Hatt.
    apply live_attempt_stores in Hatt as (_ & Hname & Hclock1 & Hfs1 & Hget).
    fold (candidate_path p c) in Hfs1. fold (cache_lookup p c) in Hget.
    pose proof (cache_read_pass_none_misses (pl_chain p) wc wc
                  (after_misses_refl p wc) Hstable) as Hmiss.
    destruct (first_with_path (candidate_path p c) (pl_chain p) c Hin eq_refl)
      as (pre & c' & post & Hchain & Hc' & Hpre).
    assert (Hpre1 : Forall (fun x => cache_miss p x w1) pre).
    { rewrite Hchain in Hmiss. apply Forall_app in Hmiss as [Hmiss _].
      rewrite Forall_forall in Hmiss, Hpre. apply Forall_forall. intros x Hx.
      specialize (Hmiss x Hx). specialize (Hpre x Hx).
      assert (Hsame : fst (cache_lookup p x w1) = fst (cache_lookup p x wc)).
      { apply cache_lookup_local; [|congruence].
        rewrite Hfs1 by done. by rewrite Hfs. }
      unfold cache_miss in *. by rewrite Hsame. }
    assert (Hhit : fresh_hit p c' w1
                     (set_name (PyStr.upper (PyStr.strip (pl_sym p))) s)).
    { split; [|done]. by rewrite (cache_lookup_same_path p c' c w1 Hc'). }
    destruct (cache_read_pass_first_hit p w1 pre post c' _ w1
                (after_misses_refl p w1) Hpre1 Hhit) as (w2 & Hrun & [Hact _]).
    exists w2. split; [|done]. unfold pass. rewrite Hchain, Hrun.
    destruct s as [name rows]. simpl in Hname. by subst name.
  - done.
Qed.

End Repeat.

(** X27. Read-through at the level of a request: when [fetch_series]
    has returned a non-empty series, from the cache or from the gateway,
    the same request made again right after returns the same series, and
    this time from the cache alone: no session is opened and no gateway
    call is made. *)
Theorem fetch_series_repeat_from_cache `{Md5} `{Resolver} `{SortIndex}
    (symbol instrument_type_ : string) (start_date end_date : date_arg)
    (profile : option InstrumentProfile) (what_to_show : option string)
    (identity : contract_identity) (p : plan) (w w1 : world) (s : Series) :
  accepted symbol instrument_type_ start_date end_date profile what_to_show
    identity p ->
  fetch_series symbol instrument_type_ start_date end_date profile what_to_show
    identity w = (Ok s, w1) ->
  series_empty s = false ->
  exists w2,
    fetch_series symbol instrument_type_ start_date end_date profile what_to_show
      identity w1 = (Ok s, w2)
    /\ cache_activity_only w1 w2.
Proof.
  intros Hacc Hrun Hne.
  rewrite (fetch_series_accepted _ _ _ _ _ _ _ p w Hacc) in Hrun.
  rewrite (fetch_series_accepted _ _ _ _ _ _ _ p w1 Hacc).
  destruct (repeat_pass p w w1 s Hrun Hne) as (w2 & -> & Hact).
  by exists w2.
Qed.

(** The EURUSD request against a gateway that has one bar for it, on an
    empty cache directory. *)
Lemma fetch_series_repeat_from_cache_witness :
  let s := mkSeries (Some "EURUSD") [fx_row] in
  let w1 := snd (@fetch_series md5_plain resolver_any sort_index_stable " eurusd" "FX"
                   (DateValue fx_start) (DateValue fx_end) None None None
                   (world_at t_2024_01_15 ∅ gateway_one_bar)) in
  exists w2,
    @fetch_series md5_plain resolver_any sort_index_stable " eurusd" "FX"
      (DateValue fx_start) (DateValue fx_end) None None None w1 = (Ok s, w2)
    /\ cache_activity_only w1 w2.
Proof.
  refine (@fetch_series_repeat_from_cache md5_plain resolver_any sort_index_stable " eurusd" "FX"
            (DateValue fx_start) (DateValue fx_end) None None None fx_plan
            (world_at t_2024_01_15 ∅ gateway_one_bar) _ _ fx_plan_accepted _ _).
  - vm_compute. reflexivity.
  - reflexivity.
Defined.
